(** * Akademi Topluluk Botu: polls, votes, coffee matching, rate limiting

    A shallow embedding of the coordination logic of the bot and the
    properties its specification states about it.

    Layout (definitions first, theorems afterwards):
    - [PyStr]        the Python string operations the handlers rely on
    - [Database]     database.py   (the polls and votes tables)
    - [Scheduler]    scheduler.py  (schedule_poll_close, close_poll_task)
    - [Bot]          bot.py        (handle_poll_command, handle_vote_action)
    - [MatchService] src/services/match_service.py (CoffeeMatchService)
    - [RateLimit]    src/core/rate_limiter.py (RateLimiter)
    - [PollHandler]  src/handlers/poll_handler.py (handle_poll_command)
    - [DatabaseUsers] database.py  (the users table, import_csv_to_db,
                     get_active_polls)
    - [BotRuns]      runs of /oylama commands, clicks and closing jobs
    - [BotUsers]     bot.py        (get_display_name, is_admin,
                     handle_join_coffee, handle_register_user,
                     handle_my_department)
    - [RateLimitMore] src/core/rate_limiter.py (reset, cleanup_old_entries)
    - [MatchServiceMore] invariants of the coffee service's bookkeeping
    - [Statistics]   src/services/statistics_service.py (the counters)
    - [ChallengeStats] src/repositories/user_challenge_stats_repository.py
    - [PollVote]     src/handlers/poll_handler.py (handle_poll_vote)

    Conventions.  Identifiers ([user_id], [channel_id], [message_ts], job
    ids) are Python [str] and are modelled by [string].  A [datetime] is
    the number of microseconds since 0001-01-01T00:00:00, a [timedelta] a
    number of microseconds, both in [Z].  Calls to collaborators (the Slack
    client, the conversation manager, the language model, the cron client,
    the match repository) are recorded in an outbox in call order; whether
    such a call returns or raises is an input of the operation. *)

From stdpp Require Import gmap strings list fin_maps.
From Stdlib Require Import ZArith Lia Ascii.

Open Scope Z_scope.

(** ** Exceptions and results *)

Inductive exn : Type :=
| ValueError
| IndexError
| OverflowError
| CemilBotError
| ExternalError.   (* any exception raised by a collaborator *)

Inductive res (A : Type) : Type :=
| Ok (a : A)
| Raise (e : exn).
Arguments Ok {A} a.
Arguments Raise {A} e.

(** ** Time *)

Definition SECOND : Z := 1000000.
Definition MINUTE : Z := 60 * SECOND.
Definition DAY : Z := 86400 * SECOND.

(** [datetime.max] is 9999-12-31T23:59:59.999999, ordinal day 3652059. *)
Definition DATETIME_MAX : Z := 3652059 * DAY - 1.

(** [timedelta(minutes=m)]: the day count must stay within
    [-999999999, 999999999], otherwise [OverflowError]. *)
Definition timedelta_minutes (m : Z) : res Z :=
  let us := m * MINUTE in
  if decide (-999999999 ≤ us `div` DAY ≤ 999999999) then Ok us
  else Raise OverflowError.

(** [dt + td] on a [datetime]: [OverflowError] outside
    [datetime.min, datetime.max]. *)
Definition datetime_add (dt td : Z) : res Z :=
  if decide (0 ≤ dt + td ≤ DATETIME_MAX) then Ok (dt + td)
  else Raise OverflowError.

(** [int(td.total_seconds() / 60)] and [int(td.total_seconds())]: the
    float quotient is truncated toward zero.  For the durations that occur
    here (far below 2^53 microseconds) the truncated float quotient and
    the truncated integer quotient coincide. *)
Definition int_minutes (td : Z) : Z := Z.quot td MINUTE.
Definition int_seconds (td : Z) : Z := Z.quot td SECOND.

(** ** Python list indexing [l[i]] for an [int] index *)

Definition py_index {A : Type} (l : list A) (i : Z) : res A :=
  let n := Z.of_nat (length l) in
  let j := if decide (i < 0) then i + n else i in
  if decide (0 ≤ j < n) then
    match l !! Z.to_nat j with
    | Some x => Ok x
    | None => Raise IndexError
    end
  else Raise IndexError.

(** [list.remove(x)]: deletes the first occurrence. *)
Fixpoint list_remove (x : string) (l : list string) : list string :=
  match l with
  | [] => []
  | y :: l' => if decide (y = x) then l' else y :: list_remove x l'
  end.

(** ** Python string operations *)

Module PyStr.

(** ASCII characters for which [str.isspace] holds: tab, line feed,
    vertical tab, form feed, carriage return, the separators 0x1c-0x1f
    and the space.  Whitespace outside ASCII is not recognised by this
    model and is treated as an ordinary character. *)
Definition is_space (c : ascii) : bool :=
  let n := nat_of_ascii c in
  ((9 <=? n) && (n <=? 13) || (28 <=? n) && (n <=? 32))%nat.

Fixpoint lstrip (s : string) : string :=
  match s with
  | String c s' => if is_space c then lstrip s' else s
  | EmptyString => EmptyString
  end.

Fixpoint rstrip (s : string) : string :=
  match s with
  | String c s' =>
      match rstrip s' with
      | EmptyString => if is_space c then EmptyString else String c EmptyString
      | r => String c r
      end
  | EmptyString => EmptyString
  end.

(** [s.strip()] *)
Definition strip (s : string) : string := rstrip (lstrip s).

(** The first whitespace-free word of [s] and what follows it. *)
Fixpoint span_word (s : string) : string * string :=
  match s with
  | String c s' =>
      if is_space c then (EmptyString, s)
      else let '(w, r) := span_word s' in (String c w, r)
  | EmptyString => (EmptyString, EmptyString)
  end.

(** [s.split(maxsplit=1)]: leading whitespace is skipped, the first word
    is cut off, and the remainder (leading whitespace skipped, trailing
    whitespace kept) is the second part when it is not empty. *)
Definition split_maxsplit1 (s : string) : list string :=
  match lstrip s with
  | EmptyString => []
  | s1 =>
      let '(w, r) := span_word s1 in
      match lstrip r with
      | EmptyString => [w]
      | r' => [w; r']
      end
  end.

(** [s.split(sep)] for a one-character separator: always at least one
    field. *)
Fixpoint split (sep : ascii) (s : string) : list string :=
  match s with
  | EmptyString => [EmptyString]
  | String c s' =>
      if decide (c = sep) then EmptyString :: split sep s'
      else match split sep s' with
           | f :: fs => String c f :: fs
           | [] => [String c EmptyString]
           end
  end.

(** [sep.join(l)] *)
Fixpoint join (sep : string) (l : list string) : string :=
  match l with
  | [] => EmptyString
  | [x] => x
  | x :: l' => x +:+ sep +:+ join sep l'
  end.

Definition digit (c : ascii) : option Z :=
  let n := nat_of_ascii c in
  if ((48 <=? n) && (n <=? 57))%nat then Some (Z.of_nat n - 48) else None.

(** Digits of an integer literal; a single underscore may separate two
    digits.  [prev] tells whether the previous character was a digit. *)
Fixpoint digits (acc : Z) (prev : bool) (s : string) : option Z :=
  match s with
  | EmptyString => if prev then Some acc else None
  | String c s' =>
      match digit c with
      | Some d => digits (10 * acc + d) true s'
      | None =>
          if decide (c = "_"%char) then
            if prev then digits acc false s' else None
          else None
      end
  end.

(** [int(s)] in base 10: surrounding whitespace, an optional sign, ASCII
    digits.  [None] stands for [ValueError].  Digits outside ASCII are
    not recognised by this model. *)
Definition int (s : string) : option Z :=
  match strip s with
  | String "-"%char s' => Z.opp <$> digits 0 false s'
  | String "+"%char s' => digits 0 false s'
  | s' => digits 0 false s'
  end.

(** *** Where the model reads what Python reads

    A [string] stands for the UTF-8 encoding of a Python [str].  The
    functions above know the whitespace and the digits of ASCII.  Python
    also strips and splits on the whitespace characters outside ASCII,
    [int] also reads the decimal digits of other scripts, and CPython
    refuses literals of more than 4300 digits.  The predicates below mark
    the texts on which these differences cannot show; the properties that
    depend on how a text typed by a user is cut up assume them. *)

Definition utf8 (bytes : list Z) : string :=
  foldr (λ n s, String (ascii_of_nat (Z.to_nat n)) s) EmptyString bytes.

(** The whitespace characters outside ASCII, encoded: U+0085, U+00A0,
    U+1680, U+2000 to U+200A, U+2028, U+2029, U+202F, U+205F, U+3000. *)
Definition wide_spaces : list string :=
  [utf8 [194; 133]; utf8 [194; 160]; utf8 [225; 154; 128]]
  ++ map (λ n, utf8 [226; 128; n]) (seqZ 128 11)
  ++ [utf8 [226; 128; 168]; utf8 [226; 128; 169]; utf8 [226; 128; 175];
      utf8 [226; 129; 159]; utf8 [227; 128; 128]].

(** No whitespace character outside ASCII occurs in [s]. *)
Fixpoint ascii_spaced (s : string) : bool :=
  match s with
  | EmptyString => true
  | String c s' =>
      negb (existsb (λ w, String.prefix w s) wide_spaces) && ascii_spaced s'
  end.

(** All characters of [s] are ASCII. *)
Fixpoint ascii_only (s : string) : bool :=
  match s with
  | EmptyString => true
  | String c s' => (nat_of_ascii c <? 128)%nat && ascii_only s'
  end.

(** [s] is read by [int] as Python reads it. *)
Definition within_int (s : string) : bool :=
  ascii_only s && (String.length s <=? 4300)%nat.

End PyStr.

(** ** database.py

    The sqlite file is modelled by its two tables.  Every function of
    database.py opens a connection, runs one statement and commits; the
    model takes the connection to succeed, so the [except] branches that
    only log and return a default are not represented. *)

Module Database.

(** A row of [polls].  [options] holds the JSON text of a list of
    strings ([json.dumps] when written, [json.loads] when read); the
    model keeps the list itself. *)
Record poll_row : Type := {
  id : Z;
  channel_id : string;
  message_ts : string;
  creator_id : string;
  topic : string;
  options : list string;
  end_time : Z;              (* whole seconds, as strftime writes it *)
  is_active : Z;             (* INTEGER DEFAULT 1 *)
}.

(** A row of [votes], PRIMARY KEY (poll_id, user_id). *)
Record vote_row : Type := {
  poll_id : Z;
  user_id : string;
  option_index : Z;
}.

Record db : Type := {
  polls : list poll_row;
  votes : list vote_row;
  last_poll_id : Z;          (* AUTOINCREMENT sequence of polls.id *)
}.

Definition empty_db : db := {| polls := []; votes := []; last_poll_id := 0 |}.

#[global] Instance vote_row_eq_dec : EqDecision vote_row.
Proof. solve_decision. Defined.

Definition same_key (p : Z) (u : string) (r : vote_row) : Prop :=
  poll_id r = p ∧ user_id r = u.

#[global] Instance same_key_dec p u r : Decision (same_key p u r).
Proof. unfold same_key. apply _. Defined.

Definition create_poll (d : db) (channel_id message_ts creator_id topic : string)
    (options_json : list string) (end_time : Z) : db * Z :=
  let poll_id := last_poll_id d + 1 in
  ({| polls := polls d ++
               [ {| id := poll_id; channel_id := channel_id;
                    message_ts := message_ts; creator_id := creator_id;
                    topic := topic; options := options_json;
                    end_time := end_time; is_active := 1 |} ];
      votes := votes d;
      last_poll_id := poll_id |}, poll_id).

(** The integers sqlite3 binds as a parameter: signed, 64 bits.  Binding
    a Python int outside this range raises OverflowError. *)
Definition sqlite_int (n : Z) : Prop := - 2 ^ 63 ≤ n ≤ 2 ^ 63 - 1.

#[global] Instance sqlite_int_dec n : Decision (sqlite_int n).
Proof. unfold sqlite_int. apply _. Defined.

(** INSERT OR REPLACE: the row that conflicts on the primary key is
    deleted, then the new row is inserted.  This is the statement's effect
    for parameters that bind ([sqlite_int]); for an index that does not
    bind, execute raises and the except branch returns False with nothing
    written, a branch this definition does not have.  The properties that
    let the index range over all integers assume [sqlite_int] of it. *)
Definition add_vote (d : db) (poll_id : Z) (user_id : string) (option_index : Z)
    : db * bool :=
  ({| polls := polls d;
      votes := filter (λ r, ¬ same_key poll_id user_id r) (votes d) ++
               [ {| poll_id := poll_id; user_id := user_id;
                    option_index := option_index |} ];
      last_poll_id := last_poll_id d |}, true).

(** SELECT 1 FROM votes WHERE poll_id = ? AND user_id = ? *)
Definition has_user_voted (d : db) (poll_id : Z) (user_id : string) : bool :=
  match filter (same_key poll_id user_id) (votes d) with
  | [] => false
  | _ :: _ => true
  end.

(** SELECT option_index, COUNT( * ) ... WHERE poll_id = ? GROUP BY
    option_index, turned into a [dict]. *)
Definition get_poll_results (d : db) (p : Z) : gmap Z Z :=
  foldr (λ r acc,
           if decide (poll_id r = p)
           then <[ option_index r := default 0 (acc !! option_index r) + 1 ]> acc
           else acc)
        ∅ (votes d).

(** SET is_active = 0 on one row. *)
Definition set_inactive (r : poll_row) : poll_row :=
  {| id := id r; channel_id := channel_id r; message_ts := message_ts r;
     creator_id := creator_id r; topic := topic r; options := options r;
     end_time := end_time r; is_active := 0 |}.

(** UPDATE polls SET is_active = 0 WHERE id = ? *)
Definition close_poll (d : db) (p : Z) : db * bool :=
  ({| polls := map (λ r, if decide (id r = p) then set_inactive r else r) (polls d);
      votes := votes d;
      last_poll_id := last_poll_id d |}, true).

(** SELECT id, topic, options, is_active, channel_id FROM polls WHERE
    message_ts = ?, [fetchone]. *)
Definition get_poll_by_ts (d : db) (ts : string)
    : option (Z * string * list string * Z * string) :=
  match filter (λ r, message_ts r = ts) (polls d) with
  | [] => None
  | r :: _ => Some (id r, topic r, options r, is_active r, channel_id r)
  end.

End Database.

(** ** The Slack client of the monolithic bot (bot.py, scheduler.py)

    The texts the bot sends are kept as terms; the Turkish wording of the
    source is in the comments. *)

Inductive text : Type :=
| TxtAdminOnly                      (* "Bu komutu sadece adminler kullanabilir." *)
| TxtBadFormat                      (* "Hatalı format! Kullanım: /oylama [Dakika] [Konu] | ..." *)
| TxtPollFailed                     (* "Oylama başlatılamadı." *)
| TxtPollEnded                      (* "Bu oylama sona erdi." *)
| TxtAlreadyVoted                   (* "Bu oylama için zaten oy kullandın. ..." *)
| TxtVoteSaved (label : string)     (* "Oyun kaydedildi: *{label}*" *)
| TxtVoteError.                     (* "Oy verirken bir hata oluştu." *)

(** The last line of the result message of a closed poll. *)
Inductive footer : Type :=
| Kazanan (winner_str : string)     (* "Kazanan: {winner_str}" *)
| HicOyKullanilmadi.                (* "Hiç oy kullanılmadı." *)

(** [result_text] of close_poll_task: the heading with the topic, one
    line "{opt}: *{count} oy*" per option, and the footer. *)
Record result_text : Type := {
  rt_topic : string;
  rt_lines : list (string * Z);
  rt_footer : footer;
}.

Inductive slack_call : Type :=
| chat_postEphemeral (channel user : string) (t : text)
| chat_postPoll (channel topic : string) (minutes : Z) (user : string)
                (buttons : list (string * Z))      (* the poll message and its vote_{i} buttons *)
| chat_postResult (channel : string) (r : result_text)
| chat_delete (channel ts : string).

(** ** scheduler.py *)

Module Scheduler.
Import Database.

(** A 'date' job of the background scheduler running close_poll_task. *)
Record job : Type := {
  job_id : string;           (* f"close_{message_ts}" *)
  run_date : Z;
  job_ts : string;           (* args=[app, message_ts] *)
}.

(** The process state of the monolithic bot. *)
Record world : Type := {
  database : db;
  _global_scheduler : option (list job);   (* None until start_scheduler *)
  sent : list slack_call;                  (* calls made on the Slack client *)
}.

Definition send (w : world) (c : slack_call) : world :=
  {| database := database w; _global_scheduler := _global_scheduler w;
     sent := sent w ++ [c] |}.

Definition with_db (w : world) (d : db) : world :=
  {| database := d; _global_scheduler := _global_scheduler w; sent := sent w |}.

(** schedule_poll_close(app, message_ts, minutes); [now] is the clock
    read inside the function.  [add_job_ok] tells whether add_job returns:
    the scheduler raises ConflictingIdError when a job with the same id is
    still pending in its job store.  That store is emptied by the
    scheduler's own thread as jobs run, so the list kept here, which only
    grows, does not decide the conflict; the answer of add_job is an input,
    like the answers of the other collaborators. *)
Definition schedule_poll_close (w : world) (message_ts : string) (minutes now : Z)
    (add_job_ok : bool) : res world :=
  match _global_scheduler w with
  | Some jobs =>
      match timedelta_minutes minutes with
      | Raise e => Raise e
      | Ok td =>
          match datetime_add now td with
          | Raise e => Raise e
          | Ok run_at =>
              if add_job_ok then
                Ok {| database := database w;
                      _global_scheduler :=
                        Some (jobs ++ [ {| job_id := "close_" +:+ message_ts;
                                           run_date := run_at;
                                           job_ts := message_ts |} ]);
                      sent := sent w |}
              else Raise ExternalError
          end
      end
  | None => Ok w
  end.

(** One turn of the loop over [enumerate(options)] in close_poll_task:
    the state is (lines, max_votes, winners). *)
Definition tally_step (results : gmap Z Z)
    (st : list (string * Z) * Z * list string) (io : nat * string)
    : list (string * Z) * Z * list string :=
  let '(lines, max_votes, winners) := st in
  let '(i, opt) := io in
  let count := default 0 (results !! Z.of_nat i) in
  let lines := lines ++ [(opt, count)] in
  if decide (count > max_votes) then (lines, count, [opt])
  else if decide (count = max_votes ∧ count > 0) then (lines, max_votes, winners ++ [opt])
  else (lines, max_votes, winners).

Definition tally (results : gmap Z Z) (options : list string)
    : list (string * Z) * Z * list string :=
  foldl (tally_step results) ([], -1, []) (imap (λ i opt, (i, opt)) options).

Definition make_result_text (topic : string) (results : gmap Z Z)
    (options : list string) : result_text :=
  let '(lines, max_votes, winners) := tally results options in
  {| rt_topic := topic;
     rt_lines := lines;
     rt_footer := if decide (max_votes > 0)
                  then Kazanan (PyStr.join ", " winners)
                  else HicOyKullanilmadi |}.

(** close_poll_task(app, message_ts).  [delete_ok] and [post_ok] tell
    whether chat_delete and chat_postMessage return; both calls sit in
    their own try/except, which only logs. *)
Definition close_poll_task (w : world) (message_ts : string)
    (delete_ok post_ok : bool) : world :=
  match get_poll_by_ts (database w) message_ts with
  | None => w
  | Some (poll_id, topic, options_json, is_active, channel_id) =>
      if decide (is_active = 0) then w
      else
        let results := get_poll_results (database w) poll_id in
        let options := options_json in
        let w := with_db w (close_poll (database w) poll_id).1 in
        let result_text := make_result_text topic results options in
        let w := if delete_ok then send w (chat_delete channel_id message_ts) else w in
        if post_ok then send w (chat_postResult channel_id result_text) else w
  end.

(** The state of the loop of close_poll_task after the entries [pre] of
    [enumerate(options)]. *)
Definition tally_inv (cnt : nat → Z) (pre : list (nat * string))
    (st : list (string * Z) * Z * list string) : Prop :=
  let '(lines, max_votes, winners) := st in
  lines = map (λ io, (io.2, cnt io.1)) pre ∧
  max_votes = foldl Z.max (-1) (map (λ io, cnt io.1) pre) ∧
  (max_votes > 0 → winners = map snd (filter (λ io, cnt io.1 = max_votes) pre)).

(** *** The tally as the specification words it

    These three definitions follow the specification, not the code: the
    count of an option is the number of stored votes for it, the maximum
    is taken over the options of the poll, and the winners are the options
    that attain it. *)

Definition enumerate (options : list string) : list (nat * string) :=
  imap (λ i opt, (i, opt)) options.

Definition spec_count (d : db) (p : Z) (i : nat) : Z :=
  Z.of_nat (length (filter (λ r, poll_id r = p ∧ option_index r = Z.of_nat i) (votes d))).

Definition spec_max (d : db) (p : Z) (options : list string) : Z :=
  foldl Z.max (-1) (map (λ io, spec_count d p io.1) (enumerate options)).

Definition spec_winners (d : db) (p : Z) (options : list string) : list string :=
  map snd (filter (λ io, spec_count d p io.1 = spec_max d p options) (enumerate options)).

End Scheduler.

(** ** bot.py: the /oylama command and the vote buttons *)

Module Bot.
Import Database Scheduler.

(** What a /oylama invocation brings with it. *)
Record poll_command : Type := {
  pc_user_id : string;             (* body["user_id"] *)
  pc_channel_id : string;          (* body["channel_id"] *)
  pc_text : string;                (* body.get("text", "") *)
  pc_is_admin : bool;              (* is_admin(user_id, client) *)
  pc_post : option string;         (* res["ts"] of chat_postMessage, None if it raises *)
  pc_now : Z;                      (* datetime.now() in the handler *)
  pc_now_sched : Z;                (* datetime.now() in schedule_poll_close *)
  pc_add_job_ok : bool;            (* add_job returns (no ConflictingIdError) *)
}.

(** Step 2 of the handler, "Parametre Ayrıştırma": minutes, topic and
    options, or [ValueError]. *)
Definition parse_params (text : string) : res (Z * string * list string) :=
  match PyStr.split_maxsplit1 text with
  | [m; rest] =>
      match PyStr.int m with
      | None => Raise ValueError
      | Some minutes =>
          let content_parts := PyStr.split "|" rest in
          if decide (length content_parts < 3)%nat then Raise ValueError
          else Ok (minutes,
                   PyStr.strip (hd EmptyString content_parts),
                   map PyStr.strip (tl content_parts))
      end
  | _ => Raise ValueError
  end.

(** The command texts that the string model reads as Python does: all
    whitespace is ASCII, and the first field, which goes to [int], is ASCII
    and within the digit limit. *)
Definition plain_text (text : string) : bool :=
  PyStr.ascii_spaced text
  && PyStr.within_int (PyStr.span_word (PyStr.lstrip text)).1.

(** [end_time] of step 5, formatted with second precision. *)
Definition poll_end_time (now minutes : Z) : res Z :=
  match timedelta_minutes minutes with
  | Raise e => Raise e
  | Ok td =>
      match datetime_add now td with
      | Raise e => Raise e
      | Ok t => Ok (t `div` SECOND)
      end
  end.

Definition handle_poll_command (w : world) (c : poll_command) : world :=
  let user_id := pc_user_id c in
  let channel_id := pc_channel_id c in
  let text := PyStr.strip (pc_text c) in
  if negb (pc_is_admin c) then
    send w (chat_postEphemeral channel_id user_id TxtAdminOnly)
  else
    match parse_params text with
    | Raise _ => send w (chat_postEphemeral channel_id user_id TxtBadFormat)
    | Ok (minutes, topic, options) =>
        let buttons := imap (λ i opt, (opt, Z.of_nat i)) options in
        match pc_post c with
        | None => send w (chat_postEphemeral channel_id user_id TxtPollFailed)
        | Some message_ts =>
            let w := send w (chat_postPoll channel_id topic minutes user_id buttons) in
            match poll_end_time (pc_now c) minutes with
            | Raise _ => send w (chat_postEphemeral channel_id user_id TxtPollFailed)
            | Ok end_time =>
                let w := with_db w (create_poll (database w) channel_id message_ts
                                      user_id topic options end_time).1 in
                match schedule_poll_close w message_ts minutes (pc_now_sched c)
                        (pc_add_job_ok c) with
                | Raise _ => send w (chat_postEphemeral channel_id user_id TxtPollFailed)
                | Ok w => w
                end
            end
        end
    end.

(** A click on a vote button. *)
Record vote_action : Type := {
  va_user_id : string;             (* body["user"]["id"] *)
  va_message_ts : string;          (* body["container"]["message_ts"] *)
  va_option_index : Z;             (* int(body["actions"][0]["value"]) *)
  va_channel : string;             (* body["channel"]["id"] *)
}.

(** The row (p, u, i) and the click of [u] on button [i] of the message [ts]. *)
Definition vote (p : Z) (u : string) (i : Z) : vote_row :=
  {| poll_id := p; user_id := u; option_index := i |}.

Definition click (u ts ch : string) (i : Z) : vote_action :=
  {| va_user_id := u; va_message_ts := ts; va_option_index := i; va_channel := ch |}.

(** handle_vote_action: the new world, and [Raise] when the handler
    leaves through an exception. *)
Definition handle_vote_action (w : world) (a : vote_action) : world * res unit :=
  let user_id := va_user_id a in
  let option_index := va_option_index a in
  match get_poll_by_ts (database w) (va_message_ts a) with
  | None => (w, Ok ())
  | Some (poll_id, topic, options_json, is_active, poll_channel_id) =>
      if decide (is_active = 0) then
        (send w (chat_postEphemeral (va_channel a) user_id TxtPollEnded), Ok ())
      else if has_user_voted (database w) poll_id user_id then
        (send w (chat_postEphemeral (va_channel a) user_id TxtAlreadyVoted), Ok ())
      else
        let options := options_json in
        let '(d, added) := add_vote (database w) poll_id user_id option_index in
        let w := with_db w d in
        if added then
          match py_index options option_index with
          | Ok label =>
              (send w (chat_postEphemeral (va_channel a) user_id (TxtVoteSaved label)), Ok ())
          | Raise e => (w, Raise e)
          end
        else
          (send w (chat_postEphemeral (va_channel a) user_id TxtVoteError), Ok ())
  end.

End Bot.

(** ** src/services/match_service.py: CoffeeMatchService *)

Module MatchService.

(** The strings request_coffee returns. *)
Inductive reply : Type :=
| MsgCooldown (remaining : Z)   (* "Bir sonraki kahve isteğinizi {remaining} dakika sonra yapabilirsiniz." *)
| MsgAlreadyWaiting             (* "Zaten kahve havuzunda bekliyorsunuz. ..." *)
| MsgMatched                    (* "Harika! Bir kahve arkadaşı bulduk. ..." *)
| MsgWaiting.                   (* "Kahve isteğiniz alındı! ..." *)

(** The summary stored when a match is closed. *)
Inductive summary_text : Type :=
| NoConversation                (* "Eşleşme süresince herhangi bir konuşma gerçekleşmedi." *)
| Generated (s : string).       (* what groq.quick_ask returned *)

(** A row of the match repository. *)
Record match_row : Type := {
  match_id : string;
  channel_id : string;
  user1_id : string;
  user2_id : string;
  status : string;              (* "active" or "closed" *)
  summary : option summary_text;
}.

(** The one-shot jobs handed to the cron client. *)
Inductive cron_task : Type :=
| run_timeout_user (user_id : string)               (* func=self._timeout_user *)
| run_close_match (channel_id match_id : string).   (* func=self.close_match *)

Record cron_job : Type := {
  delay_minutes : Z;
  task : cron_task;
}.

(** What the service posts through the chat manager. *)
Inductive chat_text : Type :=
| IceBreaker (s : string)
| TimeoutNotice                 (* "Kahve isteğiniz zaman aşımına uğradı. ..." *)
| AdminReport (channel u1 u2 : string) (s : summary_text)
| ClosingNotice.                (* "Süremiz doldu. Bu sohbet sona erdi. ..." *)

(** Calls that reached the conversation and chat managers. *)
Inductive call : Type :=
| open_conversation (users : list string) (channel : string)
| post_message (channel : string) (t : chat_text)
| close_conversation (channel : string).

(** The service object together with the state of the collaborators it
    writes to: the cron client's job table (keyed by job id), the match
    repository and the calls made on the chat side. *)
Record service : Type := {
  waiting_pool : list string;
  last_request_time : gmap string Z;
  pool_timeout_jobs : gmap string string;
  admin_channel : option string;           (* os.environ.get("ADMIN_CHANNEL_ID") *)
  cron : gmap string cron_job;
  match_repo : list match_row;
  outbox : list call;
}.

(** [__init__] *)
Definition init (admin : option string) : service :=
  {| waiting_pool := []; last_request_time := ∅; pool_timeout_jobs := ∅;
     admin_channel := admin; cron := ∅; match_repo := []; outbox := [] |}.

Definition set_waiting_pool (s : service) (p : list string) : service :=
  {| waiting_pool := p; last_request_time := last_request_time s;
     pool_timeout_jobs := pool_timeout_jobs s; admin_channel := admin_channel s;
     cron := cron s; match_repo := match_repo s; outbox := outbox s |}.

Definition set_last_request_time (s : service) (m : gmap string Z) : service :=
  {| waiting_pool := waiting_pool s; last_request_time := m;
     pool_timeout_jobs := pool_timeout_jobs s; admin_channel := admin_channel s;
     cron := cron s; match_repo := match_repo s; outbox := outbox s |}.

Definition set_pool_timeout_jobs (s : service) (m : gmap string string) : service :=
  {| waiting_pool := waiting_pool s; last_request_time := last_request_time s;
     pool_timeout_jobs := m; admin_channel := admin_channel s;
     cron := cron s; match_repo := match_repo s; outbox := outbox s |}.

Definition set_cron (s : service) (m : gmap string cron_job) : service :=
  {| waiting_pool := waiting_pool s; last_request_time := last_request_time s;
     pool_timeout_jobs := pool_timeout_jobs s; admin_channel := admin_channel s;
     cron := m; match_repo := match_repo s; outbox := outbox s |}.

Definition set_match_repo (s : service) (r : list match_row) : service :=
  {| waiting_pool := waiting_pool s; last_request_time := last_request_time s;
     pool_timeout_jobs := pool_timeout_jobs s; admin_channel := admin_channel s;
     cron := cron s; match_repo := r; outbox := outbox s |}.

Definition emit (s : service) (c : call) : service :=
  {| waiting_pool := waiting_pool s; last_request_time := last_request_time s;
     pool_timeout_jobs := pool_timeout_jobs s; admin_channel := admin_channel s;
     cron := cron s; match_repo := match_repo s; outbox := outbox s ++ [c] |}.

(** How the collaborators answer during one request_coffee: [None] or
    [false] means that the call raises. *)
Record match_env : Type := {
  remove_job_ok : bool;                 (* cron.remove_job *)
  add_once_job_ok : bool;               (* cron.add_once_job *)
  open_conversation_r : option string;  (* conv.open_conversation(...)["id"] *)
  create_r : option string;             (* match_repo.create(...) *)
  quick_ask_r : option string;          (* groq.quick_ask *)
  post_message_ok : bool;               (* chat.post_message *)
}.

(** The same for one run of _timeout_user. *)
Record timeout_env : Type := {
  dm_open_r : option string;
  dm_post_ok : bool;
}.

(** A message of the conversation history. *)
Record history_msg : Type := {
  bot_id : option string;
  type_ : option string;
  msg_text : option string;
}.

(** The same for one run of close_match. *)
Record close_env : Type := {
  get_history_r : option (list history_msg);
  summary_r : option string;            (* groq.quick_ask *)
  update_ok : bool;                     (* match_repo.update *)
  post_admin_ok : bool;
  post_closing_ok : bool;
  close_conversation_ok : bool;
}.

Definition COOLDOWN : Z := 5 * MINUTE.   (* timedelta(minutes=5) *)

(** can_request_coffee(user_id); [now] is its clock read. *)
Definition can_request_coffee (s : service) (user_id : string) (now : Z)
    : bool * option reply :=
  let cooldown :=
    match last_request_time s !! user_id with
    | Some last =>
        let elapsed := now - last in
        if decide (elapsed < COOLDOWN)
        then Some (5 - int_minutes elapsed)
        else None
    | None => None
    end in
  match cooldown with
  | Some remaining => (false, Some (MsgCooldown remaining))
  | None =>
      if decide (user_id ∈ waiting_pool s)
      then (false, Some MsgAlreadyWaiting)
      else (true, None)
  end.

Definition timeout_job_id (user_id : string) : string := "coffee_timeout_" +:+ user_id.
Definition close_job_id (channel_id : string) : string := "close_match_" +:+ channel_id.

(** The body of the [try] of start_match: the state reached, and
    whether a call raised. *)
Definition start_match_body (s : service) (e : match_env) (user_id1 user_id2 : string)
    : service * res unit :=
  match open_conversation_r e with
  | None => (s, Raise ExternalError)
  | Some channel_id =>
      let s := emit s (open_conversation [user_id1; user_id2] channel_id) in
      match create_r e with
      | None => (s, Raise ExternalError)
      | Some match_id =>
          let s := set_match_repo s
                     (match_repo s ++
                      [ {| match_id := match_id; channel_id := channel_id;
                           user1_id := user_id1; user2_id := user_id2;
                           status := "active"; summary := None |} ]) in
          match quick_ask_r e with
          | None => (s, Raise ExternalError)
          | Some ice_breaker =>
              if post_message_ok e then
                let s := emit s (post_message channel_id (IceBreaker ice_breaker)) in
                if add_once_job_ok e then
                  (set_cron s (<[ close_job_id channel_id :=
                                    {| delay_minutes := 5;
                                       task := run_close_match channel_id match_id |} ]>
                                 (cron s)),
                   Ok ())
                else (s, Raise ExternalError)
              else (s, Raise ExternalError)
          end
      end
  end.

(** start_match: every exception is logged and re-raised as
    CemilBotError. *)
Definition start_match (s : service) (e : match_env) (user_id1 user_id2 : string)
    : service * res unit :=
  match start_match_body s e user_id1 user_id2 with
  | (s', Ok u) => (s', Ok u)
  | (s', Raise _) => (s', Raise CemilBotError)
  end.

(** request_coffee(user_id, channel_id).  [now_check] is the clock read
    of can_request_coffee, [now_record] the one stored as the last
    request time.  The result is the string returned, or the exception
    that leaves the coroutine. *)
Definition request_coffee (s : service) (e : match_env) (user_id channel_id : string)
    (now_check now_record : Z) : service * res (option reply) :=
  let '(can_request, error_msg) := can_request_coffee s user_id now_check in
  if negb can_request then (s, Ok error_msg)
  else
    let s := set_last_request_time s (<[ user_id := now_record ]> (last_request_time s)) in
    match waiting_pool s with
    | partner_id :: rest =>
        let s := set_waiting_pool s rest in
        let cancelled :=
          match pool_timeout_jobs s !! partner_id with
          | Some job =>
              if remove_job_ok e then
                Ok (set_pool_timeout_jobs (set_cron s (delete job (cron s)))
                      (delete partner_id (pool_timeout_jobs s)))
              else Raise ExternalError
          | None => Ok s
          end in
        match cancelled with
        | Raise ex => (s, Raise ex)
        | Ok s =>
            match start_match s e user_id partner_id with
            | (s, Raise ex) => (s, Raise ex)
            | (s, Ok _) => (s, Ok (Some MsgMatched))
            end
        end
    | [] =>
        let s := set_waiting_pool s (waiting_pool s ++ [user_id]) in
        let job_id := timeout_job_id user_id in
        if add_once_job_ok e then
          let s := set_cron s (<[ job_id := {| delay_minutes := 5;
                                               task := run_timeout_user user_id |} ]>
                                 (cron s)) in
          let s := set_pool_timeout_jobs s (<[ user_id := job_id ]> (pool_timeout_jobs s)) in
          (s, Ok (Some MsgWaiting))
        else (s, Raise ExternalError)
    end.

(** _timeout_user(user_id) *)
Definition _timeout_user (s : service) (e : timeout_env) (user_id : string) : service :=
  let s :=
    if decide (user_id ∈ waiting_pool s) then
      let s := set_waiting_pool s (list_remove user_id (waiting_pool s)) in
      match dm_open_r e with
      | Some dm_channel =>
          let s := emit s (open_conversation [user_id] dm_channel) in
          if dm_post_ok e then emit s (post_message dm_channel TimeoutNotice) else s
      | None => s
      end
    else s in
  match pool_timeout_jobs s !! user_id with
  | Some _ => set_pool_timeout_jobs s (delete user_id (pool_timeout_jobs s))
  | None => s
  end.

(** [not msg.get("bot_id") and msg.get("type") == "message"] *)
Definition is_user_message (m : history_msg) : bool :=
  match bot_id m with
  | Some b => bool_decide (b = EmptyString)
  | None => true
  end && bool_decide (type_ m = Some "message").

(** match_repo.update(match_id, {"status": "closed", "summary": ...}) *)
Definition repo_update (r : list match_row) (mid : string) (sm : summary_text)
    : list match_row :=
  map (λ m, if decide (match_id m = mid)
            then {| match_id := match_id m; channel_id := channel_id m;
                    user1_id := user1_id m; user2_id := user2_id m;
                    status := "closed"; summary := Some sm |}
            else m) r.

(** match_repo.get(match_id) *)
Definition repo_get (r : list match_row) (mid : string) : option match_row :=
  head (filter (λ m, match_id m = mid) r).

(** close_match(channel_id, match_id).  The whole body sits in one
    try/except that logs: a raising call ends the run where it stands. *)
Definition close_match (s : service) (e : close_env) (channel_id match_id : string)
    : service :=
  match get_history_r e with
  | None => s
  | Some messages =>
      let user_messages :=
        map (λ m, "Kullanıcı: " +:+ default EmptyString (msg_text m))
            (filter (λ m, is_user_message m = true) messages) in
      let summary_opt :=
        match user_messages with
        | [] => Some NoConversation
        | _ :: _ => Generated <$> summary_r e
        end in
      match summary_opt with
      | None => s
      | Some summary =>
          if update_ok e then
            let s := set_match_repo s (repo_update (match_repo s) match_id summary) in
            let reported :=
              match admin_channel s with
              | Some ac =>
                  if decide (ac = EmptyString) then Some s
                  else
                    match repo_get (match_repo s) match_id with
                    | Some match_data =>
                        if post_admin_ok e then
                          Some (emit s (post_message ac
                                          (AdminReport channel_id (user1_id match_data)
                                             (user2_id match_data) summary)))
                        else None
                    | None => None
                    end
              | None => Some s
              end in
            match reported with
            | None => s
            | Some s =>
                if post_closing_ok e then
                  let s := emit s (post_message channel_id ClosingNotice) in
                  if close_conversation_ok e then emit s (close_conversation channel_id)
                  else s
                else s
            end
          else s
      end
  end.

(** The operations that act on the waiting pool, with what the
    collaborators answer during each. *)
Inductive op : Type :=
| op_request_coffee (user_id channel_id : string) (e : match_env) (now_check now_record : Z)
| op_timeout_user (user_id : string) (e : timeout_env).

Definition step (s : service) (o : op) : service :=
  match o with
  | op_request_coffee u c e t0 t1 => (request_coffee s e u c t0 t1).1
  | op_timeout_user u e => _timeout_user s e u
  end.

(** All states a sequence of operations goes through, the first one
    included. *)
Fixpoint states (s : service) (ops : list op) : list service :=
  match ops with
  | [] => [s]
  | o :: ops' => s :: states (step s o) ops'
  end.

(** The remaining cooldown in whole minutes as the specification words
    it: the ceiling of the remaining time. *)
Definition spec_remaining_minutes (remaining : Z) : Z := - ((- remaining) `div` MINUTE).

(** The invariant of the waiting pool and of the matches made: no user
    twice in the pool, no match of a user with themselves. *)
Definition pool_inv (s : service) : Prop :=
  NoDup (waiting_pool s) ∧ Forall (λ m, user1_id m ≠ user2_id m) (match_repo s).

End MatchService.

(** ** src/core/rate_limiter.py: RateLimiter *)

Module RateLimit.

(** [requests] is a [defaultdict(list)]: reading a missing user yields
    (and stores) the empty list. *)
Record RateLimiter : Type := {
  max_requests : Z;
  window_seconds : Z;
  requests : gmap string (list Z);
}.

(** [__init__] *)
Definition new (max_requests window_seconds : Z) : RateLimiter :=
  {| max_requests := max_requests; window_seconds := window_seconds;
     requests := ∅ |}.

(** "Çok fazla istek! Lütfen {wait_seconds} saniye sonra tekrar deneyin." *)
Inductive limit_text : Type :=
| TooManyRequests (wait_seconds : Z).

(** [min(l) if l else now] *)
Definition oldest_or (now : Z) (l : list Z) : Z :=
  match l with
  | [] => now
  | x :: l' => foldl Z.min x l'
  end.

(** is_allowed(user_id); [now] is its clock read. *)
Definition is_allowed (rl : RateLimiter) (user_id : string) (now : Z)
    : RateLimiter * (bool * option limit_text) :=
  let user_requests := default [] (requests rl !! user_id) in
  let cutoff_time := now - window_seconds rl * SECOND in
  let user_requests := filter (λ req_time, req_time > cutoff_time) user_requests in
  if decide (Z.of_nat (length user_requests) >= max_requests rl) then
    let oldest_request := oldest_or now user_requests in
    let wait_seconds :=
      int_seconds (oldest_request + window_seconds rl * SECOND - now) in
    ({| max_requests := max_requests rl; window_seconds := window_seconds rl;
        requests := <[ user_id := user_requests ]> (requests rl) |},
     (false, Some (TooManyRequests wait_seconds)))
  else
    ({| max_requests := max_requests rl; window_seconds := window_seconds rl;
        requests := <[ user_id := user_requests ++ [now] ]> (requests rl) |},
     (true, None)).

(** A run of is_allowed calls, each with its user and its clock read:
    the limiter at the end and the answers in call order. *)
Fixpoint run (rl : RateLimiter) (calls : list (string * Z)) : RateLimiter * list bool :=
  match calls with
  | [] => (rl, [])
  | (u, now) :: calls' =>
      let '(rl1, (allowed, _)) := is_allowed rl u now in
      let '(rl2, answers) := run rl1 calls' in
      (rl2, allowed :: answers)
  end.

(** *** The limiter as the specification words it

    [spec_run] keeps the calls that were allowed, never forgetting any, and
    allows a call exactly when strictly fewer than [max_requests] of the
    user's earlier allowed calls lie within the last [window_seconds]. *)

Definition spec_recent (window_seconds : Z) (allowed : list (string * Z))
    (u : string) (now : Z) : list (string * Z) :=
  filter (λ h, h.1 = u ∧ h.2 > now - window_seconds * SECOND) allowed.

Fixpoint spec_run (max_requests window_seconds : Z) (allowed : list (string * Z))
    (calls : list (string * Z)) : list bool :=
  match calls with
  | [] => []
  | (u, now) :: calls' =>
      let ok := bool_decide
                  (Z.of_nat (length (spec_recent window_seconds allowed u now))
                   < max_requests) in
      ok :: spec_run max_requests window_seconds
              (if ok then allowed ++ [(u, now)] else allowed) calls'
  end.

(** The clock reads of a run do not go back: each is at least [lo] and at
    least the one before. *)
Fixpoint chronological (lo : Z) (calls : list (string * Z)) : Prop :=
  match calls with
  | [] => True
  | (_, now) :: calls' => lo ≤ now ∧ chronological now calls'
  end.

(** What the limiter holds for a user compared with the allowed calls the
    specification remembers: above every cutoff that can still occur they
    agree. *)
Definition limiter_agrees (lo : Z) (rl : RateLimiter) (allowed : list (string * Z)) : Prop :=
  ∀ (u : string) (c : Z),
    lo - window_seconds rl * SECOND ≤ c →
    filter (λ t, t > c) (default [] (requests rl !! u))
    = filter (λ t, t > c) (map snd (filter (λ h : string * Z, h.1 = u) allowed)).

End RateLimit.

(** ** src/handlers/poll_handler.py: the /oylama command *)

Module PollHandler.
Import RateLimit.

(** The fields of a validated request (src/core/validators.py is not
    part of the sources at hand; only the fields the handler reads are
    declared). *)
Record PollRequest : Type := {
  minutes : Z;
  topic : string;
  options : list string;
}.

Inductive text : Type :=
| TxtLimit (t : option limit_text)   (* error_msg of is_allowed *)
| TxtAdminOnly                  (* "Bu komutu sadece adminler kullanabilir." *)
| TxtFormat (err : string)      (* "Eyvah, oylama formatı biraz karıştı! ... Hata: {ve}" *)
| TxtCreateFailed.              (* "Oylama oluşturulurken bir hata oluştu. ..." *)

Inductive call : Type :=
| post_ephemeral (channel user : string) (t : text).

Section Handler.

(** [W] is the state behind the collaborators of the handler (the
    workspace's user directory, the voting service and its store). *)
Context {W : Type}.

(** is_admin(app, user_id) *)
Variable is_admin : W → string → bool.
(** PollRequest.parse_from_text(text): the request or the message of
    the ValueError. *)
Variable parse_from_text : string → PollRequest + string.
(** voting_service.create_poll(channel_id, topic, options, user_id,
    allow_multiple, duration_minutes): the state it leaves, and [false]
    when it raises. *)
Variable create_poll : W → string → string → list string → string → bool → Z → W * bool.

Record handler_state : Type := {
  rate_limiter : RateLimiter;
  world : W;
  posted : list call;
}.

Definition handle_poll_command (h : handler_state)
    (user_id channel_id body_text : string) (now : Z) : handler_state :=
  let text := PyStr.strip body_text in
  let '(rl, (allowed, error_msg)) := is_allowed (rate_limiter h) user_id now in
  if negb allowed then
    {| rate_limiter := rl; world := world h;
       posted := posted h ++ [post_ephemeral channel_id user_id (TxtLimit error_msg)] |}
  else if negb (is_admin (world h) user_id) then
    {| rate_limiter := rl; world := world h;
       posted := posted h ++ [post_ephemeral channel_id user_id TxtAdminOnly] |}
  else
    match parse_from_text text with
    | inr ve =>
        {| rate_limiter := rl; world := world h;
           posted := posted h ++ [post_ephemeral channel_id user_id (TxtFormat ve)] |}
    | inl poll_request =>
        match create_poll (world h) channel_id (topic poll_request)
                (options poll_request) user_id false (minutes poll_request) with
        | (w', true) => {| rate_limiter := rl; world := w'; posted := posted h |}
        | (w', false) =>
            {| rate_limiter := rl; world := w';
               posted := posted h ++ [post_ephemeral channel_id user_id TxtCreateFailed] |}
        end
    end.

End Handler.

End PollHandler.

(** ** Sample data used by the examples below *)

Module Sample.
Import Database Scheduler Bot.

(** One open two-option poll posted as message "1700.01" in channel "C1",
    no vote yet, the scheduler started. *)
Definition lunch_poll : poll_row :=
  {| id := 1; channel_id := "C1"; message_ts := "1700.01"; creator_id := "ADMIN";
     topic := "Lunch"; options := ["Kebap"; "Pizza"]; end_time := 63900000000;
     is_active := 1 |}.

Definition lunch_world : world :=
  {| database := {| polls := [lunch_poll]; votes := []; last_poll_id := 1 |};
     _global_scheduler := Some [];
     sent := [] |}.

(** The same poll with the given votes stored. *)
Definition lunch_world_with (vs : list vote_row) : world :=
  {| database := {| polls := [lunch_poll]; votes := vs; last_poll_id := 1 |};
     _global_scheduler := Some [];
     sent := [] |}.

(** A bot that has just started: empty tables, scheduler running. *)
Definition fresh_world : world :=
  {| database := empty_db; _global_scheduler := Some []; sent := [] |}.

(** An admin's /oylama with the given text, at some moment of 2025. *)
Definition admin_command (text : string) : poll_command :=
  {| pc_user_id := "ADMIN"; pc_channel_id := "C1"; pc_text := text;
     pc_is_admin := true; pc_post := Some "1700.01";
     pc_now := 63900000000 * SECOND; pc_now_sched := 63900000000 * SECOND + 1500;
     pc_add_job_ok := true |}.

(** A coffee service with one running match and a configured admin
    channel. *)
Definition running_match : MatchService.match_row :=
  {| MatchService.match_id := "M1"; MatchService.channel_id := "D1";
     MatchService.user1_id := "U2"; MatchService.user2_id := "U1";
     MatchService.status := "active"; MatchService.summary := None |}.

Definition coffee_service : MatchService.service :=
  {| MatchService.waiting_pool := [];
     MatchService.last_request_time := ∅;
     MatchService.pool_timeout_jobs := ∅;
     MatchService.admin_channel := Some "ADMINCH";
     MatchService.cron := ∅;
     MatchService.match_repo := [running_match];
     MatchService.outbox := [] |}.

(** Collaborators that all answer; nobody wrote in the conversation. *)
Definition quiet_close : MatchService.close_env :=
  {| MatchService.get_history_r := Some [];
     MatchService.summary_r := Some "ozet";
     MatchService.update_ok := true;
     MatchService.post_admin_ok := true;
     MatchService.post_closing_ok := true;
     MatchService.close_conversation_ok := true |}.

(** Collaborators that all answer during a request. *)
Definition all_ok : MatchService.match_env :=
  {| MatchService.remove_job_ok := true;
     MatchService.add_once_job_ok := true;
     MatchService.open_conversation_r := Some "D1";
     MatchService.create_r := Some "M1";
     MatchService.quick_ask_r := Some "selam";
     MatchService.post_message_ok := true |}.

(** The conversation cannot be opened. *)
Definition open_fails : MatchService.match_env :=
  {| MatchService.remove_job_ok := true;
     MatchService.add_once_job_ok := true;
     MatchService.open_conversation_r := None;
     MatchService.create_r := Some "M1";
     MatchService.quick_ask_r := Some "selam";
     MatchService.post_message_ok := true |}.

(** The direct message of a timeout goes out. *)
Definition dm_ok : MatchService.timeout_env :=
  {| MatchService.dm_open_r := Some "DM1"; MatchService.dm_post_ok := true |}.

End Sample.

(** ** database.py: the users table and the remaining poll queries

    The users table is a part of the sqlite file that no poll or vote
    function reads or writes; it is kept as a state of its own. *)

Module DatabaseUsers.
Import Database.

(** A row of [users]: id INTEGER PRIMARY KEY AUTOINCREMENT, slack_id TEXT
    UNIQUE NOT NULL; the other columns may hold NULL ([None]). *)
Record user_row : Type := {
  u_id : Z;
  u_name : option string;
  u_surname : option string;
  u_slack_id : string;
  u_department : option string;
}.

Record users_table : Type := {
  users : list user_row;
  last_user_id : Z;            (* AUTOINCREMENT sequence of users.id *)
}.

Definition empty_users : users_table := {| users := []; last_user_id := 0 |}.

(** INSERT OR REPLACE INTO users (name, surname, slack_id, department):
    the row that conflicts on the UNIQUE slack_id is deleted, the new row
    gets the next id. *)
Definition insert_or_replace_user (t : users_table)
    (name surname : option string) (slack_id : string) (department : option string)
    : users_table :=
  {| users := filter (λ r, u_slack_id r ≠ slack_id) (users t) ++
              [ {| u_id := last_user_id t + 1; u_name := name; u_surname := surname;
                   u_slack_id := slack_id; u_department := department |} ];
     last_user_id := last_user_id t + 1 |}.

(** add_user(slack_id, name=None, surname=None, department=None) *)
Definition add_user (t : users_table) (slack_id : string)
    (name surname department : option string) : users_table :=
  insert_or_replace_user t name surname slack_id department.

(** get_user(slack_id): SELECT name, surname, department ... fetchone *)
Definition get_user (t : users_table) (slack_id : string)
    : option (option string * option string * option string) :=
  match filter (λ r, u_slack_id r = slack_id) (users t) with
  | [] => None
  | r :: _ => Some (u_name r, u_surname r, u_department r)
  end.

(** A row as csv.DictReader yields it: the dictionary of the header's
    columns; a value is [None] when the line is shorter than the header. *)
Definition csv_row : Type := gmap string (option string).

(** The four reads [row['name']], [row['surname']], [row['slack_id']],
    [row['department']] of one turn of the import loop; a missing key is
    KeyError, a NULL slack_id violates NOT NULL (IntegrityError). *)
Definition import_row (t : users_table) (row : csv_row) : option users_table :=
  match row !! "name", row !! "surname", row !! "slack_id", row !! "department" with
  | Some name, Some surname, Some (Some slack_id), Some department =>
      Some (insert_or_replace_user t name surname slack_id department)
  | _, _, _, _ => None
  end.

Fixpoint import_rows (t : users_table) (rows : list csv_row) : option users_table :=
  match rows with
  | [] => Some t
  | row :: rows' =>
      match import_row t row with
      | Some t' => import_rows t' rows'
      | None => None
      end
  end.

(** import_csv_to_db(csv_path).  [file] is [None] when the path does not
    exist, otherwise the rows of the file.  The single commit comes after
    the loop: when a row raises, the function returns False without
    committing and the table keeps its committed content. *)
Definition import_csv_to_db (t : users_table) (file : option (list csv_row))
    : users_table * bool :=
  match file with
  | None => (t, false)
  | Some rows =>
      match import_rows t rows with
      | Some t' => (t', true)
      | None => (t, false)
      end
  end.

(** get_active_polls(): SELECT id, channel_id, message_ts, topic, options,
    end_time FROM polls WHERE is_active = 1 *)
Definition get_active_polls (d : db)
    : list (Z * string * string * string * list string * Z) :=
  map (λ r, (id r, channel_id r, message_ts r, topic r, options r, end_time r))
      (filter (λ r, is_active r = 1) (polls d)).

(** The key of a vote row. *)
Definition vote_key (r : vote_row) : Z * string := (poll_id r, user_id r).

(** What the polls table guarantees by its declaration: ids are unique
    and were all drawn from the AUTOINCREMENT sequence. *)
Definition polls_wf (d : db) : Prop :=
  NoDup (map id (polls d)) ∧ Forall (λ r, id r ≤ last_poll_id d) (polls d).

End DatabaseUsers.

(** ** More sample data *)

Module SampleMore.
Import DatabaseUsers.

(** Two rows of a CSV file for the same slack id. *)
Definition ada_rows : list csv_row :=
  [ {[ "name" := Some "Ada"; "surname" := Some "Lovelace";
       "slack_id" := Some "U1"; "department" := Some "Math" ]};
    {[ "name" := Some "Ada"; "surname" := Some "Byron";
       "slack_id" := Some "U1"; "department" := Some "Engines" ]} ].

End SampleMore.

(** ** Runs of the monolithic bot (bot.py, scheduler.py) *)

Module BotRuns.
Import Database Scheduler Bot DatabaseUsers.

(** What can happen to the poll tables: an /oylama command, a click on a
    vote button, a run of the closure job. *)
Inductive bot_event : Type :=
| ev_poll_command (c : poll_command)
| ev_vote_action (a : vote_action)
| ev_close_poll_task (message_ts : string) (delete_ok post_ok : bool).

Definition bot_step (w : world) (e : bot_event) : world :=
  match e with
  | ev_poll_command c => handle_poll_command w c
  | ev_vote_action a => (handle_vote_action w a).1
  | ev_close_poll_task ts delete_ok post_ok => close_poll_task w ts delete_ok post_ok
  end.

(** All worlds a sequence of events goes through, the first included. *)
Fixpoint bot_states (w : world) (es : list bot_event) : list world :=
  match es with
  | [] => [w]
  | e :: es' => w :: bot_states (bot_step w e) es'
  end.

(** The constraints the schema declares: the primary key of votes, the
    primary key of polls with its sequence, and the foreign key from votes
    to polls. *)
Definition db_wf (d : db) : Prop :=
  NoDup (map vote_key (votes d)) ∧
  polls_wf d ∧
  Forall (λ v, poll_id v ∈ map id (polls d)) (votes d).

(** A world whose tables are empty. *)
Definition started (sched : option (list job)) : world :=
  {| database := empty_db; _global_scheduler := sched; sent := [] |}.

(** The poll [p] is stored inactive and its votes are [vs], in tables
    that keep the schema. *)
Definition frozen (p : Z) (vs : list vote_row) (w : world) : Prop :=
  db_wf (database w) ∧
  (∃ r, r ∈ polls (database w) ∧ id r = p ∧ is_active r = 0) ∧
  filter (λ v, poll_id v = p) (votes (database w)) = vs.

(** The lunch poll of [Sample] with one vote, after its closure ran. *)
Definition closed_lunch_world : world :=
  close_poll_task (Sample.lunch_world_with [vote 1 "A" 0]) "1700.01" true true.

End BotRuns.

(** ** Reading a result message *)

Module ResultReading.

(** The sum of the counts a result message shows. *)
Definition total_shown (lines : list (string * Z)) : Z :=
  foldr (λ l acc, l.2 + acc) 0 lines.

End ResultReading.

(** ** bot.py: names, registration and the coffee invitation *)

Module BotUsers.
Import DatabaseUsers.

(** [s.split(maxsplit=n)]: leading whitespace is skipped, at most [n]
    words are cut off, and what is left (leading whitespace skipped,
    trailing whitespace kept) is the last part when it is not empty. *)
Fixpoint split_maxsplit (n : nat) (s : string) : list string :=
  match PyStr.lstrip s with
  | EmptyString => []
  | s1 =>
      match n with
      | O => [s1]
      | S n' => let '(w, r) := PyStr.span_word s1 in w :: split_maxsplit n' r
      end
  end.

(** No character of [s] is whitespace. *)
Fixpoint no_space (s : string) : bool :=
  match s with
  | EmptyString => true
  | String c s' => negb (PyStr.is_space c) && no_space s'
  end.

(** [s.split()]: no limit on the number of splits. *)
Definition split_words (s : string) : list string :=
  split_maxsplit (String.length s) s.

(** [f"{x}"] for a value that may be [None]. *)
Definition fmt (o : option string) : string := default "None" o.

(** Python truthiness of a string that may be [None]. *)
Definition truthy (o : option string) : bool :=
  match o with
  | Some s => negb (bool_decide (s = EmptyString))
  | None => false
  end.

(** [a or b] on such values. *)
Definition py_or (a b : option string) : option string :=
  if truthy a then a else b.

(** The answer of client.users_info as far as the bot reads it. *)
Record users_info : Type := {
  ok : bool;                       (* response["ok"] *)
  real_name : option string;       (* user.get("real_name") *)
  name : option string;            (* user.get("name") *)
  is_admin_flag : bool;            (* user.get("is_admin", False) *)
  is_owner_flag : bool;            (* user.get("is_owner", False) *)
}.

(** get_display_name(user_id, client): the name (which can be [None] when
    Slack knows neither field) and the department.  [info] is what
    users_info would answer, [None] when it raises; it is consulted only
    when the database has no row. *)
Definition get_display_name (t : users_table) (info : option users_info)
    (user_id : string) : option string * option string :=
  match get_user t user_id with
  | Some (n, s, d) => (Some (fmt n +:+ " " +:+ fmt s), d)
  | None =>
      match info with
      | Some response =>
          if ok response
          then (py_or (real_name response) (name response), None)
          else (Some "Topluluk Üyemiz", None)
      | None => (Some "Topluluk Üyemiz", None)
      end
  end.

(** is_admin(user_id, client) *)
Definition is_admin (info : option users_info) : bool :=
  match info with
  | Some response =>
      if ok response then is_admin_flag response || is_owner_flag response else false
  | None => false
  end.

(** The texts of these handlers. *)
Inductive utext : Type :=
| TxtOwnInvitation               (* "Bu davete şimdilik sadece topluluk üyelerimiz katılabilir. ..." *)
| TxtMet (u1_name u2_name : option string)
                                 (* "*{u1_name}* ve *{u2_name}* kahve molasında buluştu! ..." *)
| TxtIceBreaker (user1_id user2_id question : string)
                                 (* "Selamlar <@{user1_id}> ve <@{user2_id}>! ... > *{ice_breaker}*" *)
| TxtMatchFailed                 (* "Eşleşme sırasında bir teknik hata oluştu." *)
| TxtSaveUsage                   (* "Lütfen bilgileri şu formatta girin: /save-me [Ad] [Soyad] [Departman] ..." *)
| TxtSaved (name surname department : string)
                                 (* "Harika! Bilgilerin topluluk veritabanına kaydedildi. ..." *)
| TxtDepartment (first department : string)
                                 (* "Merhaba {first}, kayıtlı departmanın: *{department}*" *)
| TxtNoDepartment (first : string)
                                 (* "Merhaba {first}, veritabanında sana ait bir departman kaydı bulamadım. ..." *)
| TxtDepartmentFailed.           (* "Departman bilgisi sorgulanırken bir hata oluştu." *)

Inductive ucall : Type :=
| u_postEphemeral (channel user : string) (t : utext)
| u_update (channel ts : string) (t : utext)
| u_conversations_open (users : list string) (channel : string)
| u_postMessage (channel : string) (t : utext).

(** A click on "Birlikte İçelim!". *)
Record join_click : Type := {
  jc_user2_id : string;            (* body["user"]["id"], who clicked *)
  jc_user1_id : string;            (* body["actions"][0]["value"], who invited *)
  jc_channel_id : string;
  jc_message_ts : string;
  jc_info1 : option users_info;    (* users_info(user1_id) *)
  jc_info2 : option users_info;    (* users_info(user2_id) *)
  jc_update_ok : bool;             (* chat_update returns *)
  jc_open : option string;         (* conv["channel"]["id"], None if it raises *)
  jc_choice : option string;       (* random.choice(ICE_BREAKER_QUESTIONS), None if it raises *)
  jc_post_ok : bool;               (* chat_postMessage returns *)
}.

(** handle_join_coffee: the calls made on the Slack client, in order. *)
Definition handle_join_coffee (t : users_table) (c : join_click) : list ucall :=
  let user2_id := jc_user2_id c in
  let user1_id := jc_user1_id c in
  let channel_id := jc_channel_id c in
  if decide (user1_id = user2_id) then
    [u_postEphemeral channel_id user2_id TxtOwnInvitation]
  else
    let failed := [u_postEphemeral channel_id user2_id TxtMatchFailed] in
    let u1_name := (get_display_name t (jc_info1 c) user1_id).1 in
    let u2_name := (get_display_name t (jc_info2 c) user2_id).1 in
    if jc_update_ok c then
      let updated := [u_update channel_id (jc_message_ts c) (TxtMet u1_name u2_name)] in
      match jc_open c with
      | Some dm_channel =>
          let opened := updated ++ [u_conversations_open [user1_id; user2_id] dm_channel] in
          match jc_choice c with
          | Some ice_breaker =>
              if jc_post_ok c
              then opened ++ [u_postMessage dm_channel
                                (TxtIceBreaker user1_id user2_id ice_breaker)]
              else opened ++ failed
          | None => opened ++ failed
          end
      | None => updated ++ failed
      end
    else failed.

(** handle_register_user (/save-me): the table and the calls made. *)
Definition handle_register_user (t : users_table) (user_id channel_id body_text : string)
    : users_table * list ucall :=
  let text := PyStr.strip body_text in
  match split_maxsplit 2 text with
  | [name; surname; department] =>
      (add_user t user_id (Some name) (Some surname) (Some department),
       [u_postEphemeral channel_id user_id (TxtSaved name surname department)])
  | _ => (t, [u_postEphemeral channel_id user_id TxtSaveUsage])
  end.

(** [user_name.split()[0]]; [None] stands for the exception raised when
    the name is [None] or has no word. *)
Definition first_word (user_name : option string) : option string :=
  match user_name with
  | Some s => head (split_words s)
  | None => None
  end.

(** handle_my_department (/my-department): the calls made. *)
Definition handle_my_department (t : users_table) (info : option users_info)
    (user_id channel_id : string) : list ucall :=
  let '(user_name, dept_name) := get_display_name t info user_id in
  match first_word user_name with
  | Some first =>
      if truthy dept_name
      then [u_postEphemeral channel_id user_id (TxtDepartment first (fmt dept_name))]
      else [u_postEphemeral channel_id user_id (TxtNoDepartment first)]
  | None => [u_postEphemeral channel_id user_id TxtDepartmentFailed]
  end.

End BotUsers.

(** ** src/core/rate_limiter.py: reset, cleanup and whole runs *)

Module RateLimitMore.
Import RateLimit.

(** reset(user_id): [del self.requests[user_id]] when the key is there. *)
Definition reset (rl : RateLimiter) (user_id : string) : RateLimiter :=
  {| max_requests := max_requests rl; window_seconds := window_seconds rl;
     requests := delete user_id (requests rl) |}.

(** [requests and max(requests) < cutoff_time] *)
Definition all_older (cutoff_time : Z) (l : list Z) : Prop :=
  match l with
  | [] => False
  | x :: l' => foldl Z.max x l' < cutoff_time
  end.

#[global] Instance all_older_dec cutoff_time l : Decision (all_older cutoff_time l).
Proof. destruct l; unfold all_older; apply _. Defined.

(** cleanup_old_entries(); [now] is its clock read.  The users whose
    newest request is older than twice the window are deleted. *)
Definition cleanup_old_entries (rl : RateLimiter) (now : Z) : RateLimiter :=
  let cutoff_time := now - window_seconds rl * 2 * SECOND in
  {| max_requests := max_requests rl; window_seconds := window_seconds rl;
     requests := filter (λ kv : string * list Z, ¬ all_older cutoff_time kv.2)
                   (requests rl) |}.

(** A run of is_allowed calls with the full answers. *)
Fixpoint run_full (rl : RateLimiter) (calls : list (string * Z))
    : RateLimiter * list (bool * option limit_text) :=
  match calls with
  | [] => (rl, [])
  | (u, now) :: calls' =>
      let '(rl1, answer) := is_allowed rl u now in
      let '(rl2, answers) := run_full rl1 calls' in
      (rl2, answer :: answers)
  end.

(** The list the limiter holds for a user. *)
Definition held (rl : RateLimiter) (u : string) : list Z :=
  default [] (requests rl !! u).

(** Two limiters that cannot be told apart by calls from [lo] on: the
    same parameters, and for every user the same requests above every
    cutoff such a call can have. *)
Definition same_from (lo : Z) (rl1 rl2 : RateLimiter) : Prop :=
  max_requests rl1 = max_requests rl2 ∧
  window_seconds rl1 = window_seconds rl2 ∧
  ∀ (u : string) (c : Z),
    lo - window_seconds rl1 * SECOND ≤ c →
    filter (λ t, t > c) (held rl1 u) = filter (λ t, t > c) (held rl2 u).

(** No stored request lies after [lo]. *)
Definition none_after (lo : Z) (rl : RateLimiter) : Prop :=
  ∀ (u : string) (t : Z), t ∈ held rl u → t ≤ lo.

End RateLimitMore.

(** ** match_service.py: what the pool, the handles and the cron jobs
    have to do with one another *)

Module MatchServiceMore.
Import MatchService.

(** The cron client answers during the operation. *)
Definition cron_answers (o : op) : Prop :=
  match o with
  | op_request_coffee _ _ e _ _ => add_once_job_ok e = true ∧ remove_job_ok e = true
  | op_timeout_user _ _ => True
  end.

(** Exactly the waiting users have a handle, and it is the id of their
    timeout job. *)
Definition handles_match (s : service) : Prop :=
  ∀ u, pool_timeout_jobs s !! u
       = if decide (u ∈ waiting_pool s) then Some (timeout_job_id u) else None.

(** Every waiting user has their timeout job in the cron client. *)
Definition jobs_scheduled (s : service) : Prop :=
  ∀ u, u ∈ waiting_pool s →
       cron s !! timeout_job_id u
       = Some {| delay_minutes := 5; task := run_timeout_user u |}.

Definition pool_handles_inv (s : service) : Prop :=
  NoDup (waiting_pool s) ∧ handles_match s ∧ jobs_scheduled s.

(** The same collaborators with another answer of the language model. *)
Definition with_summary (e : close_env) (r : option string) : close_env :=
  {| get_history_r := get_history_r e; summary_r := r; update_ok := update_ok e;
     post_admin_ok := post_admin_ok e; post_closing_ok := post_closing_ok e;
     close_conversation_ok := close_conversation_ok e |}.

End MatchServiceMore.

(** ** Sample conversations for close_match *)

Module SampleClose.
Import MatchService.

(** One message written by a user. *)
Definition hello_message : history_msg :=
  {| bot_id := None; type_ := Some "message"; msg_text := Some "merhaba" |}.

(** Somebody wrote, and the language model does not answer. *)
Definition model_down : close_env :=
  {| get_history_r := Some [hello_message];
     summary_r := None;
     update_ok := true;
     post_admin_ok := true;
     post_closing_ok := true;
     close_conversation_ok := true |}.

(** The service of the samples without an admin channel. *)
Definition coffee_service_no_admin : service :=
  {| waiting_pool := [];
     last_request_time := ∅;
     pool_timeout_jobs := ∅;
     admin_channel := None;
     cron := ∅;
     match_repo := [Sample.running_match];
     outbox := [] |}.

End SampleClose.

(** ** src/services/statistics_service.py: the counters of the report

    A repository's [list()] returns the rows of a table as dicts from
    column names to values; it is a collaborator, and whether it returns or
    raises is an input.  Only the value types sqlite hands out and the
    counters compare are modelled (text, integers and NULL). *)

Module Statistics.

Inductive value : Type :=
| VStr (s : string)
| VInt (n : Z)
| VNone.

#[global] Instance value_eq_dec : EqDecision value.
Proof. solve_decision. Defined.

#[global] Instance value_countable : Countable value.
Proof.
  refine (inj_countable'
            (λ v, match v with
                  | VStr s => inl s
                  | VInt n => inr (Some n)
                  | VNone => inr None
                  end)
            (λ x, match x with
                  | inl s => VStr s
                  | inr (Some n) => VInt n
                  | inr None => VNone
                  end) _).
  by intros [].
Defined.

Definition row : Type := gmap string value.

(** [x.get(field, dflt)] *)
Definition get (x : row) (field : string) (dflt : value) : value :=
  default dflt (x !! field).

(** One round of
      [key = x.get(field, dflt)]
      [dist[key] = dist.get(key, 0) + 1] *)
Definition count_step (field : string) (dflt : value)
    (dist : gmap value Z) (x : row) : gmap value Z :=
  let key := get x field dflt in
  <[key := default 0 (dist !! key) + 1]> dist.

(** The loop over all rows, from the empty dict. *)
Definition count_by (field : string) (dflt : value) (rows : list row) : gmap value Z :=
  foldl (count_step field dflt) ∅ rows.

(** [len([x for x in rows if x.get(field) == v])] *)
Definition count_eq (field : string) (v : value) (rows : list row) : Z :=
  Z.of_nat (length (filter (λ x, get x field VNone = v) rows)).

(** [len([x for x in rows if x.get(field, 0) == v])] *)
Definition count_eq0 (field : string) (v : value) (rows : list row) : Z :=
  Z.of_nat (length (filter (λ x, get x field (VInt 0) = v) rows)).

Record user_statistics : Type := {
  us_total : Z;
  cohort_distribution : gmap value Z;
}.

Record match_statistics : Type := {
  ms_total : Z;
  ms_active : Z;
  ms_closed : Z;
}.

Record help_statistics : Type := {
  hs_total : Z;
  hs_open : Z;
  hs_in_progress : Z;
  hs_resolved : Z;
  hs_closed : Z;
}.

Record feedback_statistics : Type := {
  fs_total : Z;
  category_distribution : gmap value Z;
}.

Record poll_statistics : Type := {
  ps_total : Z;
  ps_open : Z;
  ps_closed : Z;
  ps_total_votes : Z;
}.

(** The default cohort, "Belirtilmemiş". *)
Definition UNSPECIFIED : value := VStr "Belirtilmemiş".

(** _get_user_statistics(); [None] stands for a raising user_repo.list(). *)
Definition _get_user_statistics (list_r : option (list row)) : user_statistics :=
  match list_r with
  | Some all_users =>
      {| us_total := Z.of_nat (length all_users);
         cohort_distribution := count_by "cohort" UNSPECIFIED all_users |}
  | None => {| us_total := 0; cohort_distribution := ∅ |}
  end.

(** _get_match_statistics() *)
Definition _get_match_statistics (list_r : option (list row)) : match_statistics :=
  match list_r with
  | Some all_matches =>
      {| ms_total := Z.of_nat (length all_matches);
         ms_active := count_eq "status" (VStr "active") all_matches;
         ms_closed := count_eq "status" (VStr "closed") all_matches |}
  | None => {| ms_total := 0; ms_active := 0; ms_closed := 0 |}
  end.

(** _get_help_statistics() *)
Definition _get_help_statistics (list_r : option (list row)) : help_statistics :=
  match list_r with
  | Some all_help =>
      {| hs_total := Z.of_nat (length all_help);
         hs_open := count_eq "status" (VStr "open") all_help;
         hs_in_progress := count_eq "status" (VStr "in_progress") all_help;
         hs_resolved := count_eq "status" (VStr "resolved") all_help;
         hs_closed := count_eq "status" (VStr "closed") all_help |}
  | None => {| hs_total := 0; hs_open := 0; hs_in_progress := 0;
               hs_resolved := 0; hs_closed := 0 |}
  end.

(** _get_feedback_statistics() *)
Definition _get_feedback_statistics (list_r : option (list row)) : feedback_statistics :=
  match list_r with
  | Some all_feedbacks =>
      {| fs_total := Z.of_nat (length all_feedbacks);
         category_distribution := count_by "category" (VStr "general") all_feedbacks |}
  | None => {| fs_total := 0; category_distribution := ∅ |}
  end.

(** _get_poll_statistics(): poll_repo.list() is called first, vote_repo.list()
    after the poll counters; either one raising gives the zero record. *)
Definition _get_poll_statistics (polls_r votes_r : option (list row)) : poll_statistics :=
  match polls_r with
  | Some all_polls =>
      match votes_r with
      | Some all_votes =>
          {| ps_total := Z.of_nat (length all_polls);
             ps_open := count_eq0 "is_closed" (VInt 0) all_polls;
             ps_closed := count_eq0 "is_closed" (VInt 1) all_polls;
             ps_total_votes := Z.of_nat (length all_votes) |}
      | None => {| ps_total := 0; ps_open := 0; ps_closed := 0; ps_total_votes := 0 |}
      end
  | None => {| ps_total := 0; ps_open := 0; ps_closed := 0; ps_total_votes := 0 |}
  end.

(** The sum of the counts of a distribution. *)
Definition sum_values (dist : gmap value Z) : Z :=
  map_fold (λ _ n acc, n + acc) 0 dist.

(** The number of rows filed under [key]. *)
Definition rows_under (field : string) (dflt key : value) (rows : list row) : Z :=
  Z.of_nat (length (filter (λ x, get x field dflt = key) rows)).

End Statistics.

(** ** src/repositories/user_challenge_stats_repository.py

    The table user_challenge_stats has the user id as its key.  Each
    method opens its own connection; a statement that raises is caught and
    logged by the method, and the connection's context manager rolls the
    open transaction back. *)

Module ChallengeStats.

Record stats : Type := {
  total_challenges : Z;
  completed_challenges : Z;
  total_points : Z;
}.

Inductive column : Type :=
| TotalChallenges
| CompletedChallenges
| TotalPoints.

(** The dict returned for a new user and on errors. *)
Definition zero_stats : stats :=
  {| total_challenges := 0; completed_challenges := 0; total_points := 0 |}.

(** How the statements of one call fare: the SELECT (with the connection),
    and the INSERT with its commit. *)
Record read_env : Type := {
  select_ok : bool;
  insert_ok : bool;
}.

(** get_or_create(user_id).  The row read back after the INSERT holds the
    three zeros, as does the dict returned when that read fails. *)
Definition get_or_create (t : gmap string stats) (e : read_env) (user_id : string)
    : gmap string stats * stats :=
  if select_ok e then
    match t !! user_id with
    | Some row => (t, row)
    | None =>
        if insert_ok e then (<[user_id := zero_stats]> t, zero_stats)
        else (t, zero_stats)
    end
  else (t, zero_stats).

Definition set_column (row : stats) (f : column * Z) : stats :=
  match f.1 with
  | TotalChallenges =>
      {| total_challenges := f.2; completed_challenges := completed_challenges row;
         total_points := total_points row |}
  | CompletedChallenges =>
      {| total_challenges := total_challenges row; completed_challenges := f.2;
         total_points := total_points row |}
  | TotalPoints =>
      {| total_challenges := total_challenges row;
         completed_challenges := completed_challenges row; total_points := f.2 |}
  end.

(** _update_fields(user_id, fields): UPDATE ... SET ... WHERE user_id = ?;
    [update_ok] is [false] when the connection, the statement or the commit
    raises. *)
Definition _update_fields (t : gmap string stats) (update_ok : bool) (user_id : string)
    (fields : list (column * Z)) : gmap string stats :=
  match fields with
  | [] => t
  | _ :: _ =>
      if update_ok then
        match t !! user_id with
        | Some row => <[user_id := foldl set_column row fields]> t
        | None => t
        end
      else t
  end.

(** add_points(user_id, points) *)
Definition add_points (t : gmap string stats) (e : read_env) (update_ok : bool)
    (user_id : string) (points : Z) : gmap string stats :=
  let '(t, stats) := get_or_create t e user_id in
  let new_total := total_points stats + points in
  _update_fields t update_ok user_id [(TotalPoints, new_total)].

(** increment_total(user_id) *)
Definition increment_total (t : gmap string stats) (e : read_env) (update_ok : bool)
    (user_id : string) : gmap string stats :=
  let '(t, stats) := get_or_create t e user_id in
  let new_count := total_challenges stats + 1 in
  _update_fields t update_ok user_id [(TotalChallenges, new_count)].

(** increment_completed(user_id) *)
Definition increment_completed (t : gmap string stats) (e : read_env) (update_ok : bool)
    (user_id : string) : gmap string stats :=
  let '(t, stats) := get_or_create t e user_id in
  let new_count := completed_challenges stats + 1 in
  _update_fields t update_ok user_id [(CompletedChallenges, new_count)].

(** *** Runs of the repository *)

Inductive method : Type :=
| AddPoints (points : Z)
| IncrementTotal
| IncrementCompleted.

Record op : Type := {
  op_user : string;
  op_method : method;
  op_read : read_env;
  op_update_ok : bool;
}.

Definition step (t : gmap string stats) (o : op) : gmap string stats :=
  match op_method o with
  | AddPoints p => add_points t (op_read o) (op_update_ok o) (op_user o) p
  | IncrementTotal => increment_total t (op_read o) (op_update_ok o) (op_user o)
  | IncrementCompleted => increment_completed t (op_read o) (op_update_ok o) (op_user o)
  end.

Definition run (t : gmap string stats) (ops : list op) : gmap string stats := foldl step t ops.

(** Every statement of the call goes through. *)
Definition succeeds (o : op) : Prop :=
  select_ok (op_read o) = true ∧ insert_ok (op_read o) = true ∧ op_update_ok o = true.

(** What the calls for [u] ask for, counter by counter. *)
Definition asked (u : string) (o : op) : stats :=
  if decide (op_user o = u) then
    match op_method o with
    | AddPoints p =>
        {| total_challenges := 0; completed_challenges := 0; total_points := p |}
    | IncrementTotal =>
        {| total_challenges := 1; completed_challenges := 0; total_points := 0 |}
    | IncrementCompleted =>
        {| total_challenges := 0; completed_challenges := 1; total_points := 0 |}
    end
  else zero_stats.

Definition plus (a b : stats) : stats :=
  {| total_challenges := total_challenges a + total_challenges b;
     completed_challenges := completed_challenges a + completed_challenges b;
     total_points := total_points a + total_points b |}.

Definition all_ok : read_env := {| select_ok := true; insert_ok := true |}.
Definition select_fails : read_env := {| select_ok := false; insert_ok := true |}.

Definition call (u : string) (m : method) : op :=
  {| op_user := u; op_method := m; op_read := all_ok; op_update_ok := true |}.

End ChallengeStats.

(** ** src/handlers/poll_handler.py: handle_poll_vote *)

Module PollVote.

Inductive text : Type :=
| TxtResult (message : string)  (* result["message"] *)
| TxtVoteFailed.                (* "Oy verilirken bir hata oluştu. Lütfen tekrar deneyin." *)

Inductive call : Type :=
| post_ephemeral (channel user : string) (t : text).

(** The dict cast_vote returns; [message] is [None] when the key is
    missing. *)
Record vote_result : Type := {
  success : bool;
  message : option string;
}.

Section Handler.

(** [W] is the state behind the voting service. *)
Context {W : Type}.

(** voting_service.cast_vote(poll_id, user_id, option_index): the state
    it leaves and its result, [None] when it raises. *)
Variable cast_vote : W → string → string → Z → W * option vote_result.

Record handler_state : Type := {
  world : W;
  posted : list call;
}.

(** handle_poll_vote for the body fields user id, value and channel id.
    The user's name is looked up for the log lines only. *)
Definition handle_poll_vote (h : handler_state) (user_id value channel_id : string)
    : handler_state :=
  let parts := PyStr.split "_" value in
  if decide (length parts ≠ 3%nat) then h
  else
    match parts !! 1%nat, parts !! 2%nat with
    | Some poll_id, Some p2 =>
        match PyStr.int p2 with
        | None => h
        | Some option_index =>
            match cast_vote (world h) poll_id user_id option_index with
            | (w', Some result) =>
                match message result with
                | Some m =>
                    {| world := w';
                       posted := posted h ++ [post_ephemeral channel_id user_id (TxtResult m)] |}
                | None =>
                    {| world := w';
                       posted := posted h ++ [post_ephemeral channel_id user_id TxtVoteFailed] |}
                end
            | (w', None) =>
                {| world := w';
                   posted := posted h ++ [post_ephemeral channel_id user_id TxtVoteFailed] |}
            end
        end
    | _, _ => h
    end.

End Handler.

(** The number of underscores of a string. *)
Fixpoint underscores (s : string) : nat :=
  match s with
  | EmptyString => 0
  | String c s' => (if decide (c = "_"%char) then 1 else 0) + underscores s'
  end.

End PollVote.

(** * Properties *)

(** ** Votes (bot.py handle_vote_action, database.py add_vote) *)

Section Votes.
Import Database Scheduler Bot.

Lemma filter_nil_iff_not_voted d p u :
  has_user_voted d p u = false ↔ filter (same_key p u) (votes d) = [].
Proof.
  unfold has_user_voted. destruct (filter _ _); split; congruence.
Qed.

Lemma filter_other_keys_id (l : list vote_row) p u :
  filter (same_key p u) l = [] → filter (λ r, ¬ same_key p u r) l = l.
Proof.
  induction l as [|r l IH]; [done|].
  rewrite !filter_cons. destruct (decide (same_key p u r)) as [Hk|Hk].
  - discriminate.
  - intros H. rewrite decide_True by done. by rewrite IH.
Qed.

Lemma filter_own_key_after_delete (l : list vote_row) p u :
  filter (same_key p u) (filter (λ r, ¬ same_key p u r) l) = [].
Proof.
  induction l as [|r l IH]; [done|].
  rewrite filter_cons. destruct (decide (¬ same_key p u r)) as [Hk|Hk]; [|done].
  rewrite filter_cons. by rewrite decide_False.
Qed.

(** After add_vote exactly one row carries the key, the one written. *)
Lemma add_vote_single_row d p u i :
  filter (same_key p u) (votes (add_vote d p u i).1) = [vote p u i].
Proof.
  simpl. rewrite filter_app, filter_own_key_after_delete. simpl.
  rewrite filter_cons, decide_True by done. done.
Qed.

Lemma add_vote_keeps_polls d p u i : polls (add_vote d p u i).1 = polls d.
Proof. done. Qed.

Lemma get_poll_by_ts_add_vote d p u i ts :
  get_poll_by_ts (add_vote d p u i).1 ts = get_poll_by_ts d ts.
Proof. done. Qed.

(** What handle_vote_action does on an open poll, by whether the user
    already has a row. *)
Lemma handle_vote_action_open w a p tp opts act chan :
  get_poll_by_ts (database w) (va_message_ts a) = Some (p, tp, opts, act, chan) →
  act ≠ 0 →
  handle_vote_action w a =
    if has_user_voted (database w) p (va_user_id a) then
      (send w (chat_postEphemeral (va_channel a) (va_user_id a) TxtAlreadyVoted), Ok ())
    else
      let w1 := with_db w (add_vote (database w) p (va_user_id a) (va_option_index a)).1 in
      match py_index opts (va_option_index a) with
      | Ok label =>
          (send w1 (chat_postEphemeral (va_channel a) (va_user_id a) (TxtVoteSaved label)),
           Ok ())
      | Raise e => (w1, Raise e)
      end.
Proof.
  intros Hp Hact. unfold handle_vote_action. rewrite Hp.
  rewrite decide_False by done.
  destruct (has_user_voted _ _ _); done.
Qed.

Lemma py_index_in_range {A} (l : list A) i :
  0 ≤ i < Z.of_nat (length l) → ∃ x, py_index l i = Ok x.
Proof.
  intros Hi. unfold py_index.
  rewrite (decide_False (P := i < 0)) by lia.
  rewrite decide_True by lia.
  destruct (lookup_lt_is_Some_2 l (Z.to_nat i)) as [x Hx]; [lia|].
  rewrite Hx. eauto.
Qed.

Lemma py_index_out_of_range {A} (l : list A) i :
  i < - Z.of_nat (length l) ∨ Z.of_nat (length l) ≤ i →
  py_index l i = Raise IndexError.
Proof.
  intros Hi. unfold py_index.
  destruct (decide (i < 0)); rewrite decide_False; done || lia.
Qed.

End Votes.

Section VoteClaims.
Import Database Scheduler Bot.

(** C1, as stated, fails: on the open poll of [Sample.lunch_world] user
    "U1" clicks option 0 and then option 1.  If the second click replaced
    the first, the one stored row would carry option 1; the handler
    rejects the second click instead, and the stored row keeps option 0. *)
Lemma vote_replace_counterexample :
  ¬ (∀ (w : world) (ts u ch : string) (i j : Z) p tp opts act chan,
       get_poll_by_ts (database w) ts = Some (p, tp, opts, act, chan) →
       act ≠ 0 →
       0 ≤ i < Z.of_nat (length opts) →
       0 ≤ j < Z.of_nat (length opts) →
       let w1 := (handle_vote_action w (click u ts ch i)).1 in
       let w2 := (handle_vote_action w1 (click u ts ch j)).1 in
       filter (same_key p u) (votes (database w2)) = [vote p u j]).
Proof.
  intros H.
  specialize (H Sample.lunch_world "1700.01" "U1" "C1" 0 1
                1 "Lunch" ["Kebap"; "Pizza"] 1 "C1").
  simpl in H. specialize (H eq_refl).
  assert (Hv : [vote 1 "U1" 0] = [vote 1 "U1" 1]).
  { apply H; simpl; lia. }
  discriminate Hv.
Qed.

(** C1, amended.  For an open poll and a user without a stored vote, the
    first click stores the vote, and a second click by the same user is
    rejected with the "already voted" notice and changes nothing in the
    database: exactly one row remains for the user on this poll, and it
    carries the first choice.  The upsert lives in add_vote alone: two
    add_vote calls with the same key leave exactly one row, which carries
    the second choice. *)
Theorem vote_first_choice_kept (w : world) (ts u ch : string) (i j : Z)
    p tp opts act chan
    (Hpoll : get_poll_by_ts (database w) ts = Some (p, tp, opts, act, chan))
    (Hopen : act ≠ 0)
    (Hfresh : has_user_voted (database w) p u = false)
    (Hi : 0 ≤ i < Z.of_nat (length opts))
    (Hj : 0 ≤ j < Z.of_nat (length opts)) :
  let r1 := handle_vote_action w (click u ts ch i) in
  let r2 := handle_vote_action r1.1 (click u ts ch j) in
  (∃ label, py_index opts i = Ok label ∧
            sent r1.1 = sent w ++ [chat_postEphemeral ch u (TxtVoteSaved label)]) ∧
  r1.2 = Ok () ∧
  database r2.1 = database r1.1 ∧
  sent r2.1 = sent r1.1 ++ [chat_postEphemeral ch u TxtAlreadyVoted] ∧
  r2.2 = Ok () ∧
  filter (same_key p u) (votes (database r2.1)) = [vote p u i] ∧
  (∀ d : db,
     filter (same_key p u) (votes (add_vote (add_vote d p u i).1 p u j).1) = [vote p u j]).
Proof.
  intros r1 r2.
  destruct (py_index_in_range opts i Hi) as [label Hlabel].
  assert (Hr1 : r1 = (send (with_db w (add_vote (database w) p u i).1)
                        (chat_postEphemeral ch u (TxtVoteSaved label)), Ok ())).
  { unfold r1.
    rewrite (handle_vote_action_open w (click u ts ch i) p tp opts act chan Hpoll Hopen).
    simpl. rewrite Hfresh, Hlabel. done. }
  assert (Hvoted : has_user_voted (database r1.1) p u = true).
  { rewrite Hr1. unfold has_user_voted. cbn [fst send with_db database].
    by rewrite add_vote_single_row. }
  assert (Hr2 : r2 = (send r1.1 (chat_postEphemeral ch u TxtAlreadyVoted), Ok ())).
  { unfold r2.
    rewrite (handle_vote_action_open r1.1 (click u ts ch j) p tp opts act chan).
    - simpl. by rewrite Hvoted.
    - rewrite Hr1. exact Hpoll.
    - exact Hopen. }
  split; [exists label; split; [done|by rewrite Hr1]|].
  split; [by rewrite Hr1|].
  split; [by rewrite Hr2|].
  split; [by rewrite Hr2|].
  split; [by rewrite Hr2|].
  split; [|intros d; apply add_vote_single_row].
  rewrite Hr2, Hr1. cbn [fst send with_db database].
  apply add_vote_single_row.
Qed.

Lemma vote_first_choice_kept_witness :
  let r1 := handle_vote_action Sample.lunch_world (click "U1" "1700.01" "C1" 0) in
  let r2 := handle_vote_action r1.1 (click "U1" "1700.01" "C1" 1) in
  filter (same_key 1 "U1") (votes (database r2.1)) = [vote 1 "U1" 0].
Proof.
  refine (proj1 (proj2 (proj2 (proj2 (proj2 (proj2
    (vote_first_choice_kept Sample.lunch_world "1700.01" "U1" "C1" 0 1
       1 "Lunch" ["Kebap"; "Pizza"] 1 "C1" _ _ _ _ _))))))).
  - reflexivity.
  - discriminate.
  - reflexivity.
  - simpl; lia.
  - simpl; lia.
Defined.

(** C4, as stated, fails: on the open two-option poll of
    [Sample.lunch_world] a click carrying option index 7 leaves the votes
    table changed: the row (1, "U1", 7) is stored. *)
Lemma vote_out_of_range_counterexample :
  ¬ (∀ (w : world) (a : vote_action) p tp opts act chan,
       get_poll_by_ts (database w) (va_message_ts a) = Some (p, tp, opts, act, chan) →
       act ≠ 0 →
       ¬ (0 ≤ va_option_index a < Z.of_nat (length opts)) →
       votes (database (handle_vote_action w a).1) = votes (database w)).
Proof.
  intros H.
  specialize (H Sample.lunch_world (click "U1" "1700.01" "C1" 7)
                1 "Lunch" ["Kebap"; "Pizza"] 1 "C1" eq_refl).
  assert (Hv : [vote 1 "U1" 7] = []).
  { apply H; simpl; lia. }
  discriminate Hv.
Qed.

(** C4, amended.  handle_vote_action does not validate the option index
    against the options of the poll.  On an existing open poll, a click by
    a user who already has a row is rejected and leaves the database
    unchanged, whatever the index; a click by a user without a row stores
    the index as it came, inside or outside [0, len(options)), and never
    touches the rows of other keys or the polls table.  The index is one
    sqlite can bind, a signed 64-bit integer. *)
Theorem vote_index_stored_unchecked (w : world) (a : vote_action)
    p tp opts act chan
    (Hpoll : get_poll_by_ts (database w) (va_message_ts a) = Some (p, tp, opts, act, chan))
    (Hopen : act ≠ 0)
    (Hfits : sqlite_int (va_option_index a)) :
  let r := handle_vote_action w a in
  let u := va_user_id a in
  let i := va_option_index a in
  polls (database r.1) = polls (database w) ∧
  (has_user_voted (database w) p u = true → database r.1 = database w ∧ r.2 = Ok ()) ∧
  (has_user_voted (database w) p u = false →
     votes (database r.1) = votes (database w) ++ [vote p u i]).
Proof.
  intros r u i. unfold r.
  rewrite (handle_vote_action_open _ _ _ _ _ _ _ Hpoll Hopen).
  fold u i. destruct (has_user_voted (database w) p u) eqn:Hv.
  - repeat split; try done.
  - assert (Hrows : filter (λ r, ¬ same_key p u r) (votes (database w)) = votes (database w)).
    { apply filter_other_keys_id. by apply filter_nil_iff_not_voted. }
    split; [destruct (py_index opts i); done|].
    split; [done|]. intros _.
    destruct (py_index opts i); simpl; by rewrite Hrows.
Qed.

Lemma vote_index_stored_unchecked_witness :
  votes (database (handle_vote_action Sample.lunch_world
                     (click "U1" "1700.01" "C1" 7)).1) = [vote 1 "U1" 7].
Proof.
  pose proof (vote_index_stored_unchecked Sample.lunch_world
                (click "U1" "1700.01" "C1" 7) 1 "Lunch" ["Kebap"; "Pizza"] 1 "C1"
                eq_refl ltac:(discriminate) ltac:(by apply (bool_decide_unpack _))) as H.
  destruct H as (_ & _ & H). exact (H eq_refl).
Defined.

(** A negative index within Python's range is stored too, and answered
    with the label negative indexing selects. *)
Example vote_negative_index_acknowledged :
  handle_vote_action Sample.lunch_world (click "U1" "1700.01" "C1" (-1))
  = (send (Sample.lunch_world_with [vote 1 "U1" (-1)])
       (chat_postEphemeral "C1" "U1" (TxtVoteSaved "Pizza")), Ok ()).
Proof. reflexivity. Qed.

End VoteClaims.

(** ** Creating a poll (bot.py handle_poll_command) *)

Section PollCommand.
Import Database Scheduler Bot.

Lemma parse_params_at_least_two text minutes tp opts :
  parse_params text = Ok (minutes, tp, opts) → (2 ≤ length opts)%nat.
Proof.
  unfold parse_params.
  destruct (PyStr.split_maxsplit1 text) as [|m [|rest [|? ?]]]; try discriminate.
  destruct (PyStr.int m); [|discriminate].
  destruct (decide _) as [Hlt|Hge]; [discriminate|].
  intros [= _ _ <-]. rewrite length_map.
  destruct (PyStr.split "|" rest) as [|f fs]; simpl in *; lia.
Qed.

Lemma parse_params_too_few text m rest :
  PyStr.split_maxsplit1 text = [m; rest] →
  (length (PyStr.split "|" rest) - 1 < 2)%nat →
  parse_params text = Raise ValueError.
Proof.
  intros Hs Hlen. unfold parse_params. rewrite Hs.
  destruct (PyStr.int m); [|done].
  rewrite decide_True by lia. done.
Qed.

(** C3, as stated, fails: an admin's "/oylama 5 T|a|b|c|d|e|f|g|h|i|j|k"
    carries eleven options and five minutes, and the handler persists the
    poll and schedules its closure. *)
Lemma poll_bounds_counterexample :
  ¬ (∀ (w : world) (c : poll_command) minutes tp opts,
       parse_params (PyStr.strip (pc_text c)) = Ok (minutes, tp, opts) →
       ¬ (2 ≤ length opts ≤ 10)%nat ∨ ¬ (1 ≤ minutes ≤ 1440) →
       polls (database (handle_poll_command w c)) = polls (database w) ∧
       _global_scheduler (handle_poll_command w c) = _global_scheduler w).
Proof.
  intros H.
  destruct (H Sample.fresh_world (Sample.admin_command "5 T|a|b|c|d|e|f|g|h|i|j|k")
              5 "T" ["a";"b";"c";"d";"e";"f";"g";"h";"i";"j";"k"]) as [Hp _].
  - vm_compute. reflexivity.
  - left. simpl. lia.
  - vm_compute in Hp. discriminate Hp.
Qed.

(** The same for the durations: zero minutes and 1441 minutes are
    accepted, the poll row is written and the closure job is added. *)
Example poll_duration_not_bounded :
  let w0 := handle_poll_command Sample.fresh_world (Sample.admin_command "0 T | A | B") in
  let w1 := handle_poll_command Sample.fresh_world (Sample.admin_command "1441 T | A | B") in
  (map options (polls (database w0)) = [["A"; "B"]] ∧
   map job_id <$> _global_scheduler w0 = Some ["close_1700.01"]) ∧
  (map options (polls (database w1)) = [["A"; "B"]] ∧
   map job_id <$> _global_scheduler w1 = Some ["close_1700.01"]).
Proof. vm_compute. repeat split. Qed.

(** A single option is refused with the format notice. *)
Example poll_one_option_refused :
  handle_poll_command Sample.fresh_world (Sample.admin_command "10 T | A")
  = send Sample.fresh_world (chat_postEphemeral "C1" "ADMIN" TxtBadFormat).
Proof. vm_compute. reflexivity. Qed.

(** C3, amended.  The handler enforces one bound only, the lower bound on
    the option count.  The command text is one the string model reads as
    Python does ([plain_text]: ASCII whitespace, an ASCII duration field).
    A text with fewer than two options after the topic does not parse; a
    request that does not parse persists nothing and schedules nothing, and
    is answered by one notice (the admin refusal or the general format
    notice, which names no bound).  A request that parses has at least two
    options, and when it comes from an admin, the poll message was posted
    and the end time is representable, its row is written whatever the
    number of options and whatever the duration, and the closure is handed
    to schedule_poll_close: the world is the one schedule_poll_close
    returns, or, when it raises (the run date is not representable, or
    add_job refuses the job id), the stored row stays and the failure
    notice is sent. *)
Theorem poll_command_lower_bound_only (w : world) (c : poll_command)
    (Hplain : plain_text (pc_text c) = true) :
  let text := PyStr.strip (pc_text c) in
  let u := pc_user_id c in
  let ch := pc_channel_id c in
  let w' := handle_poll_command w c in
  (pc_is_admin c = false → w' = send w (chat_postEphemeral ch u TxtAdminOnly)) ∧
  (∀ m rest, PyStr.split_maxsplit1 text = [m; rest] →
     (length (PyStr.split "|" rest) - 1 < 2)%nat →
     parse_params text = Raise ValueError) ∧
  (∀ e, parse_params text = Raise e →
     database w' = database w ∧
     _global_scheduler w' = _global_scheduler w ∧
     sent w' = sent w ++ [chat_postEphemeral ch u
                            (if pc_is_admin c then TxtBadFormat else TxtAdminOnly)]) ∧
  (∀ minutes tp opts, parse_params text = Ok (minutes, tp, opts) →
     (2 ≤ length opts)%nat ∧
     (∀ ts end_time,
        pc_is_admin c = true →
        pc_post c = Some ts →
        poll_end_time (pc_now c) minutes = Ok end_time →
        let posted := send w (chat_postPoll ch tp minutes u
                                (imap (λ i opt, (opt, Z.of_nat i)) opts)) in
        let stored := with_db posted
                        (create_poll (database w) ch ts u tp opts end_time).1 in
        database w' = database stored ∧
        w' = match schedule_poll_close stored ts minutes (pc_now_sched c)
                     (pc_add_job_ok c) with
             | Ok w2 => w2
             | Raise _ => send stored (chat_postEphemeral ch u TxtPollFailed)
             end)).
Proof.
  intros text u ch w'. split; [|split; [|split]].
  - intros Hadmin. unfold w', handle_poll_command. by rewrite Hadmin.
  - intros m rest. apply parse_params_too_few.
  - intros e He. unfold w', handle_poll_command. fold text u ch.
    destruct (pc_is_admin c); simpl; [rewrite He|]; done.
  - intros minutes tp opts Hparse. split; [by eapply parse_params_at_least_two|].
    intros ts end_time Hadmin Hpost Hend posted stored.
    unfold w', handle_poll_command. fold text u ch.
    rewrite Hadmin, Hparse, Hpost. cbn [negb].
    change (database (send w _)) with (database w).
    rewrite Hend. fold posted. fold stored.
    destruct (schedule_poll_close stored ts minutes (pc_now_sched c) (pc_add_job_ok c))
      as [w2|e] eqn:Hs; [|done].
    split; [|done].
    unfold schedule_poll_close in Hs.
    destruct (_global_scheduler stored); [|by inversion Hs].
    destruct (timedelta_minutes minutes); [|done].
    destruct (datetime_add _ _); [|done].
    destruct (pc_add_job_ok c); [|done].
    by inversion Hs.
Qed.

Lemma poll_command_lower_bound_only_witness :
  (2 ≤ length ["a";"b";"c";"d";"e";"f";"g";"h";"i";"j";"k"])%nat ∧
  map options (polls (database
    (handle_poll_command Sample.fresh_world
       (Sample.admin_command "5 T|a|b|c|d|e|f|g|h|i|j|k"))))
  = [["a";"b";"c";"d";"e";"f";"g";"h";"i";"j";"k"]].
Proof.
  pose proof (poll_command_lower_bound_only Sample.fresh_world
                (Sample.admin_command "5 T|a|b|c|d|e|f|g|h|i|j|k") eq_refl) as H.
  destruct H as (_ & _ & _ & H).
  destruct (H 5 "T" ["a";"b";"c";"d";"e";"f";"g";"h";"i";"j";"k"] eq_refl) as [Hlen Hrow].
  split; [exact Hlen|].
  destruct (Hrow "1700.01" 63900000300 eq_refl eq_refl eq_refl) as [Hdb _].
  rewrite Hdb. reflexivity.
Defined.

End PollCommand.

(** ** Closing a poll (scheduler.py close_poll_task) *)

Section PollClosure.
Import Database Scheduler Bot.

(** The dictionary built by get_poll_results holds, for every index, the
    number of rows of the poll with that index. *)
Lemma get_poll_results_count d p (i : Z) :
  default 0 (get_poll_results d p !! i)
  = Z.of_nat (length (filter (λ r, poll_id r = p ∧ option_index r = i) (votes d))).
Proof.
  unfold get_poll_results. induction (votes d) as [|r l IH]; [done|].
  cbn [foldr]. rewrite filter_cons.
  destruct (decide (poll_id r = p)) as [Hp|Hp].
  - destruct (decide (option_index r = i)) as [Hi|Hi].
    + rewrite decide_True by done. subst i. rewrite lookup_insert_eq.
      cbn [default]. rewrite IH, length_cons, Nat2Z.inj_succ. unfold Z.succ. done.
    + rewrite decide_False by tauto. rewrite lookup_insert_ne by done. exact IH.
  - rewrite decide_False by tauto. exact IH.
Qed.

Lemma foldl_max_snoc a l c : foldl Z.max a (l ++ [c]) = Z.max (foldl Z.max a l) c.
Proof. by rewrite foldl_app. Qed.

Lemma foldl_max_lower a l : a ≤ foldl Z.max a l.
Proof.
  revert a. induction l as [|x l IH]; intros a; simpl; [lia|].
  specialize (IH (Z.max a x)). lia.
Qed.

Lemma foldl_max_upper a l x : x ∈ l → x ≤ foldl Z.max a l.
Proof.
  revert a. induction l as [|y l IH]; intros a Hx; [by apply elem_of_nil in Hx|].
  apply elem_of_cons in Hx as [->|Hx]; simpl.
  - pose proof (foldl_max_lower (Z.max a y) l). lia.
  - by apply IH.
Qed.

Lemma foldl_max_attained a l : foldl Z.max a l = a ∨ foldl Z.max a l ∈ l.
Proof.
  revert a. induction l as [|y l IH]; intros a; simpl; [by left|].
  destruct (IH (Z.max a y)) as [H|H].
  - rewrite H. destruct (Z.max_spec a y) as [[_ ->]|[_ ->]]; [right; left|by left].
  - right. by right.
Qed.

Lemma filter_below_max (cnt : nat → Z) (pre : list (nat * string)) c :
  foldl Z.max (-1) (map (λ io, cnt io.1) pre) < c →
  filter (λ io : nat * string, cnt io.1 = c) pre = [].
Proof.
  intros Hlt. induction pre as [|io pre IH] using rev_ind; [done|].
  rewrite map_app in Hlt. cbn [map] in Hlt. rewrite foldl_max_snoc in Hlt. simpl in Hlt.
  rewrite filter_app, IH by lia. rewrite filter_cons, decide_False by lia. done.
Qed.

Lemma tally_step_inv results (cnt : nat → Z) pre st io :
  (∀ i : nat, default 0 (results !! Z.of_nat i) = cnt i) →
  tally_inv cnt pre st →
  tally_inv cnt (pre ++ [io]) (tally_step results st io).
Proof.
  destruct st as [[lines mx] ws], io as [i opt].
  intros Hc (Hl & Hm & Hw). unfold tally_step. rewrite Hc.
  assert (Hmax : foldl Z.max (-1) (map (λ io, cnt io.1) (pre ++ [(i, opt)]))
                 = Z.max mx (cnt i)).
  { rewrite map_app. cbn [map]. rewrite foldl_max_snoc. rewrite Hm. reflexivity. }
  destruct (decide (cnt i > mx)) as [Hgt|Hle].
  - repeat split.
    + by rewrite map_app, Hl.
    + rewrite Hmax. lia.
    + intros _. rewrite filter_app, (filter_below_max cnt pre (cnt i)) by lia.
      rewrite filter_cons, decide_True by done. done.
  - destruct (decide (cnt i = mx ∧ cnt i > 0)) as [[Heq Hpos]|Hne].
    + repeat split.
      * by rewrite map_app, Hl.
      * rewrite Hmax. lia.
      * intros Hmx. rewrite filter_app, map_app, <- Hw by done.
        rewrite filter_cons, decide_True by done. done.
    + repeat split.
      * by rewrite map_app, Hl.
      * rewrite Hmax. lia.
      * intros Hmx. rewrite filter_app, map_app, <- Hw by done.
        rewrite filter_cons, decide_False by (simpl; lia).
        by rewrite app_nil_r.
Qed.

Lemma tally_foldl_inv results (cnt : nat → Z) ios pre st :
  (∀ i : nat, default 0 (results !! Z.of_nat i) = cnt i) →
  tally_inv cnt pre st →
  tally_inv cnt (pre ++ ios) (foldl (tally_step results) st ios).
Proof.
  intros Hc. revert pre st. induction ios as [|io ios IH]; intros pre st Hinv; simpl.
  - by rewrite app_nil_r.
  - replace (pre ++ io :: ios) with ((pre ++ [io]) ++ ios) by by rewrite <- app_assoc.
    apply IH. by apply tally_step_inv.
Qed.

(** The loop of close_poll_task computes the tally the specification
    describes. *)
Lemma make_result_text_spec d p tp opts :
  make_result_text tp (get_poll_results d p) opts
  = {| rt_topic := tp;
       rt_lines := map (λ io, (io.2, spec_count d p io.1)) (enumerate opts);
       rt_footer := if decide (spec_max d p opts > 0)
                    then Kazanan (PyStr.join ", " (spec_winners d p opts))
                    else HicOyKullanilmadi |}.
Proof.
  unfold make_result_text, tally.
  pose proof (tally_foldl_inv (get_poll_results d p) (spec_count d p)
                (enumerate opts) [] ([], -1, [])) as Hinv.
  fold (enumerate opts).
  destruct (foldl _ _ _) as [[lines mx] ws].
  destruct Hinv as (Hl & Hm & Hw).
  { intros i. apply get_poll_results_count. }
  { by repeat split. }
  rewrite app_nil_l in *. fold (spec_max d p opts) in Hm. subst mx lines.
  f_equal. destruct (decide (spec_max d p opts > 0)) as [Hpos|Hnp]; [|done].
  by rewrite (Hw Hpos).
Qed.

End PollClosure.

Section PollTally.
Import Database Scheduler Bot.

Lemma elem_of_enumerate (opts : list string) i opt :
  (i, opt) ∈ enumerate opts ↔ opts !! i = Some opt.
Proof.
  unfold enumerate. rewrite elem_of_lookup_imap. split.
  - intros (j & y & [= -> ->] & Hy). done.
  - intros H. eauto.
Qed.

Lemma spec_max_upper d p (opts : list string) i opt :
  opts !! i = Some opt → spec_count d p i ≤ spec_max d p opts.
Proof.
  intros Hi. apply foldl_max_upper. apply list_elem_of_In, in_map_iff.
  exists (i, opt). split; [done|]. by apply list_elem_of_In, elem_of_enumerate.
Qed.

Lemma spec_max_attained d p (opts : list string) :
  opts ≠ [] → ∃ i opt, opts !! i = Some opt ∧ spec_count d p i = spec_max d p opts.
Proof.
  intros Hne.
  destruct (foldl_max_attained (-1)
              (map (λ io : nat * string, spec_count d p io.1) (enumerate opts)))
    as [Hm|Hin].
  - destruct opts as [|o opts]; [done|].
    pose proof (spec_max_upper d p (o :: opts) 0 o eq_refl) as Hle.
    unfold spec_max in Hle. rewrite Hm in Hle.
    unfold spec_count in Hle. lia.
  - apply list_elem_of_In, in_map_iff in Hin as ([i opt] & Heq & Hin).
    apply list_elem_of_In, elem_of_enumerate in Hin. exists i, opt. done.
Qed.

Lemma spec_winners_elem d p (opts : list string) opt :
  opt ∈ spec_winners d p opts ↔
  ∃ i, opts !! i = Some opt ∧ spec_count d p i = spec_max d p opts.
Proof.
  unfold spec_winners. rewrite list_elem_of_In, in_map_iff. split.
  - intros ([i o] & Ho & Hin). simpl in Ho. subst o.
    apply list_elem_of_In, list_elem_of_filter in Hin as [Hc Hin].
    apply elem_of_enumerate in Hin. eauto.
  - intros (i & Hi & Hc). exists (i, opt). split; [done|].
    apply list_elem_of_In, list_elem_of_filter. split; [done|].
    by apply elem_of_enumerate.
Qed.

Lemma spec_count_no_votes d p i :
  filter (λ r, poll_id r = p) (votes d) = [] → spec_count d p i = 0.
Proof.
  intros Hnone. unfold spec_count.
  replace (filter _ (votes d)) with (@nil vote_row); [done|].
  symmetry. induction (votes d) as [|r l IH]; [done|].
  rewrite filter_cons in Hnone. rewrite filter_cons.
  destruct (decide (poll_id r = p)) as [Hp|Hp]; [done|].
  rewrite decide_False by tauto. by apply IH.
Qed.

Lemma spec_max_no_votes d p (opts : list string) :
  filter (λ r, poll_id r = p) (votes d) = [] → spec_max d p opts ≤ 0.
Proof.
  intros Hnone. unfold spec_max.
  destruct (foldl_max_attained (-1)
              (map (λ io : nat * string, spec_count d p io.1) (enumerate opts)))
    as [->|Hin]; [lia|].
  apply list_elem_of_In, in_map_iff in Hin as (io & Heq & _).
  rewrite <- Heq. by rewrite spec_count_no_votes.
Qed.

(** What close_poll_task does on an open poll. *)
Lemma close_poll_task_open w ts delete_ok post_ok p tp opts act chan :
  get_poll_by_ts (database w) ts = Some (p, tp, opts, act, chan) →
  act ≠ 0 →
  close_poll_task w ts delete_ok post_ok =
    let w1 := with_db w (close_poll (database w) p).1 in
    let w2 := if delete_ok then send w1 (chat_delete chan ts) else w1 in
    if post_ok
    then send w2 (chat_postResult chan
                    (make_result_text tp (get_poll_results (database w) p) opts))
    else w2.
Proof.
  intros Hp Hact. unfold close_poll_task. rewrite Hp.
  by rewrite decide_False by done.
Qed.

(** C9.  When close_poll_task closes an open poll and the result message
    goes out, the message lists every option with the number of stored
    votes for that option; that number never exceeds the maximum, which
    some option attains; when the maximum is positive the footer names
    exactly the options that attain it, in option order, joined by ", ";
    when it is not (in particular when the poll has no stored vote) the
    footer says that no vote was cast and names no winner. *)
Theorem close_poll_tally (w : world) (ts : string) (delete_ok : bool)
    p tp opts act chan
    (Hpoll : get_poll_by_ts (database w) ts = Some (p, tp, opts, act, chan))
    (Hopen : act ≠ 0) :
  let d := database w in
  let r := {| rt_topic := tp;
              rt_lines := (λ io, (io.2, spec_count d p io.1)) <$> enumerate opts;
              rt_footer := if decide (spec_max d p opts > 0)
                           then Kazanan (PyStr.join ", " (spec_winners d p opts))
                           else HicOyKullanilmadi |} in
  sent (close_poll_task w ts delete_ok true)
  = sent w ++ (if delete_ok then [chat_delete chan ts] else []) ++ [chat_postResult chan r] ∧
  (∀ i opt, opts !! i = Some opt →
     rt_lines r !! i = Some (opt, spec_count d p i) ∧
     spec_count d p i ≤ spec_max d p opts) ∧
  (opts ≠ [] → ∃ i opt, opts !! i = Some opt ∧ spec_count d p i = spec_max d p opts) ∧
  (∀ opt, opt ∈ spec_winners d p opts ↔
          ∃ i, opts !! i = Some opt ∧ spec_count d p i = spec_max d p opts) ∧
  (filter (λ v, poll_id v = p) (votes d) = [] → rt_footer r = HicOyKullanilmadi).
Proof.
  intros d r. split; [|split; [|split; [|split]]].
  - rewrite (close_poll_task_open _ _ _ _ _ _ _ _ _ Hpoll Hopen).
    cbn zeta. rewrite make_result_text_spec. fold d. 
    destruct delete_ok; simpl; by rewrite <- ?app_assoc.
  - intros i opt Hi. split; [|by eapply spec_max_upper].
    cbn [rt_lines r]. rewrite list_lookup_fmap. unfold enumerate.
    rewrite list_lookup_imap, Hi. done.
  - apply spec_max_attained.
  - apply spec_winners_elem.
  - intros Hnone. cbn [rt_footer r].
    pose proof (spec_max_no_votes d p opts Hnone).
    by rewrite decide_False by lia.
Qed.

(** The two polls of the specification: votes 0, 0, 1 give the counts
    2 and 1 and the single winner "Kebap"; votes 0 and 1 give the counts
    1 and 1 and both labels. *)
Lemma close_poll_tally_witness :
  sent (close_poll_task
          (Sample.lunch_world_with [vote 1 "A" 0; vote 1 "B" 0; vote 1 "C" 1])
          "1700.01" true true)
  = [chat_delete "C1" "1700.01";
     chat_postResult "C1" {| rt_topic := "Lunch";
                             rt_lines := [("Kebap", 2); ("Pizza", 1)];
                             rt_footer := Kazanan "Kebap" |}] ∧
  sent (close_poll_task
          (Sample.lunch_world_with [vote 1 "A" 0; vote 1 "B" 1])
          "1700.01" true true)
  = [chat_delete "C1" "1700.01";
     chat_postResult "C1" {| rt_topic := "Lunch";
                             rt_lines := [("Kebap", 1); ("Pizza", 1)];
                             rt_footer := Kazanan "Kebap, Pizza" |}].
Proof.
  split.
  - rewrite (proj1 (close_poll_tally
                      (Sample.lunch_world_with [vote 1 "A" 0; vote 1 "B" 0; vote 1 "C" 1])
                      "1700.01" true 1 "Lunch" ["Kebap"; "Pizza"] 1 "C1"
                      eq_refl ltac:(discriminate))).
    reflexivity.
  - rewrite (proj1 (close_poll_tally
                      (Sample.lunch_world_with [vote 1 "A" 0; vote 1 "B" 1])
                      "1700.01" true 1 "Lunch" ["Kebap"; "Pizza"] 1 "C1"
                      eq_refl ltac:(discriminate))).
    reflexivity.
Defined.

(** A poll nobody voted on. *)
Example close_poll_no_votes :
  sent (close_poll_task Sample.lunch_world "1700.01" true true)
  = [chat_delete "C1" "1700.01";
     chat_postResult "C1" {| rt_topic := "Lunch";
                             rt_lines := [("Kebap", 0); ("Pizza", 0)];
                             rt_footer := HicOyKullanilmadi |}].
Proof. vm_compute. reflexivity. Qed.

End PollTally.

(** ** Closing twice (scheduler.py close_poll_task, match_service.py close_match) *)

Section Closure.
Import Database Scheduler Bot.

Lemma filter_ts_close_poll (l : list poll_row) ts p :
  filter (λ r, message_ts r = ts)
    (map (λ r, if decide (id r = p) then set_inactive r else r) l)
  = map (λ r, if decide (id r = p) then set_inactive r else r)
      (filter (λ r, message_ts r = ts) l).
Proof.
  induction l as [|r l IH]; [done|].
  cbn [map]. rewrite !filter_cons.
  assert (Hts : message_ts (if decide (id r = p) then set_inactive r else r)
                = message_ts r) by (by destruct (decide (id r = p))).
  rewrite Hts. destruct (decide (message_ts r = ts)); cbn [map]; by rewrite IH.
Qed.

(** Once close_poll has run for the poll a message refers to, the poll is
    found inactive under that message. *)
Lemma get_poll_by_ts_close_poll d ts p tp opts act chan :
  get_poll_by_ts d ts = Some (p, tp, opts, act, chan) →
  get_poll_by_ts (close_poll d p).1 ts = Some (p, tp, opts, 0, chan).
Proof.
  unfold get_poll_by_ts, close_poll. cbn [fst polls].
  rewrite filter_ts_close_poll.
  destruct (filter _ (polls d)) as [|r l]; [done|].
  intros [= <- <- <- <- <-]. cbn [map]. by rewrite decide_True by done.
Qed.

Lemma close_poll_task_database w ts delete_ok post_ok p tp opts act chan :
  get_poll_by_ts (database w) ts = Some (p, tp, opts, act, chan) →
  act ≠ 0 →
  database (close_poll_task w ts delete_ok post_ok) = (close_poll (database w) p).1.
Proof.
  intros Hp Hact. rewrite (close_poll_task_open _ _ _ _ _ _ _ _ _ Hp Hact).
  destruct delete_ok, post_ok; done.
Qed.

(** A second run of close_poll_task on the same message changes nothing
    and sends nothing. *)
Lemma close_poll_task_twice w ts d1 p1 d2 p2 :
  close_poll_task (close_poll_task w ts d1 p1) ts d2 p2 = close_poll_task w ts d1 p1.
Proof.
  destruct (get_poll_by_ts (database w) ts) as [[[[[p tp] opts] act] chan]|] eqn:Hp.
  - destruct (decide (act = 0)) as [Hact|Hact].
    + assert (Hw : ∀ a b, close_poll_task w ts a b = w).
      { intros a b. unfold close_poll_task. rewrite Hp. by rewrite decide_True. }
      by rewrite !Hw.
    + pose proof (close_poll_task_database w ts d1 p1 _ _ _ _ _ Hp Hact) as Hdb.
      pose proof (get_poll_by_ts_close_poll _ _ _ _ _ _ _ Hp) as Hclosed.
      rewrite <- Hdb in Hclosed.
      unfold close_poll_task at 1. rewrite Hclosed. by rewrite decide_True.
  - assert (Hw : ∀ a b, close_poll_task w ts a b = w).
    { intros a b. unfold close_poll_task. by rewrite Hp. }
    by rewrite !Hw.
Qed.

Import MatchService.

Lemma repo_get_update (r : list match_row) mid sm row :
  repo_get r mid = Some row →
  repo_get (repo_update r mid sm) mid
  = Some {| match_id := match_id row; channel_id := MatchService.channel_id row;
            user1_id := user1_id row; user2_id := user2_id row;
            status := "closed"; summary := Some sm |}.
Proof.
  unfold repo_get, repo_update. induction r as [|m r IH]; [done|].
  cbn [map]. rewrite !filter_cons.
  destruct (decide (match_id m = mid)) as [Hm|Hm].
  - cbn [match_id]. rewrite decide_True by done. cbn [head]. by intros [= ->].
  - rewrite decide_False by done. exact IH.
Qed.

(** C2, as stated, fails for a Match: with collaborators that answer, the
    second close_match on the same match is not a no-op; it posts the
    admin report and the closing notice again. *)
Lemma close_match_twice_counterexample :
  ¬ (∀ (s : service) (e1 e2 : close_env) (ch mid : string),
       close_match (close_match s e1 ch mid) e2 ch mid = close_match s e1 ch mid).
Proof.
  intros H.
  specialize (H Sample.coffee_service Sample.quiet_close Sample.quiet_close "D1" "M1").
  apply (f_equal (λ s, length (outbox s))) in H.
  vm_compute in H. discriminate H.
Qed.

(** C2, amended.  For a Poll: a second close_poll_task on the same message
    finds the poll inactive and is a no-op, so over the two runs the poll
    goes from open to closed once and at most one result message is sent
    (exactly one when the post succeeds).  For a Match: close_match has no
    guard on the stored status; whenever the collaborators answer, whatever
    the conversation history holds and whatever status the match row has, a
    run writes status "closed" with the summary (the fixed text when no
    user wrote, the language model's answer otherwise) and sends the admin
    report (when an admin channel is configured), the closing notice and
    the channel closure. *)
Theorem poll_closure_guarded_match_closure_not :
  (∀ (w : world) (ts : string) (d1 p1 d2 p2 : bool),
     close_poll_task (close_poll_task w ts d1 p1) ts d2 p2 = close_poll_task w ts d1 p1) ∧
  (∀ (w : world) (ts : string) (d1 p1 : bool) p tp opts act chan,
     get_poll_by_ts (database w) ts = Some (p, tp, opts, act, chan) →
     act ≠ 0 →
     let w1 := close_poll_task w ts d1 p1 in
     get_poll_by_ts (database w1) ts = Some (p, tp, opts, 0, chan) ∧
     sent w1 = sent w ++ (if d1 then [chat_delete chan ts] else []) ++
               (if p1 then [chat_postResult chan
                              (make_result_text tp (get_poll_results (database w) p) opts)]
                else [])) ∧
  (∀ (s : service) (e : close_env) (ch mid : string) (row : match_row)
     (msgs : list history_msg) (text : string),
     repo_get (match_repo s) mid = Some row →
     get_history_r e = Some msgs →
     summary_r e = Some text →
     update_ok e = true →
     post_admin_ok e = true →
     post_closing_ok e = true →
     close_conversation_ok e = true →
     let sm := match filter (λ m, is_user_message m = true) msgs with
               | [] => NoConversation
               | _ :: _ => Generated text
               end in
     let report := match admin_channel s with
                   | Some ac =>
                       if decide (ac = EmptyString) then []
                       else [post_message ac
                               (AdminReport ch (user1_id row) (user2_id row) sm)]
                   | None => []
                   end in
     let s1 := close_match s e ch mid in
     match_repo s1 = repo_update (match_repo s) mid sm ∧
     repo_get (match_repo s1) mid
     = Some {| match_id := match_id row; channel_id := MatchService.channel_id row;
               user1_id := user1_id row; user2_id := user2_id row;
               status := "closed"; summary := Some sm |} ∧
     outbox s1 = outbox s ++ report ++
                 [post_message ch ClosingNotice; close_conversation ch]).
Proof.
  split; [|split].
  - apply close_poll_task_twice.
  - intros w ts d1 p1 p tp opts act chan Hp Hact w1. split.
    + unfold w1. rewrite (close_poll_task_database _ _ _ _ _ _ _ _ _ Hp Hact).
      by eapply get_poll_by_ts_close_poll.
    + unfold w1. rewrite (close_poll_task_open _ _ _ _ _ _ _ _ _ Hp Hact).
      destruct d1, p1; simpl; rewrite <- ?app_assoc, ?app_nil_r; done.
  - intros s e ch mid row msgs text Hrow Hh Hsum Hu Hpa Hpc Hcc sm report s1.
    pose proof (repo_get_update _ _ sm _ Hrow) as Hget.
    assert (Hopt : match map (λ m, "Kullanıcı: " +:+ default EmptyString (msg_text m))
                           (filter (λ m, is_user_message m = true) msgs) with
                   | [] => Some NoConversation
                   | _ :: _ => Generated <$> summary_r e
                   end = Some sm).
    { unfold sm. rewrite Hsum. by destruct (filter _ msgs). }
    unfold s1, close_match. rewrite Hh. cbv zeta. rewrite Hopt, Hu.
    cbn [admin_channel set_match_repo match_repo]. unfold report.
    destruct (admin_channel s) as [ac|].
    + destruct (decide (ac = EmptyString)).
      * rewrite Hpc, Hcc. cbn [emit match_repo outbox].
        rewrite <- !app_assoc. done.
      * rewrite Hget, Hpa, Hpc, Hcc.
        cbn [emit match_repo outbox user1_id user2_id].
        rewrite <- !app_assoc. done.
    + rewrite Hpc, Hcc. cbn [emit match_repo outbox].
      rewrite <- !app_assoc. done.
Qed.

Lemma poll_closure_guarded_match_closure_not_witness :
  length (sent (close_poll_task (close_poll_task Sample.lunch_world "1700.01" true true)
                  "1700.01" true true)) = 2%nat ∧
  length (outbox (close_match (close_match Sample.coffee_service Sample.quiet_close "D1" "M1")
                    Sample.quiet_close "D1" "M1")) = 6%nat.
Proof.
  destruct poll_closure_guarded_match_closure_not as (Hpoll & _ & Hmatch).
  split.
  - rewrite Hpoll. reflexivity.
  - pose proof (Hmatch (close_match Sample.coffee_service Sample.quiet_close "D1" "M1")
                  Sample.quiet_close "D1" "M1"
                  {| match_id := "M1"; channel_id := "D1"; user1_id := "U2";
                     user2_id := "U1"; status := "closed";
                     summary := Some NoConversation |}
                  [] "ozet" eq_refl eq_refl eq_refl eq_refl eq_refl eq_refl eq_refl)
      as (_ & _ & Hout).
    rewrite Hout. reflexivity.
Defined.

End Closure.

(** ** The waiting pool (match_service.py) *)

Section Cooldown.
Import MatchService.

Lemma int_minutes_floor td : 0 ≤ td → int_minutes td = td `div` MINUTE.
Proof. intros H. unfold int_minutes. apply Z.quot_div_nonneg; [done|by compute]. Qed.

(** Five minus the whole minutes elapsed is the ceiling of what remains. *)
Lemma remaining_is_ceiling elapsed :
  0 ≤ elapsed < COOLDOWN →
  5 - int_minutes elapsed = spec_remaining_minutes (COOLDOWN - elapsed) ∧
  1 ≤ 5 - int_minutes elapsed ≤ 5.
Proof.
  intros [H0 H5]. rewrite int_minutes_floor by done.
  unfold spec_remaining_minutes, COOLDOWN, MINUTE, SECOND in *.
  pose proof (Z.div_mod elapsed (60 * 1000000) ltac:(lia)) as Hdm.
  pose proof (Z.mod_pos_bound elapsed (60 * 1000000) ltac:(lia)) as Hmb.
  pose proof (Z.div_mod (- (5 * (60 * 1000000) - elapsed)) (60 * 1000000) ltac:(lia)) as Hdm'.
  pose proof (Z.mod_pos_bound (- (5 * (60 * 1000000) - elapsed)) (60 * 1000000) ltac:(lia))
    as Hmb'.
  lia.
Qed.

Lemma can_request_coffee_cooldown s u now last :
  last_request_time s !! u = Some last →
  now - last < COOLDOWN →
  can_request_coffee s u now = (false, Some (MsgCooldown (5 - int_minutes (now - last)))).
Proof.
  intros Hl Hlt. unfold can_request_coffee. rewrite Hl.
  by rewrite decide_True by done.
Qed.

Lemma can_request_coffee_after s u now :
  (∀ last, last_request_time s !! u = Some last → COOLDOWN ≤ now - last) →
  can_request_coffee s u now
  = if decide (u ∈ waiting_pool s) then (false, Some MsgAlreadyWaiting) else (true, None).
Proof.
  intros Hl. unfold can_request_coffee.
  destruct (last_request_time s !! u) as [last|]; [|done].
  specialize (Hl last eq_refl). by rewrite decide_False by lia.
Qed.

(** C6.  A request that comes less than five minutes after the user's last
    recorded request is answered with the cooldown message, which carries
    the ceiling of the remaining time in minutes (between 1 and 5), and
    leaves the whole service state, the pool and the recorded time included,
    as it was.  From five minutes on the cooldown no longer applies: the
    request is judged on pool membership alone. *)
Theorem cooldown_enforced (s : service) (e : match_env) (u c : string)
    (now_check now_record last : Z)
    (Hlast : last_request_time s !! u = Some last)
    (Hafter : last ≤ now_check) :
  (now_check - last < COOLDOWN →
     let remaining := 5 - int_minutes (now_check - last) in
     request_coffee s e u c now_check now_record = (s, Ok (Some (MsgCooldown remaining))) ∧
     remaining = spec_remaining_minutes (COOLDOWN - (now_check - last)) ∧
     1 ≤ remaining ≤ 5) ∧
  (COOLDOWN ≤ now_check - last →
     can_request_coffee s u now_check
     = if decide (u ∈ waiting_pool s)
       then (false, Some MsgAlreadyWaiting) else (true, None)).
Proof.
  split.
  - intros Hlt remaining. split.
    + unfold request_coffee.
      by rewrite (can_request_coffee_cooldown _ _ _ _ Hlast Hlt).
    + apply remaining_is_ceiling. lia.
  - intros Hge. apply can_request_coffee_after.
    intros last' Hl'. rewrite Hlast in Hl'. by injection Hl' as <-.
Qed.

(** The run of the specification: a request at t = 0 enters the pool, one
    at t = 1 min is refused with four minutes to go, the timeout job runs
    at t = 5 min, and a request at t = 6 min enters the pool again. *)
Lemma cooldown_enforced_witness :
  let t := 63900000000 * SECOND in
  let r0 := request_coffee (init None) Sample.all_ok "U1" "C1" t t in
  let r1 := request_coffee r0.1 Sample.all_ok "U1" "C1" (t + MINUTE) (t + MINUTE) in
  let s2 := _timeout_user r1.1 Sample.dm_ok "U1" in
  let r3 := request_coffee s2 Sample.all_ok "U1" "C1" (t + 6 * MINUTE) (t + 6 * MINUTE) in
  (r0.2 = Ok (Some MsgWaiting) ∧ waiting_pool r0.1 = ["U1"]) ∧
  r1 = (r0.1, Ok (Some (MsgCooldown 4))) ∧
  (r3.2 = Ok (Some MsgWaiting) ∧ waiting_pool r3.1 = ["U1"]).
Proof.
  split; [split; reflexivity|]. split; [|split; reflexivity].
  exact (proj1 (proj1 (cooldown_enforced
           (request_coffee (init None) Sample.all_ok "U1" "C1"
              (63900000000 * SECOND) (63900000000 * SECOND)).1
           Sample.all_ok "U1" "C1"
           (63900000000 * SECOND + MINUTE) (63900000000 * SECOND + MINUTE)
           (63900000000 * SECOND) eq_refl ltac:(compute; discriminate))
         ltac:(reflexivity))).
Defined.

End Cooldown.

Section Pool.
Import MatchService.

Ltac srv_simpl :=
  cbn [waiting_pool last_request_time pool_timeout_jobs admin_channel cron
       match_repo outbox set_waiting_pool set_last_request_time
       set_pool_timeout_jobs set_cron set_match_repo emit fst snd negb] in *.

(** A timeout job and a closure job never share their identifier. *)
Lemma timeout_job_id_not_close_job_id u ch : timeout_job_id u ≠ close_job_id ch.
Proof. unfold timeout_job_id, close_job_id. simpl. intros [=]. Qed.

Lemma can_request_coffee_free s u now :
  u ∉ waiting_pool s →
  (∀ last, last_request_time s !! u = Some last → COOLDOWN ≤ now - last) →
  can_request_coffee s u now = (true, None).
Proof.
  intros Hu Hc. rewrite can_request_coffee_after by done.
  by rewrite decide_False by done.
Qed.

(** Whoever passes can_request_coffee is not in the pool. *)
Lemma can_request_coffee_true s u now msg :
  can_request_coffee s u now = (true, msg) → u ∉ waiting_pool s.
Proof.
  unfold can_request_coffee.
  destruct (last_request_time s !! u) as [last|].
  - destruct (decide (now - last < COOLDOWN)); [discriminate|].
    destruct (decide (u ∈ waiting_pool s)); [discriminate|done].
  - destruct (decide (u ∈ waiting_pool s)); [discriminate|done].
Qed.

(** C7.  When A is the first entry of the pool and B, who is neither in
    the pool nor in cooldown, requests a coffee while the collaborators
    answer, the request returns the "matched" message; A, and nobody else,
    leaves the pool; A's timeout job is removed from the cron client and
    A's handle from the service; one match row with the users B and A is
    added; and a later run of A's timeout changes nothing. *)
Theorem match_takes_earliest_waiter (s : service) (e : match_env)
    (A B c : string) (rest : list string) (now_check now_record : Z)
    (ch mid ice : string)
    (Hpool : waiting_pool s = A :: rest)
    (Hnodup : NoDup (waiting_pool s))
    (Hjob : pool_timeout_jobs s !! A = Some (timeout_job_id A))
    (HB : B ∉ waiting_pool s)
    (Hcool : ∀ last, last_request_time s !! B = Some last → COOLDOWN ≤ now_check - last)
    (Hremove : remove_job_ok e = true)
    (Hopen : open_conversation_r e = Some ch)
    (Hcreate : create_r e = Some mid)
    (Hask : quick_ask_r e = Some ice)
    (Hpost : post_message_ok e = true)
    (Hadd : add_once_job_ok e = true) :
  let r := request_coffee s e B c now_check now_record in
  r.2 = Ok (Some MsgMatched) ∧
  A ≠ B ∧
  waiting_pool r.1 = rest ∧
  (A ∉ waiting_pool r.1) ∧
  cron r.1 !! timeout_job_id A = None ∧
  pool_timeout_jobs r.1 !! A = None ∧
  match_repo r.1 = match_repo s ++
                   [ {| match_id := mid; channel_id := ch; user1_id := B; user2_id := A;
                        status := "active"; summary := None |} ] ∧
  (∀ e' : timeout_env, _timeout_user r.1 e' A = r.1).
Proof.
  intros r.
  assert (HA : A ∉ rest).
  { rewrite Hpool in Hnodup. by apply NoDup_cons in Hnodup as [? _]. }
  assert (Hne : A ≠ B).
  { intros ->. apply HB. rewrite Hpool. by left. }
  assert (Hr : r = (set_cron
                      (emit
                         (set_match_repo
                            (emit
                               (set_pool_timeout_jobs
                                  (set_cron
                                     (set_waiting_pool
                                        (set_last_request_time s
                                           (<[B := now_record]> (last_request_time s)))
                                        rest)
                                     (delete (timeout_job_id A) (cron s)))
                                  (delete A (pool_timeout_jobs s)))
                               (open_conversation [B; A] ch))
                            (match_repo s ++
                             [ {| match_id := mid; channel_id := ch; user1_id := B;
                                  user2_id := A; status := "active"; summary := None |} ]))
                         (post_message ch (IceBreaker ice)))
                      (<[ close_job_id ch := {| delay_minutes := 5;
                                                task := run_close_match ch mid |} ]>
                         (delete (timeout_job_id A) (cron s))),
                    Ok (Some MsgMatched))).
  { unfold r, request_coffee.
    rewrite (can_request_coffee_free _ _ _ HB Hcool). srv_simpl.
    rewrite Hpool. srv_simpl. rewrite Hjob, Hremove.
    unfold start_match, start_match_body.
    rewrite Hopen, Hcreate, Hask, Hpost, Hadd. srv_simpl. reflexivity. }
  rewrite Hr. srv_simpl.
  repeat split; try done.
  - rewrite lookup_insert_ne by (apply not_eq_sym, timeout_job_id_not_close_job_id).
    apply lookup_delete_eq.
  - apply lookup_delete_eq.
  - intros e'. unfold _timeout_user. srv_simpl.
    rewrite decide_False by done. srv_simpl.
    by rewrite lookup_delete_eq.
Qed.

Lemma match_takes_earliest_waiter_witness :
  let r0 := request_coffee (init None) Sample.all_ok "A" "C1" 100 100 in
  let r := request_coffee r0.1 Sample.all_ok "B" "C1" 200 200 in
  r.2 = Ok (Some MsgMatched) ∧
  waiting_pool r.1 = [] ∧
  map (λ m, (user1_id m, user2_id m)) (match_repo r.1) = [("B", "A")] ∧
  _timeout_user r.1 Sample.dm_ok "A" = r.1.
Proof.
  pose proof (match_takes_earliest_waiter
                (request_coffee (init None) Sample.all_ok "A" "C1" 100 100).1
                Sample.all_ok "A" "B" "C1" [] 200 200 "D1" "M1" "selam"
                eq_refl ltac:(by apply (bool_decide_unpack _)) eq_refl
                ltac:(by apply (bool_decide_unpack _))
                ltac:(intros last Hl; vm_compute in Hl; discriminate Hl)
                eq_refl eq_refl eq_refl eq_refl eq_refl eq_refl)
    as (H1 & _ & H2 & _ & _ & _ & H3 & H4).
  split; [exact H1|]. split; [exact H2|]. split; [|apply H4].
  cbv zeta in H3. rewrite H3. reflexivity.
Defined.

Lemma list_remove_subseteq x l y : y ∈ list_remove x l → y ∈ l.
Proof.
  induction l as [|z l IH]; simpl; [done|].
  destruct (decide (z = x)); intros Hy; [by right|].
  apply elem_of_cons in Hy as [->|Hy]; [by left|right; by apply IH].
Qed.

Lemma NoDup_list_remove x l : NoDup l → NoDup (list_remove x l).
Proof.
  induction l as [|z l IH]; simpl; [done|].
  intros [Hz Hl]%NoDup_cons. destruct (decide (z = x)); [done|].
  apply NoDup_cons. split; [|by apply IH].
  intros Hin. by apply Hz, (list_remove_subseteq x).
Qed.

(** start_match leaves the pool alone and adds at most one row, which
    pairs its two arguments. *)
Lemma start_match_effect s e a b :
  let r := start_match s e a b in
  waiting_pool r.1 = waiting_pool s ∧
  last_request_time r.1 = last_request_time s ∧
  pool_timeout_jobs r.1 = pool_timeout_jobs s ∧
  (match_repo r.1 = match_repo s ∨
   ∃ mid ch, match_repo r.1
             = match_repo s ++ [ {| match_id := mid; channel_id := ch; user1_id := a;
                                    user2_id := b; status := "active"; summary := None |} ]).
Proof.
  unfold start_match, start_match_body.
  destruct (open_conversation_r e) as [ch|]; [|by repeat split; try left].
  destruct (create_r e) as [mid|]; [|by repeat split; try left].
  destruct (quick_ask_r e), (post_message_ok e), (add_once_job_ok e); srv_simpl;
    repeat split; try done; right; by exists mid, ch.
Qed.

Lemma request_coffee_pool_inv s e u c t0 t1 :
  pool_inv s → pool_inv (request_coffee s e u c t0 t1).1.
Proof.
  intros [Hnd Hm]. unfold request_coffee.
  destruct (can_request_coffee s u t0) as [can msg] eqn:Hcan.
  destruct can; [|done]. srv_simpl.
  apply can_request_coffee_true in Hcan.
  destruct (waiting_pool s) as [|partner rest] eqn:Hpool.
  - destruct (add_once_job_ok e); srv_simpl; (split; srv_simpl; [|done]);
      apply NoDup_singleton.
  - apply NoDup_cons in Hnd as [Hp Hrest].
    assert (Hne : u ≠ partner) by (intros ->; apply Hcan; by left).
    set (s1 := set_waiting_pool _ rest).
    assert (Hinv1 : ∀ s2, waiting_pool s2 = rest → match_repo s2 = match_repo s →
                          pool_inv (let '(s3, r) := start_match s2 e u partner in
                                    match r with
                                    | Raise ex => (s3, Raise ex)
                                    | Ok _ => (s3, Ok (Some MsgMatched))
                                    end).1).
    { intros s2 Hp2 Hm2.
      pose proof (start_match_effect s2 e u partner) as (Hw & _ & _ & Hrepo).
      destruct (start_match s2 e u partner) as [s3 [?|?]]; srv_simpl;
        (split; [by rewrite Hw, Hp2|]);
        (destruct Hrepo as [->|(mid & ch & ->)]; rewrite Hm2; [done|]);
        (apply Forall_app; split; [done|]; by apply Forall_singleton). }
    destruct (pool_timeout_jobs s !! partner) as [job|].
    + destruct (remove_job_ok e); [|by split].
      exact (Hinv1 (set_pool_timeout_jobs (set_cron s1 (delete job (cron s1)))
                      (delete partner (pool_timeout_jobs s1))) eq_refl eq_refl).
    + exact (Hinv1 s1 eq_refl eq_refl).
Qed.

Lemma timeout_user_pool_inv s e u : pool_inv s → pool_inv (_timeout_user s e u).
Proof.
  intros [Hnd Hm]. unfold _timeout_user.
  destruct (decide (u ∈ waiting_pool s)).
  - destruct (dm_open_r e), (dm_post_ok e); srv_simpl;
      destruct (pool_timeout_jobs s !! u); split; srv_simpl;
      try done; by apply NoDup_list_remove.
  - destruct (pool_timeout_jobs s !! u); split; done.
Qed.

Lemma step_pool_inv s o : pool_inv s → pool_inv (step s o).
Proof.
  destruct o; simpl; [apply request_coffee_pool_inv|apply timeout_user_pool_inv].
Qed.

Lemma states_pool_inv ops s : pool_inv s → Forall pool_inv (states s ops).
Proof.
  revert s. induction ops as [|o ops IH]; intros s Hs; simpl.
  - by apply Forall_singleton.
  - apply Forall_cons. split; [done|]. by apply IH, step_pool_inv.
Qed.

(** C8.  Whatever requests and timeouts follow one another on a fresh
    service, and whatever the collaborators answer, every state passed
    through has no user twice in the waiting pool and holds only matches
    between two distinct users. *)
Theorem pool_invariant (admin : option string) (ops : list op) :
  Forall (λ s, NoDup (waiting_pool s) ∧
               Forall (λ m, user1_id m ≠ user2_id m) (match_repo s))
         (states (init admin) ops).
Proof.
  apply (states_pool_inv ops (init admin)). split; [apply NoDup_nil_2|done].
Qed.

(** A user who asks twice is not paired with themselves: the second
    request is refused (here by the cooldown, and after it by the pool
    check), and the pool keeps the single entry. *)
Example no_self_match :
  let r0 := request_coffee (init None) Sample.all_ok "A" "C1" 100 100 in
  let r1 := request_coffee r0.1 Sample.all_ok "A" "C1" 200 200 in
  let r2 := request_coffee r0.1 Sample.all_ok "A" "C1" (100 + COOLDOWN) (100 + COOLDOWN) in
  r1 = (r0.1, Ok (Some (MsgCooldown 5))) ∧
  r2 = (r0.1, Ok (Some MsgAlreadyWaiting)).
Proof. split; reflexivity. Qed.

(** C5, as stated, fails: A waits, B asks, and opening the conversation
    raises.  The request ends in CemilBotError and the state is not the one
    before the attempt: A is gone from the pool, A's timeout job and handle
    are gone, and there is no match. *)
Lemma failed_match_rollback_counterexample :
  ¬ (∀ (s : service) (e : match_env) (u c : string) (t0 t1 : Z) (ex : exn),
       (request_coffee s e u c t0 t1).2 = Raise ex →
       (request_coffee s e u c t0 t1).1 = s).
Proof.
  intros H.
  specialize (H (request_coffee (init None) Sample.all_ok "A" "C1" 100 100).1
                Sample.open_fails "B" "C1" 200 200 CemilBotError eq_refl).
  apply (f_equal waiting_pool) in H. vm_compute in H. discriminate H.
Qed.

(** C5, amended.  When B's request has taken the partner A from the pool
    and opening the conversation or storing the match raises, start_match
    turns the exception into CemilBotError and request_coffee lets it
    through.  Nothing is rolled back: A stays out of the pool, A's timeout
    job stays cancelled and A's handle deleted, B's request time stays
    recorded, and the match repository holds no new row. *)
Theorem failed_match_not_rolled_back (s : service) (e : match_env)
    (A B c : string) (rest : list string) (now_check now_record : Z)
    (Hpool : waiting_pool s = A :: rest)
    (Hjob : pool_timeout_jobs s !! A = Some (timeout_job_id A))
    (HB : B ∉ waiting_pool s)
    (Hcool : ∀ last, last_request_time s !! B = Some last → COOLDOWN ≤ now_check - last)
    (Hremove : remove_job_ok e = true)
    (Hfail : open_conversation_r e = None ∨ create_r e = None) :
  let r := request_coffee s e B c now_check now_record in
  r.2 = Raise CemilBotError ∧
  waiting_pool r.1 = rest ∧
  pool_timeout_jobs r.1 = delete A (pool_timeout_jobs s) ∧
  cron r.1 = delete (timeout_job_id A) (cron s) ∧
  last_request_time r.1 = <[B := now_record]> (last_request_time s) ∧
  match_repo r.1 = match_repo s.
Proof.
  intros r. unfold r, request_coffee.
  rewrite (can_request_coffee_free _ _ _ HB Hcool). srv_simpl.
  rewrite Hpool. srv_simpl. rewrite Hjob, Hremove.
  unfold start_match, start_match_body.
  destruct (open_conversation_r e) as [ch|]; [|by repeat split].
  destruct Hfail as [Hfail|Hfail]; [done|]. rewrite Hfail. by repeat split.
Qed.

Lemma failed_match_not_rolled_back_witness :
  let s1 := (request_coffee (init None) Sample.all_ok "A" "C1" 100 100).1 in
  let r := request_coffee s1 Sample.open_fails "B" "C1" 200 200 in
  waiting_pool s1 = ["A"] ∧
  r.2 = Raise CemilBotError ∧
  waiting_pool r.1 = [] ∧
  match_repo r.1 = [].
Proof.
  pose proof (failed_match_not_rolled_back
                (request_coffee (init None) Sample.all_ok "A" "C1" 100 100).1
                Sample.open_fails "A" "B" "C1" [] 200 200
                eq_refl eq_refl ltac:(by apply (bool_decide_unpack _))
                ltac:(intros last Hl; vm_compute in Hl; discriminate Hl)
                eq_refl ltac:(by left))
    as (H1 & H2 & _ & _ & _ & H3).
  split; [reflexivity|]. split; [exact H1|]. split; [exact H2|exact H3].
Defined.

End Pool.

(** ** The rate limiter (rate_limiter.py, poll_handler.py) *)

Section Limiter.
Import RateLimit PollHandler.

Lemma filter_filter_gt (l : list Z) c c' :
  c' ≤ c → filter (λ t, t > c) (filter (λ t, t > c') l) = filter (λ t, t > c) l.
Proof.
  intros Hc. induction l as [|t l IH]; [done|].
  rewrite !filter_cons. destruct (decide (t > c')) as [H1|H1].
  - rewrite filter_cons. destruct (decide (t > c)); by rewrite IH.
  - rewrite decide_False by lia. exact IH.
Qed.

Lemma length_spec_recent win allowed u now :
  length (spec_recent win allowed u now)
  = length (filter (λ t, t > now - win * SECOND)
              (map snd (filter (λ h : string * Z, h.1 = u) allowed))).
Proof.
  unfold spec_recent. induction allowed as [|[v t] l IH]; [done|].
  rewrite !filter_cons. cbn [fst snd].
  destruct (decide (v = u)) as [Hv|Hv].
  - cbn [map snd]. rewrite filter_cons.
    destruct (decide (t > now - win * SECOND)).
    + rewrite decide_True by done. cbn [length]. by rewrite IH.
    + rewrite decide_False by tauto. exact IH.
  - rewrite decide_False by tauto. exact IH.
Qed.

(** The two outcomes of is_allowed. *)
Lemma is_allowed_cases rl u now :
  let pruned := filter (λ t, t > now - window_seconds rl * SECOND)
                  (default [] (requests rl !! u)) in
  (Z.of_nat (length pruned) < max_requests rl ∧
   is_allowed rl u now
   = ({| max_requests := max_requests rl; window_seconds := window_seconds rl;
         requests := <[ u := pruned ++ [now] ]> (requests rl) |}, (true, None))) ∨
  (max_requests rl ≤ Z.of_nat (length pruned) ∧
   is_allowed rl u now
   = ({| max_requests := max_requests rl; window_seconds := window_seconds rl;
         requests := <[ u := pruned ]> (requests rl) |},
      (false, Some (TooManyRequests
                      (int_seconds (oldest_or now pruned
                                    + window_seconds rl * SECOND - now)))))).
Proof.
  intros pruned. unfold is_allowed. fold pruned.
  destruct (decide (Z.of_nat (length pruned) >= max_requests rl)).
  - right. split; [lia|done].
  - left. split; [lia|done].
Qed.

Lemma limiter_agrees_step lo rl allowed u now :
  lo ≤ now →
  limiter_agrees lo rl allowed →
  let ok := bool_decide
              (Z.of_nat (length (spec_recent (window_seconds rl) allowed u now))
               < max_requests rl) in
  (is_allowed rl u now).2.1 = ok ∧
  max_requests (is_allowed rl u now).1 = max_requests rl ∧
  window_seconds (is_allowed rl u now).1 = window_seconds rl ∧
  limiter_agrees now (is_allowed rl u now).1 (if ok then allowed ++ [(u, now)] else allowed).
Proof.
  intros Hlo Hag ok.
  pose proof (Hag u (now - window_seconds rl * SECOND) ltac:(lia)) as Hu.
  assert (Hlen : length (spec_recent (window_seconds rl) allowed u now)
                 = length (filter (λ t, t > now - window_seconds rl * SECOND)
                             (default [] (requests rl !! u)))).
  { rewrite length_spec_recent. by rewrite Hu. }
  assert (Hother : ∀ v c (l : list Z) (ext : list (string * Z)),
             v ≠ u → now - window_seconds rl * SECOND ≤ c →
             filter (λ h : string * Z, h.1 = v) ext = [] →
             filter (λ t, t > c) (default [] (<[u := l]> (requests rl) !! v))
             = filter (λ t, t > c)
                 (map snd (filter (λ h : string * Z, h.1 = v) (allowed ++ ext)))).
  { intros v c l ext Hv Hc Hext. rewrite lookup_insert_ne by done.
    rewrite filter_app, Hext, app_nil_r. apply Hag. lia. }
  destruct (is_allowed_cases rl u now) as [[Hlt ->]|[Hge ->]]; cbn [fst snd].
  - assert (Hok : ok = true).
    { unfold ok. apply bool_decide_eq_true. by rewrite Hlen. }
    rewrite Hok. repeat split; try done.
    intros v c Hc. cbn [requests window_seconds] in *.
    destruct (decide (v = u)) as [->|Hv].
    + rewrite lookup_insert_eq. cbn [default from_option id].
      rewrite !filter_app, map_app, filter_app.
      rewrite filter_filter_gt by lia. rewrite (Hag u c) by lia.
      f_equal. rewrite (filter_cons _ (u, now)). cbn [fst].
      rewrite decide_True by done. done.
    + rewrite (Hother v c _ [(u, now)]); try done.
      rewrite filter_cons. cbn [fst]. by rewrite decide_False by done.
  - assert (Hok : ok = false).
    { unfold ok. apply bool_decide_eq_false. rewrite Hlen. lia. }
    rewrite Hok. repeat split; try done.
    intros v c Hc. cbn [requests window_seconds] in *.
    destruct (decide (v = u)) as [->|Hv].
    + rewrite lookup_insert_eq. cbn [default from_option id].
      rewrite filter_filter_gt by lia. apply Hag. lia.
    + pose proof (Hother v c
                    (filter (λ t, t > now - window_seconds rl * SECOND)
                       (default [] (requests rl !! u))) [] Hv Hc eq_refl) as H.
      by rewrite app_nil_r in H.
Qed.

Lemma run_spec_run calls : ∀ lo rl allowed,
  chronological lo calls →
  limiter_agrees lo rl allowed →
  (run rl calls).2 = spec_run (max_requests rl) (window_seconds rl) allowed calls.
Proof.
  induction calls as [|[u now] calls IH]; intros lo rl allowed Hch Hag; [done|].
  destruct Hch as [Hlo Hch].
  pose proof (limiter_agrees_step lo rl allowed u now Hlo Hag) as (Hans & Hmx & Hwin & Hag').
  cbn [run spec_run].
  destruct (is_allowed rl u now) as [rl1 [ans msg]] eqn:Hia. cbn [fst snd] in *.
  specialize (IH now rl1 _ Hch Hag').
  destruct (run rl1 calls) as [rl2 answers]. cbn [fst snd] in *.
  rewrite Hmx, Hwin in IH. rewrite IH, Hans. done.
Qed.

Lemma limiter_agrees_new lo mx win : limiter_agrees lo (new mx win) [].
Proof. intros u c _. cbn [new requests]. by rewrite lookup_empty. Qed.

(** C10.  (1) Over any run of is_allowed calls whose clock reads do not go
    back, a fresh limiter answers as the sliding window of the
    specification: a call is allowed exactly when strictly fewer than
    max_requests earlier allowed calls of the same user lie within the last
    window_seconds.  (2) An allowed call is appended to the user's list and
    returns no message; a denied call leaves the list as pruned, without
    the new time, and returns the wait message; the lists of other users
    are untouched.  (3) When the limiter denies, the /oylama handler posts
    that message and returns: the answer does not depend on the admin
    lookup, the validation or the voting service, and the state behind them
    is unchanged. *)
Theorem rate_limiter_sliding_window :
  (∀ (mx win lo : Z) (calls : list (string * Z)),
     chronological lo calls →
     (run (new mx win) calls).2 = spec_run mx win [] calls) ∧
  (∀ (rl : RateLimiter) (u : string) (now : Z),
     let pruned := filter (λ t, t > now - window_seconds rl * SECOND)
                     (default [] (requests rl !! u)) in
     let r := is_allowed rl u now in
     (r.2.1 = true ↔ Z.of_nat (length pruned) < max_requests rl) ∧
     (r.2.1 = true → r.2.2 = None ∧ requests r.1 !! u = Some (pruned ++ [now])) ∧
     (r.2.1 = false →
        r.2.2 = Some (TooManyRequests
                        (int_seconds (oldest_or now pruned
                                      + window_seconds rl * SECOND - now))) ∧
        requests r.1 !! u = Some pruned) ∧
     (∀ v, v ≠ u → requests r.1 !! v = requests rl !! v)) ∧
  (∀ (W : Type) (is_admin : W → string → bool)
     (parse_from_text : string → PollRequest + string)
     (create_poll : W → string → string → list string → string → bool → Z → W * bool)
     (h : @handler_state W) (u ch body_text : string) (now : Z),
     (is_allowed (rate_limiter h) u now).2.1 = false →
     handle_poll_command is_admin parse_from_text create_poll h u ch body_text now
     = {| rate_limiter := (is_allowed (rate_limiter h) u now).1;
          world := world h;
          posted := posted h ++
                    [post_ephemeral ch u
                       (TxtLimit (is_allowed (rate_limiter h) u now).2.2)] |}).
Proof.
  split; [|split].
  - intros mx win lo calls Hch.
    apply (run_spec_run calls lo (new mx win) [] Hch), limiter_agrees_new.
  - intros rl u now pruned r.
    destruct (is_allowed_cases rl u now) as [[Hlt Hr]|[Hge Hr]];
      fold pruned in Hlt || fold pruned in Hge; fold pruned r in Hr; rewrite Hr;
      cbn [fst snd requests].
    + split; [done|]. split; [intros _; by rewrite lookup_insert_eq|].
      split; [done|]. intros v Hv. by rewrite lookup_insert_ne.
    + split; [split; [done|lia]|]. split; [done|].
      split; [intros _; by rewrite lookup_insert_eq|].
      intros v Hv. by rewrite lookup_insert_ne.
  - intros W is_admin parse create h u ch body_text now Hden.
    unfold handle_poll_command.
    destruct (is_allowed (rate_limiter h) u now) as [rl [ans msg]].
    cbn [fst snd] in *. by rewrite Hden.
Qed.

(** The run of the repository's own test (two requests per sixty seconds,
    three calls in a row), followed by a call once the window has passed. *)
Lemma rate_limiter_sliding_window_witness :
  let t := 63900000000 * SECOND in
  (run (new 2 60) [("user1", t); ("user1", t + SECOND); ("user1", t + 2 * SECOND);
                   ("user2", t + 3 * SECOND); ("user1", t + 61 * SECOND)]).2
  = [true; true; false; true; true].
Proof.
  cbv zeta.
  rewrite (proj1 rate_limiter_sliding_window 2 60 0
             [("user1", 63900000000 * SECOND); ("user1", 63900000000 * SECOND + SECOND);
              ("user1", 63900000000 * SECOND + 2 * SECOND);
              ("user2", 63900000000 * SECOND + 3 * SECOND);
              ("user1", 63900000000 * SECOND + 61 * SECOND)]).
  - reflexivity.
  - vm_compute. repeat split; discriminate.
Defined.

(** A denied call does not extend the wait: after three denials the next
    call past the window is allowed all the same. *)
Example denial_not_recorded :
  let t := 63900000000 * SECOND in
  (run (new 1 60) [("user1", t); ("user1", t + 20 * SECOND); ("user1", t + 40 * SECOND);
                   ("user1", t + 59 * SECOND); ("user1", t + 60 * SECOND)]).2
  = [true; false; false; false; true].
Proof. vm_compute. reflexivity. Qed.

End Limiter.

(** * Further properties of the code *)

(** ** The users table (database.py add_user, get_user, import_csv_to_db) *)

Section UsersTable.
Import DatabaseUsers.

Lemma filter_slack_id_insert t name surname sid dept sid' :
  filter (λ r, u_slack_id r = sid')
    (users (insert_or_replace_user t name surname sid dept))
  = if decide (sid' = sid)
    then [ {| u_id := last_user_id t + 1; u_name := name; u_surname := surname;
              u_slack_id := sid; u_department := dept |} ]
    else filter (λ r, u_slack_id r = sid') (users t).
Proof.
  cbn [insert_or_replace_user users]. rewrite filter_app, filter_cons. cbn [u_slack_id].
  destruct (decide (sid' = sid)) as [->|Hne].
  - rewrite decide_True by done.
    replace (filter _ (filter _ (users t))) with (@nil user_row); [done|].
    symmetry. induction (users t) as [|r l IH]; [done|].
    rewrite filter_cons. destruct (decide (u_slack_id r ≠ sid)) as [H|H]; [|done].
    rewrite filter_cons, decide_False by done. done.
  - rewrite decide_False by (intros ?; by apply Hne). rewrite app_nil_r.
    induction (users t) as [|r l IH]; [done|].
    rewrite !filter_cons. destruct (decide (u_slack_id r = sid')) as [H|H].
    + rewrite decide_True by congruence. rewrite filter_cons, decide_True by done.
      by rewrite IH.
    + destruct (decide (u_slack_id r ≠ sid)); [|done].
      rewrite filter_cons, decide_False by done. done.
Qed.

Lemma get_user_insert t name surname sid dept sid' :
  get_user (insert_or_replace_user t name surname sid dept) sid'
  = if decide (sid' = sid) then Some (name, surname, dept) else get_user t sid'.
Proof.
  unfold get_user. rewrite filter_slack_id_insert.
  by destruct (decide (sid' = sid)).
Qed.

Lemma NoDup_slack_id_insert t name surname sid dept :
  NoDup (map u_slack_id (users t)) →
  NoDup (map u_slack_id (users (insert_or_replace_user t name surname sid dept))).
Proof.
  intros Hnd. cbn [insert_or_replace_user users]. rewrite map_app. cbn [map u_slack_id].
  apply NoDup_app. split; [|split].
  - induction (users t) as [|r l IH]; [constructor|].
    cbn [map] in Hnd. apply NoDup_cons in Hnd as [Hr Hl].
    rewrite filter_cons. destruct (decide (u_slack_id r ≠ sid)); [|by apply IH].
    cbn [map]. apply NoDup_cons. split; [|by apply IH].
    intros Hin. apply Hr.
    apply list_elem_of_In, in_map_iff in Hin as (r' & Heq & Hin).
    apply list_elem_of_In, in_map_iff. exists r'. split; [done|].
    apply list_elem_of_In. apply list_elem_of_In in Hin.
    by apply list_elem_of_filter in Hin as [_ ?].
  - intros x Hin Hx. apply list_elem_of_singleton in Hx as ->.
    apply list_elem_of_In, in_map_iff in Hin as (r' & Heq & Hin).
    apply list_elem_of_In, list_elem_of_filter in Hin as [Hne _]. done.
  - apply NoDup_singleton.
Qed.

(** X1.  add_user followed by get_user gives back exactly what was
    written, whether or not the user existed before; no other user's
    answer changes; and the UNIQUE constraint on slack_id is kept. *)
Theorem add_user_get_user (t : users_table) (slack_id : string)
    (name surname department : option string) :
  let t' := add_user t slack_id name surname department in
  get_user t' slack_id = Some (name, surname, department) ∧
  (∀ other, other ≠ slack_id → get_user t' other = get_user t other) ∧
  length (filter (λ r, u_slack_id r = slack_id) (users t')) = 1%nat ∧
  (NoDup (map u_slack_id (users t)) → NoDup (map u_slack_id (users t'))).
Proof.
  intros t'. unfold t', add_user. repeat split.
  - rewrite get_user_insert. by rewrite decide_True.
  - intros other Hne. rewrite get_user_insert. by rewrite decide_False.
  - rewrite filter_slack_id_insert. by rewrite decide_True.
  - apply NoDup_slack_id_insert.
Qed.

(** The last row of [rows] that carries the slack id, if any. *)
Lemma last_filter_cons {A} (P : A → Prop) `{∀ x, Decision (P x)} (x : A) (l : list A) :
  last (filter P (x :: l))
  = match last (filter P l) with
    | Some y => Some y
    | None => if decide (P x) then Some x else None
    end.
Proof.
  rewrite filter_cons. destruct (decide (P x)); [|by destruct (last _)].
  destruct (filter P l) as [|y l'] eqn:Hf; [done|].
  rewrite last_cons. by destruct (last (y :: l')).
Qed.

Lemma import_row_Some t row t' :
  import_row t row = Some t' →
  ∃ name surname sid dept,
    row !! "name" = Some name ∧ row !! "surname" = Some surname ∧
    row !! "slack_id" = Some (Some sid) ∧ row !! "department" = Some dept ∧
    t' = insert_or_replace_user t name surname sid dept.
Proof.
  unfold import_row.
  destruct (row !! "name") as [name|]; [|done].
  destruct (row !! "surname") as [surname|]; [|done].
  destruct (row !! "slack_id") as [[sid|]|]; try done.
  destruct (row !! "department") as [dept|]; [|done].
  intros [= <-]. by exists name, surname, sid, dept.
Qed.

Lemma import_rows_get_user rows : ∀ t t' sid,
  import_rows t rows = Some t' →
  get_user t' sid
  = match last (filter (λ row : csv_row, row !! "slack_id" = Some (Some sid)) rows) with
    | Some row => Some (default None (row !! "name"),
                        default None (row !! "surname"),
                        default None (row !! "department"))
    | None => get_user t sid
    end.
Proof.
  induction rows as [|row rows IH]; intros t t' sid Himp.
  - by injection Himp as <-.
  - cbn [import_rows] in Himp.
    destruct (import_row t row) as [t1|] eqn:Hrow; [|done].
    rewrite (IH _ _ sid Himp). rewrite last_filter_cons.
    destruct (last (filter _ rows)); [done|].
    apply import_row_Some in Hrow as (name & surname & sid' & dept & Hn & Hs & Hi & Hd & ->).
    rewrite get_user_insert.
    destruct (decide (sid = sid')) as [->|Hne].
    + rewrite decide_True by done. by rewrite Hn, Hs, Hd.
    + rewrite decide_False; [done|]. rewrite Hi. intros [=]. by apply Hne.
Qed.

Lemma import_rows_NoDup rows : ∀ t t',
  import_rows t rows = Some t' →
  NoDup (map u_slack_id (users t)) → NoDup (map u_slack_id (users t')).
Proof.
  induction rows as [|row rows IH]; intros t t' Himp Hnd.
  - by injection Himp as <-.
  - cbn [import_rows] in Himp.
    destruct (import_row t row) as [t1|] eqn:Hrow; [|done].
    apply (IH _ _ Himp).
    apply import_row_Some in Hrow as (? & ? & ? & ? & _ & _ & _ & _ & ->).
    by apply NoDup_slack_id_insert.
Qed.

(** X2.  After a successful import every slack id of the file answers
    with the fields of the last row that carries it (a later row replaces
    an earlier one), every other slack id answers as before, and slack ids
    stay unique. *)
Theorem import_csv_last_row_wins (t t' : users_table) (rows : list csv_row)
    (Himport : import_csv_to_db t (Some rows) = (t', true)) :
  (∀ sid,
     get_user t' sid
     = match last (filter (λ row : csv_row, row !! "slack_id" = Some (Some sid)) rows) with
       | Some row => Some (default None (row !! "name"),
                           default None (row !! "surname"),
                           default None (row !! "department"))
       | None => get_user t sid
       end) ∧
  (NoDup (map u_slack_id (users t)) → NoDup (map u_slack_id (users t'))).
Proof.
  unfold import_csv_to_db in Himport.
  destruct (import_rows t rows) as [t1|] eqn:Himp; [|done].
  injection Himport as <-. split.
  - intros sid. by apply import_rows_get_user.
  - by apply (import_rows_NoDup rows).
Qed.

Lemma import_csv_last_row_wins_witness :
  get_user (import_csv_to_db empty_users (Some SampleMore.ada_rows)).1 "U1"
  = Some (Some "Ada", Some "Byron", Some "Engines").
Proof.
  rewrite (proj1 (import_csv_last_row_wins empty_users
                    (import_csv_to_db empty_users (Some SampleMore.ada_rows)).1
                    SampleMore.ada_rows eq_refl) "U1").
  reflexivity.
Defined.

End UsersTable.

(** ** The poll tables over whole runs (bot.py, scheduler.py, database.py) *)

Section PollTables.
Import Database Scheduler Bot DatabaseUsers BotRuns.

Lemma get_poll_by_ts_id d ts p tp opts act chan :
  get_poll_by_ts d ts = Some (p, tp, opts, act, chan) → p ∈ map id (polls d).
Proof.
  unfold get_poll_by_ts.
  destruct (filter _ (polls d)) as [|r l] eqn:Hf; [done|].
  intros [= <- _ _ _ _].
  assert (Hr : r ∈ filter (λ r, message_ts r = ts) (polls d)) by (rewrite Hf; by left).
  apply list_elem_of_filter in Hr as [_ Hr].
  apply list_elem_of_In, in_map. by apply list_elem_of_In.
Qed.

Lemma map_id_close_poll d p : map id (polls (close_poll d p).1) = map id (polls d).
Proof.
  cbn [close_poll fst polls]. rewrite map_map. apply map_ext.
  intros r. by destruct (decide (id r = p)).
Qed.

Lemma close_poll_wf d p : db_wf d → db_wf (close_poll d p).1.
Proof.
  intros (Hv & [Hnd Hle] & Hfk). split; [done|]. split; [split|].
  - by rewrite map_id_close_poll.
  - cbn [close_poll fst polls last_poll_id].
    apply Forall_forall. intros r Hr.
    apply list_elem_of_In, in_map_iff in Hr as (r0 & <- & Hr0).
    apply list_elem_of_In in Hr0. rewrite Forall_forall in Hle.
    specialize (Hle r0 Hr0). by destruct (decide (id r0 = p)).
  - by rewrite map_id_close_poll.
Qed.

Lemma create_poll_wf d ch ts u tp opts e : db_wf d → db_wf (create_poll d ch ts u tp opts e).1.
Proof.
  intros (Hv & [Hnd Hle] & Hfk). split; [done|]. split; [split|];
    cbn [create_poll fst polls votes last_poll_id].
  - rewrite map_app. cbn [map id]. apply NoDup_app. split; [done|]. split.
    + intros x Hx Hx'. apply list_elem_of_singleton in Hx' as ->.
      apply list_elem_of_In, in_map_iff in Hx as (r & Hr & Hin).
      rewrite Forall_forall in Hle. apply list_elem_of_In in Hin.
      specialize (Hle r Hin). lia.
    + apply NoDup_singleton.
  - apply Forall_app. split.
    + eapply Forall_impl; [exact Hle|]. intros r Hr. simpl in Hr. lia.
    + apply Forall_singleton. cbn [id]. lia.
  - eapply Forall_impl; [exact Hfk|]. intros v Hin. simpl in Hin.
    rewrite map_app. apply elem_of_app. by left.
Qed.

Lemma NoDup_vote_key_filter (l : list vote_row) p u :
  NoDup (map vote_key l) →
  NoDup (map vote_key (filter (λ r, ¬ same_key p u r) l)) ∧
  (p, u) ∉ map vote_key (filter (λ r, ¬ same_key p u r) l).
Proof.
  induction l as [|r l IH]; [split; [constructor|by intros ?%elem_of_nil]|].
  cbn [map]. intros [Hr Hl]%NoDup_cons. destruct (IH Hl) as [IH1 IH2].
  rewrite filter_cons. destruct (decide (¬ same_key p u r)) as [Hk|Hk]; [|done].
  cbn [map]. split.
  - apply NoDup_cons. split; [|done]. intros Hin. apply Hr.
    apply list_elem_of_In, in_map_iff in Hin as (r' & Heq & Hin).
    apply list_elem_of_In, in_map_iff. exists r'. split; [done|].
    apply list_elem_of_In. apply list_elem_of_In in Hin.
    by apply list_elem_of_filter in Hin as [_ ?].
  - intros Hin. apply elem_of_cons in Hin as [Heq|Hin]; [|done].
    apply Hk. unfold same_key, vote_key in *. by injection Heq as <- <-.
Qed.

Lemma add_vote_wf d p u i : p ∈ map id (polls d) → db_wf d → db_wf (add_vote d p u i).1.
Proof.
  intros Hp (Hv & Hpolls & Hfk). split; [|split; [done|]];
    cbn [add_vote fst polls votes].
  - destruct (NoDup_vote_key_filter (votes d) p u Hv) as [H1 H2].
    rewrite map_app. cbn [map vote_key poll_id user_id].
    apply NoDup_app. split; [done|]. split; [|apply NoDup_singleton].
    intros x Hx Hx'. apply list_elem_of_singleton in Hx' as ->. done.
  - apply Forall_app. split; [|by apply Forall_singleton].
    rewrite Forall_forall in Hfk. apply Forall_forall.
    intros v [_ Hin]%list_elem_of_filter. by apply Hfk.
Qed.

Lemma bot_step_wf w e : db_wf (database w) → db_wf (database (bot_step w e)).
Proof.
  intros Hwf. destruct e as [c|a|ts delete_ok post_ok]; cbn [bot_step].
  - unfold handle_poll_command.
    destruct (pc_is_admin c); cbn [negb]; [|done].
    destruct (parse_params _) as [[[minutes tp] opts]|]; [|done].
    destruct (pc_post c) as [ts|]; [|done].
    destruct (poll_end_time _ _) as [end_time|]; [|done].
    set (w1 := with_db _ _).
    assert (H1 : db_wf (database w1)) by (by apply create_poll_wf).
    unfold schedule_poll_close.
    destruct (_global_scheduler w1); [|done].
    destruct (timedelta_minutes minutes); [|done].
    destruct (datetime_add _ _); [|done].
    destruct (pc_add_job_ok c); done.
  - unfold handle_vote_action.
    destruct (get_poll_by_ts _ _) as [[[[[p tp] opts] act] chan]|] eqn:Hp; [|done].
    destruct (decide (act = 0)); [done|].
    destruct (has_user_voted _ _ _); [done|].
    pose proof (add_vote_wf _ p (va_user_id a) (va_option_index a)
                  (get_poll_by_ts_id _ _ _ _ _ _ _ Hp) Hwf) as H1.
    cbn [add_vote]. destruct (py_index opts (va_option_index a)); exact H1.
  - unfold close_poll_task.
    destruct (get_poll_by_ts _ _) as [[[[[p tp] opts] act] chan]|]; [|done].
    destruct (decide (act = 0)); [done|].
    pose proof (close_poll_wf _ p Hwf) as H1.
    destruct delete_ok, post_ok; exact H1.
Qed.

(** X3.  Whatever /oylama commands, vote clicks and closure runs follow
    one another on empty tables, every state passed through keeps the
    constraints of the schema: at most one vote row per (poll, user), poll
    ids unique and within the AUTOINCREMENT sequence, and every vote row
    referring to a stored poll. *)
Theorem poll_tables_keep_schema (sched : option (list job)) (es : list bot_event) :
  Forall (λ w,
            NoDup (map vote_key (votes (database w))) ∧
            (NoDup (map id (polls (database w))) ∧
             Forall (λ r, id r ≤ last_poll_id (database w)) (polls (database w))) ∧
            Forall (λ v, poll_id v ∈ map id (polls (database w))) (votes (database w)))
         (bot_states (started sched) es).
Proof.
  assert (Hgen : ∀ es w, db_wf (database w) →
                         Forall (λ w, db_wf (database w)) (bot_states w es)).
  { clear es. induction es as [|e es IH]; intros w Hw; cbn [bot_states].
    - by apply Forall_singleton.
    - apply Forall_cons. split; [done|]. by apply IH, bot_step_wf. }
  apply Hgen. split; [constructor|]. split; [split; constructor|constructor].
Qed.

End PollTables.

(** ** What a result message counts (scheduler.py close_poll_task) *)

Section TallyTotals.
Import Database Scheduler Bot ResultReading.

Lemma total_shown_app l1 l2 : total_shown (l1 ++ l2) = total_shown l1 + total_shown l2.
Proof.
  unfold total_shown. induction l1 as [|x l1 IH]; cbn [app foldr]; [lia|].
  rewrite IH. lia.
Qed.

Lemma enumerate_snoc (opts : list string) x :
  enumerate (opts ++ [x]) = enumerate opts ++ [(length opts, x)].
Proof.
  unfold enumerate. rewrite imap_app. cbn [imap]. by rewrite Nat.add_0_r.
Qed.

Lemma count_in_range_succ (vs : list vote_row) p (n : nat) :
  length (filter (λ v, poll_id v = p ∧ 0 ≤ option_index v < Z.of_nat (S n)) vs)
  = Nat.add
      (length (filter (λ v, poll_id v = p ∧ 0 ≤ option_index v < Z.of_nat n) vs))
      (length (filter (λ v, poll_id v = p ∧ option_index v = Z.of_nat n) vs)).
Proof.
  induction vs as [|v vs IH]; [done|].
  rewrite !filter_cons.
  destruct (decide (poll_id v = p ∧ 0 ≤ option_index v < Z.of_nat (S n))) as [H|H];
    destruct (decide (poll_id v = p ∧ 0 ≤ option_index v < Z.of_nat n)) as [H1|H1];
    destruct (decide (poll_id v = p ∧ option_index v = Z.of_nat n)) as [H2|H2];
    cbn [length]; rewrite ?IH; lia.
Qed.

Lemma total_shown_lines d p (opts : list string) :
  total_shown (map (λ io : nat * string, (io.2, spec_count d p io.1)) (enumerate opts))
  = Z.of_nat (length (filter (λ v, poll_id v = p ∧
                                   0 ≤ option_index v < Z.of_nat (length opts))
                        (votes d))).
Proof.
  induction opts as [|x opts IH] using rev_ind.
  - cbn. replace (filter _ (votes d)) with (@nil vote_row); [done|].
    symmetry. induction (votes d) as [|v vs IHv]; [done|].
    rewrite filter_cons, decide_False by (cbn; lia). exact IHv.
  - rewrite enumerate_snoc, map_app, total_shown_app, IH. cbn [map total_shown foldr snd fst].
    rewrite length_app. cbn [length]. rewrite Nat.add_1_r, count_in_range_succ.
    unfold spec_count. lia.
Qed.

(** X4.  The counts of a result message add up to the number of stored
    votes of the poll whose option index lies within the option list: each
    such vote is counted once, and a vote with an index outside the list is
    counted nowhere. *)
Theorem result_counts_in_range_votes (d : db) (p : Z) (tp : string) (opts : list string) :
  total_shown (rt_lines (make_result_text tp (get_poll_results d p) opts))
  = Z.of_nat (length (filter (λ v, poll_id v = p ∧
                                   0 ≤ option_index v < Z.of_nat (length opts))
                        (votes d))).
Proof.
  rewrite make_result_text_spec. cbn [rt_lines]. apply total_shown_lines.
Qed.

Lemma spec_count_pos d p i :
  0 < spec_count d p i ↔
  ∃ v, v ∈ votes d ∧ poll_id v = p ∧ option_index v = Z.of_nat i.
Proof.
  unfold spec_count. split.
  - intros Hpos.
    destruct (filter _ (votes d)) as [|v l] eqn:Hf; [cbn in Hpos; lia|].
    assert (Hv : v ∈ filter (λ r, poll_id r = p ∧ option_index r = Z.of_nat i) (votes d))
      by (rewrite Hf; by left).
    apply list_elem_of_filter in Hv as [[? ?] ?]. eauto.
  - intros (v & Hin & Hp & Hi).
    assert (Hv : v ∈ filter (λ r, poll_id r = p ∧ option_index r = Z.of_nat i) (votes d))
      by (by apply list_elem_of_filter).
    destruct (filter _ (votes d)); [by apply elem_of_nil in Hv|]. cbn [length]. lia.
Qed.

(** X5.  The result message names a winner exactly when the poll has at
    least one stored vote whose option index lies within the option list;
    otherwise (no vote, or only votes outside the list) it says that no
    vote was cast. *)
Theorem winner_named_iff_vote_in_range (d : db) (p : Z) (tp : string) (opts : list string) :
  let r := make_result_text tp (get_poll_results d p) opts in
  ((∃ names, rt_footer r = Kazanan names) ↔
   (∃ v, v ∈ votes d ∧ poll_id v = p ∧ 0 ≤ option_index v < Z.of_nat (length opts))) ∧
  (rt_footer r = HicOyKullanilmadi ↔
   ¬ (∃ v, v ∈ votes d ∧ poll_id v = p ∧ 0 ≤ option_index v < Z.of_nat (length opts))).
Proof.
  intros r. unfold r. rewrite make_result_text_spec. cbn [rt_footer].
  assert (Hmax : spec_max d p opts > 0 ↔
                 ∃ v, v ∈ votes d ∧ poll_id v = p ∧
                      0 ≤ option_index v < Z.of_nat (length opts)).
  { split.
    - intros Hpos. destruct opts as [|o opts]; [cbn in Hpos; lia|].
      destruct (spec_max_attained d p (o :: opts)) as (i & opt & Hi & Hc); [done|].
      assert (Hcp : 0 < spec_count d p i) by lia.
      apply spec_count_pos in Hcp as (v & Hin & Hp & Hidx).
      exists v. repeat split; try done; [lia|].
      apply lookup_lt_Some in Hi. lia.
    - intros (v & Hin & Hp & Hrange).
      destruct (lookup_lt_is_Some_2 opts (Z.to_nat (option_index v))) as [opt Hopt]; [lia|].
      pose proof (spec_max_upper d p opts _ _ Hopt) as Hle.
      assert (Hcp : 0 < spec_count d p (Z.to_nat (option_index v))).
      { apply spec_count_pos. exists v. repeat split; try done. lia. }
      lia. }
  destruct (decide (spec_max d p opts > 0)) as [Hpos|Hnp]; split; split.
  - intros _. by apply Hmax.
  - intros _. eauto.
  - done.
  - intros Hno. destruct Hno. by apply Hmax.
  - intros [names Hn]. done.
  - intros Hv. destruct Hnp. by apply Hmax.
  - intros _ Hv. apply Hnp. by apply Hmax.
  - done.
Qed.

End TallyTotals.

(** ** Closed polls stay closed (bot.py, scheduler.py) *)

Section ClosedPolls.
Import Database Scheduler Bot DatabaseUsers BotRuns.

(** The row behind an answer of get_poll_by_ts. *)
Lemma get_poll_by_ts_row d ts p tp opts act chan :
  get_poll_by_ts d ts = Some (p, tp, opts, act, chan) →
  ∃ r, r ∈ polls d ∧ id r = p ∧ is_active r = act ∧ message_ts r = ts ∧
       topic r = tp ∧ options r = opts ∧ channel_id r = chan.
Proof.
  unfold get_poll_by_ts.
  destruct (filter _ (polls d)) as [|r l] eqn:Hf; [done|].
  intros [= <- <- <- <- <-]. exists r.
  assert (Hr : r ∈ filter (λ r, message_ts r = ts) (polls d)) by (rewrite Hf; by left).
  apply list_elem_of_filter in Hr as [? ?]. done.
Qed.

(** Rows of one table with the same id are the same row. *)
Lemma NoDup_id_same_row (l : list poll_row) r1 r2 :
  NoDup (map id l) → r1 ∈ l → r2 ∈ l → id r1 = id r2 → r1 = r2.
Proof.
  induction l as [|r l IH]; [by intros _ ?%elem_of_nil|].
  cbn [map]. intros [Hr Hl]%NoDup_cons H1 H2 Heq.
  apply elem_of_cons in H1 as [->|H1]; apply elem_of_cons in H2 as [->|H2]; try done.
  - destruct Hr. rewrite Heq. apply list_elem_of_In, in_map. by apply list_elem_of_In.
  - destruct Hr. rewrite <- Heq. apply list_elem_of_In, in_map. by apply list_elem_of_In.
  - by apply IH.
Qed.

Lemma filter_poll_add_vote_other (vs : list vote_row) p p' u i :
  p' ≠ p →
  filter (λ v, poll_id v = p)
    (filter (λ r, ¬ same_key p' u r) vs ++ [vote p' u i])
  = filter (λ v, poll_id v = p) vs.
Proof.
  intros Hne. rewrite filter_app, filter_cons. cbn [vote poll_id].
  rewrite decide_False by done. rewrite app_nil_r.
  induction vs as [|v vs IH]; [done|].
  rewrite !filter_cons. destruct (decide (¬ same_key p' u v)) as [Hk|Hk].
  - rewrite filter_cons. destruct (decide (poll_id v = p)); by rewrite IH.
  - rewrite decide_False; [done|].
    intros Hp. apply Hk. intros [Hp' _]. congruence.
Qed.

Lemma bot_step_frozen p vs w e : frozen p vs w → frozen p vs (bot_step w e).
Proof.
  intros (Hwf & (r & Hr & Hid & Hact) & Hvs).
  split; [by apply bot_step_wf|].
  destruct e as [c|a|ts delete_ok post_ok]; cbn [bot_step].
  - unfold handle_poll_command.
    destruct (pc_is_admin c); cbn [negb]; [|by split; eauto].
    destruct (parse_params _) as [[[minutes tp] opts]|]; [|by split; eauto].
    destruct (pc_post c) as [ts|]; [|by split; eauto].
    destruct (poll_end_time _ _) as [end_time|]; [|by split; eauto].
    set (w1 := with_db _ _).
    assert (H1 : (∃ r, r ∈ polls (database w1) ∧ id r = p ∧ is_active r = 0) ∧
                 filter (λ v, poll_id v = p) (votes (database w1)) = vs).
    { split; [|done]. exists r. split; [|done].
      cbn [w1 with_db database create_poll fst polls]. apply elem_of_app. by left. }
    unfold schedule_poll_close.
    destruct (_global_scheduler w1); [|done].
    destruct (timedelta_minutes minutes); [|done].
    destruct (datetime_add _ _); [|done].
    destruct (pc_add_job_ok c); done.
  - unfold handle_vote_action.
    destruct (get_poll_by_ts _ _) as [[[[[p' tp] opts] act] chan]|] eqn:Hp;
      [|by split; eauto].
    destruct (decide (act = 0)); [by split; eauto|].
    destruct (has_user_voted _ _ _); [by split; eauto|].
    assert (Hne : p' ≠ p).
    { intros ->. apply get_poll_by_ts_row in Hp as (r' & Hr' & Hid' & Hact' & _).
      destruct Hwf as (_ & [Hnd _] & _).
      assert (r' = r) by (apply (NoDup_id_same_row _ _ _ Hnd Hr' Hr); congruence).
      subst r'. congruence. }
    cbn [add_vote].
    assert (H1 : ∀ w2, database w2 = (add_vote (database w) p' (va_user_id a)
                                        (va_option_index a)).1 →
                 (∃ r, r ∈ polls (database w2) ∧ id r = p ∧ is_active r = 0) ∧
                 filter (λ v, poll_id v = p) (votes (database w2)) = vs).
    { intros w2 ->. split; [by exists r|].
      cbn [add_vote fst votes]. by rewrite (filter_poll_add_vote_other _ p p'). }
    destruct (py_index opts (va_option_index a)); by apply H1.
  - unfold close_poll_task.
    destruct (get_poll_by_ts _ _) as [[[[[p' tp] opts] act] chan]|]; [|by split; eauto].
    destruct (decide (act = 0)); [by split; eauto|].
    assert (H1 : (∃ r, r ∈ polls (close_poll (database w) p').1 ∧ id r = p ∧ is_active r = 0)
                 ∧ filter (λ v, poll_id v = p) (votes (close_poll (database w) p').1) = vs).
    { split; [|done]. cbn [close_poll fst polls].
      exists (if decide (id r = p') then set_inactive r else r).
      split; [|by destruct (decide (id r = p'))].
      apply list_elem_of_In, in_map_iff. exists r. split; [done|by apply list_elem_of_In]. }
    destruct delete_ok, post_ok; exact H1.
Qed.

(** X6.  A closed poll is terminal: from a state that keeps the schema's
    constraints and in which the poll is inactive, no later command, click
    or closure run changes the stored votes of that poll. *)
Theorem closed_poll_votes_frozen (w : world) (p : Z) (r : poll_row) (es : list bot_event)
    (Hwf : db_wf (database w))
    (Hrow : r ∈ polls (database w))
    (Hid : id r = p)
    (Hclosed : is_active r = 0) :
  Forall (λ w', filter (λ v, poll_id v = p) (votes (database w'))
                = filter (λ v, poll_id v = p) (votes (database w)))
         (bot_states w es).
Proof.
  assert (Hgen : ∀ vs es w, frozen p vs w →
                 Forall (λ w', filter (λ v, poll_id v = p) (votes (database w')) = vs)
                        (bot_states w es)).
  { clear. intros vs es. induction es as [|e es IH]; intros w Hw; cbn [bot_states].
    - apply Forall_singleton. by destruct Hw as (_ & _ & ?).
    - apply Forall_cons. split; [by destruct Hw as (_ & _ & ?)|].
      by apply IH, bot_step_frozen. }
  apply Hgen. split; [done|]. split; [by exists r|done].
Qed.

Lemma closed_poll_votes_frozen_witness :
  filter (λ v, poll_id v = 1)
    (votes (database (bot_step closed_lunch_world
                        (ev_vote_action (click "B" "1700.01" "C1" 1)))))
  = filter (λ v, poll_id v = 1) (votes (database closed_lunch_world)).
Proof.
  assert (Hwf : db_wf (database closed_lunch_world)).
  { split; [by apply (bool_decide_unpack _)|]. split; [split|].
    - by apply (bool_decide_unpack _).
    - by apply (bool_decide_unpack _).
    - by apply (bool_decide_unpack _). }
  pose proof (closed_poll_votes_frozen closed_lunch_world 1
                (set_inactive Sample.lunch_poll)
                [ev_vote_action (click "B" "1700.01" "C1" 1)]
                Hwf ltac:(by left) eq_refl eq_refl) as H.
  cbn [bot_states] in H.
  apply Forall_cons in H as [_ H]. apply Forall_cons in H as [H _].
  exact H.
Defined.

End ClosedPolls.

(** ** From the command to the click (bot.py, database.py) *)

Section CommandToClick.
Import Database Scheduler Bot DatabaseUsers BotRuns.

Lemma get_poll_by_ts_create_poll d ch ts u tp opts e ts' :
  get_poll_by_ts (create_poll d ch ts u tp opts e).1 ts'
  = match get_poll_by_ts d ts' with
    | Some x => Some x
    | None => if decide (ts = ts')
              then Some (last_poll_id d + 1, tp, opts, 1, ch)
              else None
    end.
Proof.
  unfold get_poll_by_ts. cbn [create_poll fst polls].
  rewrite filter_app, filter_cons. cbn [message_ts].
  destruct (filter _ (polls d)) as [|r l]; [|done].
  by destruct (decide (ts = ts')).
Qed.

(** X7.  create_poll hands out an id that no stored poll has and keeps
    the polls table well formed.  The new poll is found under its message
    reference, open, when no stored poll had that reference; when one had,
    get_poll_by_ts keeps answering with the older poll, so the new poll is
    unreachable through its message; every other reference answers as
    before. *)
Theorem create_poll_fresh_id_and_lookup (d : db) (ch ts u tp : string)
    (opts : list string) (e : Z)
    (Hwf : polls_wf d) :
  let r := create_poll d ch ts u tp opts e in
  (r.2 ∉ map id (polls d)) ∧
  polls_wf r.1 ∧
  (get_poll_by_ts d ts = None → get_poll_by_ts r.1 ts = Some (r.2, tp, opts, 1, ch)) ∧
  (∀ x, get_poll_by_ts d ts = Some x → get_poll_by_ts r.1 ts = Some x) ∧
  (∀ ts', ts' ≠ ts → get_poll_by_ts r.1 ts' = get_poll_by_ts d ts').
Proof.
  intros r. destruct Hwf as [Hnd Hle]. split; [|split; [|split; [|split]]].
  - intros Hin. apply list_elem_of_In, in_map_iff in Hin as (r0 & Hid & Hin).
    rewrite Forall_forall in Hle. apply list_elem_of_In in Hin.
    specialize (Hle r0 Hin). cbn in Hid. lia.
  - assert (Hdb : db_wf {| polls := polls d; votes := []; last_poll_id := last_poll_id d |}).
    { split; [constructor|]. split; [by split|constructor]. }
    apply (create_poll_wf _ ch ts u tp opts e) in Hdb as (_ & Hp & _). exact Hp.
  - intros Hnone. unfold r. rewrite get_poll_by_ts_create_poll, Hnone.
    by rewrite decide_True.
  - intros x Hx. unfold r. by rewrite get_poll_by_ts_create_poll, Hx.
  - intros ts' Hne. unfold r. rewrite get_poll_by_ts_create_poll.
    destruct (get_poll_by_ts d ts'); [done|]. by rewrite decide_False.
Qed.

Lemma create_poll_fresh_id_and_lookup_witness :
  get_poll_by_ts (create_poll (database Sample.lunch_world) "C2" "1700.01" "ADMIN"
                    "Dinner" ["Soup"; "Rice"] 63900000600).1 "1700.01"
  = Some (1, "Lunch", ["Kebap"; "Pizza"], 1, "C1").
Proof.
  refine (proj1 (proj2 (proj2 (proj2
            (create_poll_fresh_id_and_lookup (database Sample.lunch_world) "C2" "1700.01"
               "ADMIN" "Dinner" ["Soup"; "Rice"] 63900000600 _)))) _ eq_refl).
  split; by apply (bool_decide_unpack _).
Defined.

Lemma handle_poll_command_database w c minutes tp opts ts end_time :
  pc_is_admin c = true →
  parse_params (PyStr.strip (pc_text c)) = Ok (minutes, tp, opts) →
  pc_post c = Some ts →
  poll_end_time (pc_now c) minutes = Ok end_time →
  database (handle_poll_command w c)
  = (create_poll (database w) (pc_channel_id c) ts (pc_user_id c) tp opts end_time).1.
Proof.
  intros Hadmin Hparse Hpost Hend. unfold handle_poll_command.
  rewrite Hadmin, Hparse, Hpost. cbn [negb].
  change (database (send w _)) with (database w). rewrite Hend.
  set (w1 := with_db _ _). unfold schedule_poll_close.
  destruct (_global_scheduler w1); [|done].
  destruct (timedelta_minutes minutes); [|done].
  destruct (datetime_add _ _); [|done].
  destruct (pc_add_job_ok c); done.
Qed.

Lemma has_user_voted_fresh_poll d p u :
  Forall (λ v, poll_id v ≠ p) (votes d) → has_user_voted d p u = false.
Proof.
  intros Hv. apply filter_nil_iff_not_voted.
  induction (votes d) as [|v vs IH]; [done|].
  apply Forall_cons in Hv as [Hv Hvs].
  rewrite filter_cons, decide_False by (intros [? _]; done). by apply IH.
Qed.

(** X8.  The buttons of a poll message and the click handler agree.  When
    an admin's /oylama is accepted under a message reference no stored poll
    has, the message carries for every option its label and position, and a
    click on the button in position i by any user stores the vote for
    option i of the new poll and is acknowledged with the label of that very
    option. *)
Theorem button_selects_its_option (w : world) (c : poll_command)
    (minutes : Z) (tp : string) (opts : list string) (ts : string) (end_time : Z)
    (u ch : string) (i : nat) (opt : string)
    (Hwf : db_wf (database w))
    (Hadmin : pc_is_admin c = true)
    (Hparse : parse_params (PyStr.strip (pc_text c)) = Ok (minutes, tp, opts))
    (Hpost : pc_post c = Some ts)
    (Hend : poll_end_time (pc_now c) minutes = Ok end_time)
    (Hfresh : get_poll_by_ts (database w) ts = None)
    (Hopt : opts !! i = Some opt) :
  let w1 := handle_poll_command w c in
  let p := last_poll_id (database w) + 1 in
  (∃ buttons,
     chat_postPoll (pc_channel_id c) tp minutes (pc_user_id c) buttons ∈ sent w1 ∧
     buttons !! i = Some (opt, Z.of_nat i)) ∧
  handle_vote_action w1 (click u ts ch (Z.of_nat i))
  = (send (with_db w1 (add_vote (database w1) p u (Z.of_nat i)).1)
       (chat_postEphemeral ch u (TxtVoteSaved opt)), Ok ()) ∧
  filter (same_key p u) (votes (add_vote (database w1) p u (Z.of_nat i)).1)
  = [vote p u (Z.of_nat i)].
Proof.
  intros w1 p.
  pose proof (handle_poll_command_database w c _ _ _ _ _ Hadmin Hparse Hpost Hend) as Hdb.
  fold w1 in Hdb.
  assert (Hpoll : get_poll_by_ts (database w1) ts = Some (p, tp, opts, 1, pc_channel_id c)).
  { rewrite Hdb, get_poll_by_ts_create_poll, Hfresh. by rewrite decide_True. }
  assert (Hnv : has_user_voted (database w1) p u = false).
  { apply has_user_voted_fresh_poll. rewrite Hdb. cbn [create_poll fst votes].
    destruct Hwf as (_ & [_ Hle] & Hfk).
    pose proof (proj1 (Forall_forall _ _) Hfk) as Hfk'.
    pose proof (proj1 (Forall_forall _ _) Hle) as Hle'.
    clear Hfk Hle. rename Hfk' into Hfk, Hle' into Hle.
    apply Forall_forall. intros v Hv Hp.
    specialize (Hfk v Hv). cbn beta in Hfk. apply list_elem_of_In, in_map_iff in Hfk as (r & Hr & Hin).
    apply list_elem_of_In in Hin. specialize (Hle r Hin). cbn beta in Hle. unfold p in Hp. lia. }
  split; [|split].
  - exists (imap (λ i opt, (opt, Z.of_nat i)) opts). split.
    + unfold w1, handle_poll_command. rewrite Hadmin, Hparse, Hpost. cbn [negb].
      change (database (send w _)) with (database w). rewrite Hend.
      set (w2 := with_db _ _).
      assert (Hin : chat_postPoll (pc_channel_id c) tp minutes (pc_user_id c)
                      (imap (λ i opt, (opt, Z.of_nat i)) opts) ∈ sent w2).
      { cbn [w2 with_db send sent]. apply elem_of_app. right. by left. }
      unfold schedule_poll_close.
      destruct (_global_scheduler w2); [|done].
      destruct (timedelta_minutes minutes);
        [|cbn [send sent]; apply elem_of_app; by left].
      destruct (datetime_add _ _);
        [|cbn [send sent]; apply elem_of_app; by left].
      destruct (pc_add_job_ok c); [done|].
      cbn [send sent]. apply elem_of_app. by left.
    + by rewrite list_lookup_imap, Hopt.
  - rewrite (handle_vote_action_open w1 (click u ts ch (Z.of_nat i)) p tp opts 1
               (pc_channel_id c) Hpoll ltac:(done)).
    cbn [click va_user_id va_option_index va_channel]. rewrite Hnv.
    assert (Hidx : py_index opts (Z.of_nat i) = Ok opt).
    { unfold py_index. pose proof (lookup_lt_Some _ _ _ Hopt).
      rewrite (decide_False (P := Z.of_nat i < 0)) by lia.
      rewrite decide_True by lia. by rewrite Nat2Z.id, Hopt. }
    by rewrite Hidx.
  - apply add_vote_single_row.
Qed.

Lemma button_selects_its_option_witness :
  let w1 := handle_poll_command Sample.fresh_world
              (Sample.admin_command "10 Lunch | Kebap | Pizza") in
  handle_vote_action w1 (click "U7" "1700.01" "C1" 1)
  = (send (with_db w1 (add_vote (database w1) 1 "U7" 1).1)
       (chat_postEphemeral "C1" "U7" (TxtVoteSaved "Pizza")), Ok ()).
Proof.
  refine (proj1 (proj2 (button_selects_its_option Sample.fresh_world
            (Sample.admin_command "10 Lunch | Kebap | Pizza")
            10 "Lunch" ["Kebap"; "Pizza"] "1700.01" 63900000600 "U7" "C1" 1%nat "Pizza"
            _ eq_refl eq_refl eq_refl eq_refl eq_refl eq_refl))).
  split; [constructor|]. split; [split; constructor|constructor].
Defined.

End CommandToClick.

(** ** The list of active polls (database.py close_poll, get_active_polls) *)

Section ActivePolls.
Import Database Scheduler Bot DatabaseUsers.

(** X9.  close_poll takes exactly the poll with the given id off the list
    get_active_polls returns: every other active poll stays listed with the
    same fields, nothing is added, and the votes are untouched.  Closing a
    second time changes nothing. *)
Theorem close_poll_active_list (d : db) (p : Z) :
  (∀ i ch ts tp opts e,
     (i, ch, ts, tp, opts, e) ∈ get_active_polls (close_poll d p).1 ↔
     (i, ch, ts, tp, opts, e) ∈ get_active_polls d ∧ i ≠ p) ∧
  votes (close_poll d p).1 = votes d ∧
  close_poll (close_poll d p).1 p = close_poll d p.
Proof.
  split; [|split]; [|done|].
  - intros i ch ts tp opts e. unfold get_active_polls.
    rewrite !list_elem_of_In, !in_map_iff. cbn [close_poll fst polls]. split.
    + intros (r & Hr & Hin). apply list_elem_of_In, list_elem_of_filter in Hin as [Hact Hin].
      apply list_elem_of_In, in_map_iff in Hin as (r0 & <- & Hin0).
      destruct (decide (id r0 = p)) as [Hp|Hp]; [done|].
      injection Hr as <- <- <- <- <- <-. split; [|done].
      exists r0. split; [done|].
      apply list_elem_of_In, list_elem_of_filter. split; [done|by apply list_elem_of_In].
    + intros [(r & Hr & Hin) Hne].
      apply list_elem_of_In, list_elem_of_filter in Hin as [Hact Hin].
      injection Hr as <- <- <- <- <- <-.
      exists r. split; [done|].
      apply list_elem_of_In, list_elem_of_filter. split; [done|].
      apply list_elem_of_In, in_map_iff. exists r.
      rewrite decide_False by done. split; [done|by apply list_elem_of_In].
  - unfold close_poll. cbn [fst polls votes last_poll_id]. f_equal. f_equal.
    rewrite map_map. apply map_ext. intros r.
    destruct (decide (id r = p)) as [Hp|Hp].
    + cbn [set_inactive id]. by rewrite decide_True.
    + by rewrite decide_False.
Qed.

End ActivePolls.

(** ** Names and registration (bot.py) *)

Section Registration.
Import DatabaseUsers BotUsers.

Lemma add_user_get_user_lemma t sid n s d :
  get_user (add_user t sid n s d) sid = Some (n, s, d) ∧
  (∀ other, other ≠ sid → get_user (add_user t sid n s d) other = get_user t other).
Proof.
  unfold add_user. split.
  - rewrite get_user_insert. by rewrite decide_True.
  - intros other Hne. rewrite get_user_insert. by rewrite decide_False.
Qed.

Lemma lstrip_head c s s' : PyStr.lstrip s = String c s' → PyStr.is_space c = false.
Proof.
  induction s as [|c0 s0 IH]; cbn [PyStr.lstrip]; [done|].
  destruct (PyStr.is_space c0) eqn:Hc0; [exact IH|].
  by intros [= <- <-].
Qed.

(** The word span_word cuts off has no whitespace, the rest starts with
    whitespace or is empty, and together they are the string. *)
Lemma span_word_spec s :
  let '(w, r) := PyStr.span_word s in
  s = w +:+ r ∧ no_space w = true ∧
  match r with
  | EmptyString => True
  | String c _ => PyStr.is_space c = true
  end.
Proof.
  induction s as [|c s IH]; cbn [PyStr.span_word]; [done|].
  destruct (PyStr.is_space c) eqn:Hc; [done|].
  destruct (PyStr.span_word s) as [w r]. destruct IH as (-> & Hw & Hr).
  split; [done|]. split; [|done].
  change (negb (PyStr.is_space c) && no_space w = true). by rewrite Hc, Hw.
Qed.

Lemma span_word_nonempty c s : PyStr.is_space c = false →
  (PyStr.span_word (String c s)).1 ≠ EmptyString.
Proof.
  intros Hc. cbn [PyStr.span_word]. rewrite Hc.
  by destruct (PyStr.span_word s).
Qed.

(** span_word cuts a whitespace-free word off the front of what follows
    it. *)
Lemma span_word_app w c r :
  no_space w = true → PyStr.is_space c = true →
  PyStr.span_word (w +:+ String c r) = (w, String c r).
Proof.
  intros Hw Hc. induction w as [|c0 w IH].
  - change (EmptyString +:+ String c r) with (String c r).
    cbn [PyStr.span_word]. by rewrite Hc.
  - change (String c0 w +:+ String c r) with (String c0 (w +:+ String c r)).
    cbn [PyStr.span_word].
    change (negb (PyStr.is_space c0) && no_space w = true) in Hw.
    apply andb_true_iff in Hw as [Hc0 Hw].
    apply negb_true_iff in Hc0. rewrite Hc0, IH by done. done.
Qed.

Lemma lstrip_no_space_head c s : PyStr.is_space c = false →
  PyStr.lstrip (String c s) = String c s.
Proof. intros Hc. cbn [PyStr.lstrip]. by rewrite Hc. Qed.

Lemma length_split_maxsplit n s : (length (split_maxsplit n s) ≤ n + 1)%nat.
Proof.
  revert s. induction n as [|n IH]; intros s; cbn [split_maxsplit].
  - destruct (PyStr.lstrip s); cbn; lia.
  - destruct (PyStr.lstrip s) as [|c s1]; [cbn; lia|].
    destruct (PyStr.span_word (String c s1)) as [w r].
    cbn [length]. specialize (IH r). lia.
Qed.

(** The parts of [split(maxsplit=2)] when there are three of them: two
    words and a remainder that is not empty. *)
Lemma split_maxsplit_2_parts s a b d :
  split_maxsplit 2 s = [a; b; d] →
  (a ≠ EmptyString ∧ no_space a = true) ∧
  (b ≠ EmptyString ∧ no_space b = true) ∧
  d ≠ EmptyString.
Proof.
  cbn [split_maxsplit].
  destruct (PyStr.lstrip s) as [|c1 s1] eqn:H1; [done|].
  pose proof (span_word_spec (String c1 s1)) as Hs1.
  pose proof (span_word_nonempty c1 s1 (lstrip_head _ _ _ H1)) as Hn1.
  destruct (PyStr.span_word (String c1 s1)) as [w1 r1].
  destruct (PyStr.lstrip r1) as [|c2 s2] eqn:H2; [done|].
  pose proof (span_word_spec (String c2 s2)) as Hs2.
  pose proof (span_word_nonempty c2 s2 (lstrip_head _ _ _ H2)) as Hn2.
  destruct (PyStr.span_word (String c2 s2)) as [w2 r2].
  destruct (PyStr.lstrip r2) as [|c3 s3] eqn:H3; [done|].
  intros [= <- <- <-]. destruct Hs1 as (_ & ? & _), Hs2 as (_ & ? & _). done.
Qed.

Lemma first_word_of_full_name a b :
  a ≠ EmptyString → no_space a = true →
  first_word (Some (a +:+ " " +:+ b)) = Some a.
Proof.
  intros Hne Hns. unfold first_word, split_words.
  destruct a as [|c a]; [done|].
  pose proof Hns as Hns'.
  change (negb (PyStr.is_space c) && no_space a = true) in Hns.
  apply andb_true_iff in Hns as [Hc Ha].
  apply negb_true_iff in Hc.
  change (String c a +:+ " " +:+ b) with (String c (a +:+ String " " b)).
  cbn [String.length split_maxsplit].
  rewrite lstrip_no_space_head by done.
  change (String c (a +:+ String " " b)) with (String c a +:+ String " " b).
  by rewrite span_word_app.
Qed.

(** X10.  /save-me with a name, a surname and a department (the
    department may contain spaces) stores them under the caller's slack id:
    afterwards get_user returns the three parts, get_display_name returns
    "name surname" with the department without asking Slack, and
    /my-department greets with the name and shows the department.  With
    fewer than three parts nothing is stored and the usage text is sent.
    The text is one whose whitespace is all ASCII, where the string model
    cuts it as Python does. *)
Theorem register_then_lookup (t : users_table) (user_id channel_id body_text : string)
    (info : option users_info)
    (Htext : PyStr.ascii_spaced body_text = true) :
  let parts := split_maxsplit 2 (PyStr.strip body_text) in
  let r := handle_register_user t user_id channel_id body_text in
  (∀ a b d, parts = [a; b; d] →
     r.2 = [u_postEphemeral channel_id user_id (TxtSaved a b d)] ∧
     get_user r.1 user_id = Some (Some a, Some b, Some d) ∧
     (∀ other, other ≠ user_id → get_user r.1 other = get_user t other) ∧
     get_display_name r.1 info user_id = (Some (a +:+ " " +:+ b), Some d) ∧
     handle_my_department r.1 info user_id channel_id
     = [u_postEphemeral channel_id user_id (TxtDepartment a d)]) ∧
  ((length parts < 3)%nat →
     r = (t, [u_postEphemeral channel_id user_id TxtSaveUsage])) ∧
  (length parts ≤ 3)%nat.
Proof.
  intros parts r. split; [|split].
  - intros a b d Hparts.
    assert (Hr : r = (add_user t user_id (Some a) (Some b) (Some d),
                      [u_postEphemeral channel_id user_id (TxtSaved a b d)])).
    { unfold r, handle_register_user. fold parts. by rewrite Hparts. }
    rewrite Hr. cbn [fst snd].
    destruct (add_user_get_user_lemma t user_id (Some a) (Some b) (Some d)) as [Hget Hother].
    apply split_maxsplit_2_parts in Hparts as ((Ha & Hna) & _ & Hd).
    assert (Hname : get_display_name (add_user t user_id (Some a) (Some b) (Some d))
                      info user_id = (Some (a +:+ " " +:+ b), Some d)).
    { unfold get_display_name. by rewrite Hget. }
    repeat split; try done.
    unfold handle_my_department. rewrite Hname.
    rewrite first_word_of_full_name by done.
    cbn [truthy fmt default]. by rewrite bool_decide_eq_false_2.
  - intros Hlen. unfold r, handle_register_user. fold parts.
    destruct parts as [|a [|b [|d [|? ?]]]]; try done; cbn in Hlen; lia.
  - apply (length_split_maxsplit 2).
Qed.

Lemma register_then_lookup_witness :
  let r := handle_register_user empty_users "U1" "C1" "  Cemil Yilmaz Yazilim Gelistirme " in
  get_user r.1 "U1" = Some (Some "Cemil", Some "Yilmaz", Some "Yazilim Gelistirme") ∧
  handle_my_department r.1 None "U1" "C1"
  = [u_postEphemeral "C1" "U1" (TxtDepartment "Cemil" "Yazilim Gelistirme")].
Proof.
  pose proof (proj1 (register_then_lookup empty_users "U1" "C1"
                       "  Cemil Yilmaz Yazilim Gelistirme " None eq_refl)
                "Cemil" "Yilmaz" "Yazilim Gelistirme" eq_refl)
    as (_ & Hget & _ & _ & Hdept).
  split; [exact Hget|exact Hdept].
Defined.

End Registration.

(** ** The coffee invitation (bot.py handle_join_coffee) *)

Section JoinCoffee.
Import DatabaseUsers BotUsers.

Ltac elem_cases H :=
  repeat (first [ apply elem_of_app in H as [H|H]
                | apply elem_of_cons in H as [H|H]
                | apply elem_of_nil in H; destruct H ]).

(** X11.  Nobody is paired with themselves: a click by the inviter gets
    the one notice and nothing else; every conversation the handler opens
    is between the inviter and a different user who clicked, comes after
    the invitation message was rewritten, and there is at most one per
    click.  When every call succeeds the handler rewrites the invitation,
    opens the conversation and posts the ice breaker there, in this
    order. *)
Theorem join_coffee_pairs_two_users (t : users_table) (c : join_click) :
  let calls := handle_join_coffee t c in
  (jc_user1_id c = jc_user2_id c →
     calls = [u_postEphemeral (jc_channel_id c) (jc_user2_id c) TxtOwnInvitation]) ∧
  (∀ users ch, u_conversations_open users ch ∈ calls →
     users = [jc_user1_id c; jc_user2_id c] ∧
     jc_user1_id c ≠ jc_user2_id c ∧
     jc_open c = Some ch ∧
     ∃ names, calls !! 0%nat = Some (u_update (jc_channel_id c) (jc_message_ts c) names) ∧
              calls !! 1%nat = Some (u_conversations_open users ch)) ∧
  (jc_user1_id c ≠ jc_user2_id c →
   jc_update_ok c = true →
   ∀ dm q, jc_open c = Some dm → jc_choice c = Some q → jc_post_ok c = true →
     calls = [u_update (jc_channel_id c) (jc_message_ts c)
                (TxtMet (get_display_name t (jc_info1 c) (jc_user1_id c)).1
                        (get_display_name t (jc_info2 c) (jc_user2_id c)).1);
              u_conversations_open [jc_user1_id c; jc_user2_id c] dm;
              u_postMessage dm (TxtIceBreaker (jc_user1_id c) (jc_user2_id c) q)]).
Proof.
  intros calls. unfold calls, handle_join_coffee. split; [|split].
  - intros Heq. by rewrite decide_True.
  - intros users ch Hin.
    destruct (decide (jc_user1_id c = jc_user2_id c)) as [Heq|Hne].
    { elem_cases Hin; discriminate. }
    destruct (jc_update_ok c); [|elem_cases Hin; discriminate].
    destruct (jc_open c) as [dm|]; [|elem_cases Hin; discriminate].
    destruct (jc_choice c) as [q|]; [destruct (jc_post_ok c)|];
      elem_cases Hin; try discriminate;
      injection Hin as -> ->; repeat split; try done; eexists; split; reflexivity.
  - intros Hne Hup dm q Hopen Hq Hpost.
    rewrite decide_False by done. by rewrite Hup, Hopen, Hq, Hpost.
Qed.

Lemma join_coffee_pairs_two_users_witness :
  handle_join_coffee empty_users
    {| jc_user2_id := "U2"; jc_user1_id := "U1"; jc_channel_id := "C1";
       jc_message_ts := "1700.05"; jc_info1 := None; jc_info2 := None;
       jc_update_ok := true; jc_open := Some "D1"; jc_choice := Some "Cay mi kahve mi?";
       jc_post_ok := true |}
  = [u_update "C1" "1700.05" (TxtMet (Some "Topluluk Üyemiz") (Some "Topluluk Üyemiz"));
     u_conversations_open ["U1"; "U2"] "D1";
     u_postMessage "D1" (TxtIceBreaker "U1" "U2" "Cay mi kahve mi?")].
Proof.
  exact (proj2 (proj2 (join_coffee_pairs_two_users empty_users
           {| jc_user2_id := "U2"; jc_user1_id := "U1"; jc_channel_id := "C1";
              jc_message_ts := "1700.05"; jc_info1 := None; jc_info2 := None;
              jc_update_ok := true; jc_open := Some "D1";
              jc_choice := Some "Cay mi kahve mi?"; jc_post_ok := true |}))
         ltac:(discriminate) eq_refl "D1" "Cay mi kahve mi?" eq_refl eq_refl eq_refl).
Defined.

End JoinCoffee.

(** ** More on the rate limiter (rate_limiter.py) *)

Section LimiterMore.
Import RateLimit RateLimitMore.

Lemma held_is_allowed rl u now v :
  held (is_allowed rl u now).1 v
  = if decide (v = u)
    then let pruned := filter (λ t, t > now - window_seconds rl * SECOND) (held rl u) in
         if (is_allowed rl u now).2.1 then pruned ++ [now] else pruned
    else held rl v.
Proof.
  unfold held.
  destruct (is_allowed_cases rl u now) as [[_ ->]|[_ ->]]; cbn [fst snd requests];
    destruct (decide (v = u)) as [->|Hne];
    by rewrite ?lookup_insert_eq, ?lookup_insert_ne by done.
Qed.

Lemma is_allowed_params rl u now :
  max_requests (is_allowed rl u now).1 = max_requests rl ∧
  window_seconds (is_allowed rl u now).1 = window_seconds rl.
Proof. by destruct (is_allowed_cases rl u now) as [[_ ->]|[_ ->]]. Qed.

Lemma is_allowed_flag rl u now :
  (is_allowed rl u now).2.1 = true ↔
  Z.of_nat (length (filter (λ t, t > now - window_seconds rl * SECOND) (held rl u)))
  < max_requests rl.
Proof.
  unfold held.
  destruct (is_allowed_cases rl u now) as [[H ->]|[H ->]]; cbn [fst snd]; split;
    try done; lia.
Qed.

Lemma run_full_snoc_inv (P : RateLimiter → Prop) calls : ∀ rl,
  (∀ rl u now, P rl → P (is_allowed rl u now).1) →
  P rl → P (run_full rl calls).1.
Proof.
  induction calls as [|[u now] calls IH]; intros rl Hstep Hrl; [done|].
  cbn [run_full]. specialize (IH (is_allowed rl u now).1 Hstep (Hstep _ u now Hrl)).
  destruct (is_allowed rl u now) as [rl1 answer]. cbn [fst] in IH.
  destruct (run_full rl1 calls) as [rl2 answers]. exact IH.
Qed.

(** X12.  The limiter never holds more than max_requests requests of one
    user: after any calls on a fresh limiter, in any order and with any
    clock reads, every user's list has at most max(0, max_requests)
    entries. *)
Theorem limiter_list_bounded (mx win : Z) (calls : list (string * Z)) (u : string) :
  Z.of_nat (length (held (run_full (new mx win) calls).1 u)) ≤ Z.max 0 mx.
Proof.
  pose proof (run_full_snoc_inv
                (λ rl, max_requests rl = mx ∧
                       ∀ v, Z.of_nat (length (held rl v)) ≤ Z.max 0 mx)
                calls (new mx win)) as H.
  apply H; clear H.
  - intros rl v now [Hmx Hb].
    destruct (is_allowed_params rl v now) as [Hp _]. split; [congruence|].
    intros x. rewrite held_is_allowed.
    destruct (decide (x = v)) as [->|Hne]; [|apply Hb]. cbn zeta.
    destruct ((is_allowed rl v now).2.1) eqn:Hflag.
    + apply is_allowed_flag in Hflag. rewrite length_app. cbn [length]. lia.
    + pose proof (length_filter (λ t, t > now - window_seconds rl * SECOND) (held rl v)).
      specialize (Hb v). lia.
  - split; [done|]. intros v. unfold held. cbn [new requests].
    rewrite lookup_empty. cbn. lia.
Qed.

Lemma foldl_min_in x l : foldl Z.min x l ∈ x :: l.
Proof.
  revert x. induction l as [|y l IH]; intros x; cbn [foldl]; [by left|].
  specialize (IH (Z.min x y)). apply elem_of_cons in IH as [IH|IH].
  - rewrite IH. destruct (Z.min_spec x y) as [[_ ->]|[_ ->]]; [by left|right; by left].
  - right. by right.
Qed.

Lemma int_seconds_bounds d win :
  0 ≤ d ≤ win * SECOND → 0 ≤ int_seconds d ≤ win.
Proof.
  intros [H0 H1]. unfold int_seconds, SECOND in *.
  rewrite Z.quot_div_nonneg by lia.
  pose proof (Z.div_mod d 1000000 ltac:(lia)).
  pose proof (Z.mod_pos_bound d 1000000 ltac:(lia)). lia.
Qed.

Lemma is_allowed_wait rl u now lo :
  0 ≤ window_seconds rl → lo ≤ now → none_after lo rl →
  none_after now (is_allowed rl u now).1 ∧
  ((is_allowed rl u now).2.1 = true → (is_allowed rl u now).2.2 = None) ∧
  ((is_allowed rl u now).2.1 = false →
   ∃ w, (is_allowed rl u now).2.2 = Some (TooManyRequests w) ∧
        0 ≤ w ≤ window_seconds rl).
Proof.
  intros Hwin Hlo Hna. split; [|split].
  - intros v t. rewrite held_is_allowed.
    destruct (decide (v = u)) as [->|Hne].
    + cbn zeta. intros Ht.
      assert (Hcase : t ∈ filter (λ t, t > now - window_seconds rl * SECOND) (held rl u)
                      ∨ t = now).
      { destruct ((is_allowed rl u now).2.1); [|by left].
        apply elem_of_app in Ht as [Ht|Ht]; [by left|right].
        by apply list_elem_of_singleton in Ht. }
      destruct Hcase as [Hin| ->]; [|lia].
      apply list_elem_of_filter in Hin as [_ Hin]. specialize (Hna u t Hin). lia.
    + intros Ht. specialize (Hna v t Ht). lia.
  - by destruct (is_allowed_cases rl u now) as [[_ ->]|[_ ->]].
  - destruct (is_allowed_cases rl u now) as [[_ ->]|[_ ->]]; cbn [fst snd]; [done|].
    intros _. eexists. split; [reflexivity|].
    apply int_seconds_bounds.
    destruct (filter _ (default [] (requests rl !! u))) as [|x l] eqn:Hf;
      cbn [oldest_or]; [unfold SECOND; lia|].
    pose proof (foldl_min_in x l) as Hmin. rewrite <- Hf in Hmin.
    apply list_elem_of_filter in Hmin as [Hgt Hin].
    specialize (Hna u _ Hin). unfold SECOND in *. lia.
Qed.

Lemma run_full_wait win calls : ∀ lo rl,
  0 ≤ win → window_seconds rl = win → chronological lo calls → none_after lo rl →
  Forall (λ a : bool * option limit_text,
            (a.1 = true → a.2 = None) ∧
            (a.1 = false → ∃ w, a.2 = Some (TooManyRequests w) ∧ 0 ≤ w ≤ win))
         (run_full rl calls).2.
Proof.
  induction calls as [|[u now] calls IH]; intros lo rl Hwin Hw Hch Hna; [constructor|].
  destruct Hch as [Hlo Hch]. cbn [run_full].
  pose proof (is_allowed_wait rl u now lo ltac:(lia) Hlo Hna) as (Hna' & Ht & Hf).
  destruct (is_allowed_params rl u now) as [_ Hw'].
  specialize (IH now (is_allowed rl u now).1 Hwin ltac:(congruence) Hch Hna').
  destruct (is_allowed rl u now) as [rl1 answer]. cbn [fst snd] in *.
  destruct (run_full rl1 calls) as [rl2 answers]. cbn [fst snd] in *.
  apply Forall_cons. split; [|exact IH]. split; [exact Ht|].
  intros Hd. rewrite <- Hw. by apply Hf.
Qed.

(** X13.  Over a run of calls on a fresh limiter with a non-negative
    window and clock reads that do not go back, every allowed call returns
    no message and every denied call returns the wait message with a number
    of seconds between 0 and window_seconds. *)
Theorem limiter_wait_within_window (mx win lo : Z) (calls : list (string * Z))
    (Hwin : 0 ≤ win)
    (Hchrono : chronological lo calls) :
  Forall (λ a : bool * option limit_text,
            (a.1 = true → a.2 = None) ∧
            (a.1 = false → ∃ w, a.2 = Some (TooManyRequests w) ∧ 0 ≤ w ≤ win))
         (run_full (new mx win) calls).2.
Proof.
  apply (run_full_wait win calls lo (new mx win)); try done.
  intros u t. unfold held. cbn [new requests]. rewrite lookup_empty.
  by intros ?%elem_of_nil.
Qed.

(** A call that comes a microsecond before the window has passed is denied
    with zero seconds to wait. *)
Lemma limiter_wait_within_window_witness :
  (run_full (new 1 60) [("user1", 1000 * SECOND); ("user1", 1059 * SECOND + 999999)]).2
  = [(true, None); (false, Some (TooManyRequests 0))] ∧
  Forall (λ a : bool * option limit_text,
            (a.1 = true → a.2 = None) ∧
            (a.1 = false → ∃ w, a.2 = Some (TooManyRequests w) ∧ 0 ≤ w ≤ 60))
         (run_full (new 1 60)
            [("user1", 1000 * SECOND); ("user1", 1059 * SECOND + 999999)]).2.
Proof.
  split; [reflexivity|].
  apply (limiter_wait_within_window 1 60 0
           [("user1", 1000 * SECOND); ("user1", 1059 * SECOND + 999999)]).
  - lia.
  - vm_compute. repeat split; discriminate.
Defined.

Lemma same_from_step lo rl1 rl2 u now :
  lo ≤ now → same_from lo rl1 rl2 →
  (is_allowed rl1 u now).2 = (is_allowed rl2 u now).2 ∧
  same_from now (is_allowed rl1 u now).1 (is_allowed rl2 u now).1.
Proof.
  intros Hlo (Hmx & Hwin & Hsame).
  pose proof (Hsame u (now - window_seconds rl1 * SECOND) ltac:(lia)) as Hu.
  unfold held in Hu. rewrite Hwin in Hu.
  assert (Hans : (is_allowed rl1 u now).2 = (is_allowed rl2 u now).2).
  { unfold is_allowed. rewrite Hmx, Hwin, Hu.
    by destruct (decide (_ >= _)). }
  split; [done|].
  destruct (is_allowed_params rl1 u now) as [Hm1 Hw1].
  destruct (is_allowed_params rl2 u now) as [Hm2 Hw2].
  split; [congruence|]. split; [congruence|].
  intros v c Hc. rewrite !held_is_allowed. rewrite Hw1 in Hc.
  destruct (decide (v = u)) as [->|Hne]; [|apply Hsame; lia].
  cbn zeta. rewrite <- Hans. unfold held. rewrite Hwin, Hu. done.
Qed.

Lemma run_full_same_from calls : ∀ lo rl1 rl2,
  chronological lo calls → same_from lo rl1 rl2 →
  (run_full rl1 calls).2 = (run_full rl2 calls).2.
Proof.
  induction calls as [|[u now] calls IH]; intros lo rl1 rl2 Hch Hsame; [done|].
  destruct Hch as [Hlo Hch]. cbn [run_full].
  destruct (same_from_step lo rl1 rl2 u now Hlo Hsame) as [Hans Hsame'].
  specialize (IH now _ _ Hch Hsame').
  destruct (is_allowed rl1 u now) as [rl1' a1], (is_allowed rl2 u now) as [rl2' a2].
  cbn [fst snd] in *.
  destruct (run_full rl1' calls) as [? ans1], (run_full rl2' calls) as [? ans2].
  cbn [snd] in *. congruence.
Qed.

Lemma all_older_elem k l t : all_older k l → t ∈ l → t < k.
Proof.
  destruct l as [|x l]; [done|]. cbn [all_older]. intros Hmax Hin.
  apply elem_of_cons in Hin as [->|Hin].
  - pose proof (foldl_max_lower x l). lia.
  - pose proof (foldl_max_upper x l t Hin). lia.
Qed.

Lemma held_cleanup rl tc u :
  held (cleanup_old_entries rl tc) u
  = if decide (all_older (tc - window_seconds rl * 2 * SECOND) (held rl u))
    then [] else held rl u.
Proof.
  unfold held, cleanup_old_entries. cbn [requests].
  set (k := tc - window_seconds rl * 2 * SECOND).
  destruct (requests rl !! u) as [l|] eqn:Hl.
  - change (default [] (Some l)) with l.
    destruct (decide (all_older k l)) as [Ho|Ho].
    + assert (Hnone : filter (λ kv : string * list Z, ¬ all_older k kv.2) (requests rl) !! u
                      = None).
      { apply map_lookup_filter_None_2. right. intros x Hx.
        rewrite Hl in Hx. injection Hx as <-. cbn. tauto. }
      by rewrite Hnone.
    + assert (Hsome : filter (λ kv : string * list Z, ¬ all_older k kv.2) (requests rl) !! u
                      = Some l) by (by apply map_lookup_filter_Some_2).
      by rewrite Hsome.
  - assert (Hnone : filter (λ kv : string * list Z, ¬ all_older k kv.2) (requests rl) !! u
                    = None) by (apply map_lookup_filter_None_2; by left).
    rewrite Hnone. change (default [] None) with (@nil Z).
    by destruct (decide (all_older k [])).
Qed.

(** X14.  cleanup_old_entries cannot be observed through is_allowed: with
    a non-negative window, every run of calls whose clock reads are not
    before the cleanup's gets the same answers, flags and messages, whether
    or not the cleanup ran. *)
Theorem cleanup_not_observable (rl : RateLimiter) (tc : Z) (calls : list (string * Z))
    (Hwin : 0 ≤ window_seconds rl)
    (Hchrono : chronological tc calls) :
  (run_full (cleanup_old_entries rl tc) calls).2 = (run_full rl calls).2.
Proof.
  apply (run_full_same_from calls tc); [done|].
  split; [done|]. split; [done|].
  intros u c Hc. cbn [cleanup_old_entries window_seconds] in Hc.
  rewrite held_cleanup.
  destruct (decide (all_older _ (held rl u))) as [Ho|Ho]; [|done].
  symmetry. induction (held rl u) as [|t l IH] eqn:Hh in Ho |- *; [done|].
  clear IH.
  assert (Hall : ∀ x, x ∈ t :: l → ¬ x > c).
  { intros x Hx. pose proof (all_older_elem _ _ x Ho Hx). unfold SECOND in *. lia. }
  clear Ho Hh. induction (t :: l) as [|y l' IH]; [done|].
  rewrite filter_cons, decide_False by (apply Hall; by left).
  apply IH. intros x Hx. apply Hall. by right.
Qed.

Lemma cleanup_not_observable_witness :
  let rl := (run_full (new 1 60) [("user1", 1000 * SECOND)]).1 in
  requests (cleanup_old_entries rl (2000 * SECOND)) !! "user1" = None ∧
  (run_full (cleanup_old_entries rl (2000 * SECOND)) [("user1", 2000 * SECOND)]).2
  = (run_full rl [("user1", 2000 * SECOND)]).2.
Proof.
  split; [reflexivity|].
  apply (cleanup_not_observable
           (run_full (new 1 60) [("user1", 1000 * SECOND)]).1 (2000 * SECOND)
           [("user1", 2000 * SECOND)]).
  - vm_compute. discriminate.
  - vm_compute. repeat split; discriminate.
Defined.

(** X15.  reset gives a user a fresh start and touches nobody else: after
    reset(u) the next call of u is allowed exactly when max_requests is
    positive, and then u's list holds that call alone; for every other user
    the answer of the next call is what it would have been without the
    reset. *)
Theorem reset_fresh_start (rl : RateLimiter) (u : string) (now : Z) :
  let r := is_allowed (reset rl u) u now in
  (r.2.1 = true ↔ 0 < max_requests rl) ∧
  (r.2.1 = true → held r.1 u = [now]) ∧
  (∀ v, v ≠ u → (is_allowed (reset rl u) v now).2 = (is_allowed rl v now).2).
Proof.
  intros r.
  assert (Hheld : held (reset rl u) u = []).
  { unfold held, reset. cbn [requests]. by rewrite lookup_delete_eq. }
  split; [|split].
  - unfold r. rewrite is_allowed_flag, Hheld. cbn. done.
  - intros Hflag. unfold r in *. rewrite held_is_allowed, decide_True by done.
    cbn zeta. by rewrite Hflag, Hheld.
  - intros v Hne. unfold is_allowed, reset. cbn [requests max_requests window_seconds].
    rewrite lookup_delete_ne by done.
    by destruct (decide (_ >= _)).
Qed.

End LimiterMore.

(** ** More on the waiting pool (match_service.py) *)

Section PoolMore.
Import MatchService MatchServiceMore.

Ltac srv_simpl :=
  cbn [waiting_pool last_request_time pool_timeout_jobs admin_channel cron
       match_repo outbox set_waiting_pool set_last_request_time
       set_pool_timeout_jobs set_cron set_match_repo emit fst snd negb] in *.

Lemma length_list_remove x l : (length (list_remove x l) ≤ length l)%nat.
Proof.
  induction l as [|y l IH]; cbn [list_remove length]; [lia|].
  destruct (decide (y = x)); cbn [length]; lia.
Qed.

Lemma request_coffee_pool s e u c t0 t1 :
  waiting_pool (request_coffee s e u c t0 t1).1 = waiting_pool s ∨
  waiting_pool (request_coffee s e u c t0 t1).1 = tail (waiting_pool s) ∨
  (waiting_pool s = [] ∧ waiting_pool (request_coffee s e u c t0 t1).1 = [u]).
Proof.
  unfold request_coffee.
  destruct (can_request_coffee s u t0) as [[|] msg]; [|by left]. srv_simpl.
  destruct (waiting_pool s) as [|partner rest] eqn:Hpool.
  - right. right. by destruct (add_once_job_ok e).
  - right. left. cbn [tail].
    set (s1 := set_waiting_pool _ rest).
    assert (H1 : ∀ s2, waiting_pool s2 = rest →
               waiting_pool (let '(s3, r) := start_match s2 e u partner in
                             match r with
                             | Raise ex => (s3, Raise ex)
                             | Ok _ => (s3, Ok (Some MsgMatched))
                             end).1 = rest).
    { intros s2 H2. pose proof (start_match_effect s2 e u partner) as (Hw & _).
      destruct (start_match s2 e u partner) as [s3 [?|?]]; srv_simpl; congruence. }
    destruct (pool_timeout_jobs s !! partner) as [job|].
    + destruct (remove_job_ok e); [|done].
      exact (H1 (set_pool_timeout_jobs (set_cron s1 (delete job (cron s1)))
                   (delete partner (pool_timeout_jobs s1))) eq_refl).
    + exact (H1 s1 eq_refl).
Qed.

(** X16.  At most one user waits at any time: over every sequence of
    requests and timeouts on a fresh service, whatever the collaborators
    answer, the waiting pool never holds more than one user (a request that
    finds somebody waiting always takes that user out instead of joining). *)
Theorem pool_holds_at_most_one (admin : option string) (ops : list op) :
  Forall (λ s, (length (waiting_pool s) ≤ 1)%nat) (states (init admin) ops).
Proof.
  assert (Hgen : ∀ ops s, (length (waiting_pool s) ≤ 1)%nat →
                 Forall (λ s, (length (waiting_pool s) ≤ 1)%nat) (states s ops)).
  { clear. induction ops as [|o ops IH]; intros s Hs; cbn [states].
    - by apply Forall_singleton.
    - apply Forall_cons. split; [done|]. apply IH.
      destruct o as [u c e t0 t1|u e]; cbn [step].
      + destruct (request_coffee_pool s e u c t0 t1) as [->|[->|[_ ->]]];
          [done| |cbn; lia].
        destruct (waiting_pool s); cbn [tail length] in *; lia.
      + unfold _timeout_user.
        destruct (decide (u ∈ waiting_pool s)).
        * pose proof (length_list_remove u (waiting_pool s)).
          destruct (dm_open_r e), (dm_post_ok e); srv_simpl;
            destruct (pool_timeout_jobs s !! u); srv_simpl; lia.
        * by destruct (pool_timeout_jobs s !! u). }
  apply Hgen. cbn. lia.
Qed.

End PoolMore.

Section PoolHandles.
Import MatchService MatchServiceMore.

Ltac srv_simpl :=
  cbn [waiting_pool last_request_time pool_timeout_jobs admin_channel cron
       match_repo outbox set_waiting_pool set_last_request_time
       set_pool_timeout_jobs set_cron set_match_repo emit fst snd negb] in *.

Lemma timeout_job_id_inj u v : timeout_job_id u = timeout_job_id v → u = v.
Proof. unfold timeout_job_id. simpl. by intros [=]. Qed.

Lemma elem_of_list_remove_ne x l y : y ≠ x → y ∈ list_remove x l ↔ y ∈ l.
Proof.
  intros Hne. induction l as [|z l IH]; cbn [list_remove]; [done|].
  destruct (decide (z = x)) as [->|Hz].
  - split; [by right|]. by intros [->|?]%elem_of_cons.
  - rewrite !elem_of_cons, IH. done.
Qed.

Lemma not_elem_of_list_remove x l : NoDup l → x ∉ list_remove x l.
Proof.
  induction l as [|z l IH]; cbn [list_remove]; [by intros _ ?%elem_of_nil|].
  intros [Hz Hl]%NoDup_cons. destruct (decide (z = x)) as [->|Hne]; [done|].
  intros [->|Hin]%elem_of_cons; [done|]. by apply IH.
Qed.

(** start_match changes the cron table at most by adding the closure job. *)
Lemma start_match_cron s e a b :
  cron (start_match s e a b).1 = cron s ∨
  ∃ ch mid, cron (start_match s e a b).1
            = <[ close_job_id ch := {| delay_minutes := 5;
                                       task := run_close_match ch mid |} ]> (cron s).
Proof.
  unfold start_match, start_match_body.
  destruct (open_conversation_r e) as [ch|]; [|by left].
  destruct (create_r e) as [mid|]; [|by left].
  destruct (quick_ask_r e), (post_message_ok e), (add_once_job_ok e); srv_simpl;
    try (by left). right. by exists ch, mid.
Qed.

Lemma step_pool_handles_inv s o :
  cron_answers o → pool_handles_inv s → pool_handles_inv (step s o).
Proof.
  intros Hok (Hnd & Hh & Hj). destruct o as [u c e t0 t1|u e]; cbn [step].
  - destruct Hok as [Hadd Hrem]. unfold request_coffee.
    destruct (can_request_coffee s u t0) as [can msg] eqn:Hcan.
    destruct can; [|done]. srv_simpl.
    apply can_request_coffee_true in Hcan.
    destruct (waiting_pool s) as [|partner rest] eqn:Hpool.
    + rewrite Hadd. srv_simpl. split; [apply NoDup_singleton|]. split.
      * intros v. unfold handles_match in Hh. srv_simpl.
        destruct (decide (v = u)) as [->|Hne].
        -- rewrite lookup_insert_eq. rewrite decide_True; [done|by left].
        -- rewrite lookup_insert_ne by done. rewrite Hh, Hpool.
           rewrite decide_False by (by intros ?%elem_of_nil).
           rewrite decide_False; [done|].
           intros Hin. apply list_elem_of_singleton in Hin. done.
      * intros v Hv. srv_simpl. apply list_elem_of_singleton in Hv as ->.
        by rewrite lookup_insert_eq.
    + apply NoDup_cons in Hnd as [Hp Hrest].
      assert (Hhp : pool_timeout_jobs s !! partner = Some (timeout_job_id partner)).
      { rewrite Hh, Hpool. rewrite decide_True; [done|by left]. }
      rewrite Hhp, Hrem.
      set (s1 := set_pool_timeout_jobs _ _).
      pose proof (start_match_effect s1 e u partner) as (Hw & _ & Hhs & _).
      pose proof (start_match_cron s1 e u partner) as Hc.
      assert (Hgoal : pool_handles_inv (start_match s1 e u partner).1).
      { split; [by rewrite Hw|]. split.
        - intros v. rewrite Hhs, Hw. unfold s1. srv_simpl.
          destruct (decide (v = partner)) as [->|Hne].
          + rewrite lookup_delete_eq. by rewrite decide_False.
          + rewrite lookup_delete_ne by done. rewrite Hh, Hpool.
            destruct (decide (v ∈ rest)) as [Hin|Hin].
            * rewrite decide_True; [done|by right].
            * rewrite decide_False; [done|].
              intros [?|?]%elem_of_cons; done.
        - intros v Hv. rewrite Hw in Hv. unfold s1 in Hv. srv_simpl.
          assert (Hne : v ≠ partner) by (by intros ->).
          assert (Hold : cron s1 !! timeout_job_id v
                         = Some {| delay_minutes := 5; task := run_timeout_user v |}).
          { unfold s1. srv_simpl.
            rewrite lookup_delete_ne by (intros ?%timeout_job_id_inj; done).
            apply Hj. rewrite Hpool. by right. }
          destruct Hc as [->|(ch & mid & ->)]; [done|].
          rewrite lookup_insert_ne; [done|].
          apply not_eq_sym, timeout_job_id_not_close_job_id. }
      destruct (start_match s1 e u partner) as [s3 [?|?]]; exact Hgoal.
  - unfold _timeout_user.
    destruct (decide (u ∈ waiting_pool s)) as [Hin|Hin].
    + assert (Hhu : pool_timeout_jobs s !! u = Some (timeout_job_id u)).
      { rewrite Hh. by rewrite decide_True. }
      assert (Hgoal : ∀ s2, waiting_pool s2 = list_remove u (waiting_pool s) →
                 pool_timeout_jobs s2 = pool_timeout_jobs s → cron s2 = cron s →
                 pool_handles_inv
                   match pool_timeout_jobs s2 !! u with
                   | Some _ => set_pool_timeout_jobs s2 (delete u (pool_timeout_jobs s2))
                   | None => s2
                   end).
      { intros s2 Hw2 Hh2 Hc2. rewrite Hh2, Hhu.
        split; [srv_simpl; rewrite Hw2; by apply NoDup_list_remove|]. split.
        - intros v. srv_simpl. rewrite Hw2.
          destruct (decide (v = u)) as [->|Hne].
          + rewrite lookup_delete_eq.
            rewrite decide_False; [done|by apply not_elem_of_list_remove].
          + rewrite lookup_delete_ne by done. rewrite Hh.
            destruct (decide (v ∈ waiting_pool s)) as [Hv|Hv].
            * rewrite decide_True; [done|by apply elem_of_list_remove_ne].
            * rewrite decide_False; [done|].
              intros Hv'. by apply elem_of_list_remove_ne in Hv'.
        - intros v Hv. srv_simpl. rewrite Hw2 in Hv. rewrite Hc2.
          apply Hj. by apply list_remove_subseteq in Hv. }
      destruct (dm_open_r e) as [dm|]; [destruct (dm_post_ok e)|]; by apply Hgoal.
    + assert (Hhu : pool_timeout_jobs s !! u = None).
      { rewrite Hh. by rewrite decide_False. }
      rewrite Hhu. by split.
Qed.

(** X17.  As long as the cron client answers, the service's bookkeeping is
    exact: in every state a sequence of requests and timeouts goes through,
    the users who have a timeout handle are exactly the waiting users, each
    handle is the id "coffee_timeout_" + user, and the cron client holds the
    five-minute timeout job of every waiting user. *)
Theorem handles_follow_pool (admin : option string) (ops : list op)
    (Hcron : Forall cron_answers ops) :
  Forall (λ s,
            (∀ u, pool_timeout_jobs s !! u
                  = if decide (u ∈ waiting_pool s)
                    then Some (timeout_job_id u) else None) ∧
            (∀ u, u ∈ waiting_pool s →
                  cron s !! timeout_job_id u
                  = Some {| delay_minutes := 5; task := run_timeout_user u |}))
         (states (init admin) ops).
Proof.
  assert (Hgen : ∀ ops s, Forall cron_answers ops → pool_handles_inv s →
                 Forall pool_handles_inv (states s ops)).
  { clear. induction ops as [|o ops IH]; intros s Hok Hs; cbn [states].
    - by apply Forall_singleton.
    - apply Forall_cons in Hok as [Ho Hok].
      apply Forall_cons. split; [done|]. by apply IH, step_pool_handles_inv. }
  eapply Forall_impl; [apply (Hgen ops (init admin) Hcron)|].
  - split; [constructor|]. split.
    + intros u. cbn [init pool_timeout_jobs waiting_pool]. rewrite lookup_empty.
      by rewrite decide_False by (by intros ?%elem_of_nil).
    + intros u Hu. by apply elem_of_nil in Hu.
  - intros s (_ & Hh & Hj). by split.
Qed.

Lemma handles_follow_pool_witness :
  let s := step (init None) (op_request_coffee "A" "C1" Sample.all_ok 100 100) in
  pool_timeout_jobs s !! "A" = Some "coffee_timeout_A" ∧
  cron s !! "coffee_timeout_A"
  = Some {| delay_minutes := 5; task := run_timeout_user "A" |}.
Proof.
  pose proof (handles_follow_pool None [op_request_coffee "A" "C1" Sample.all_ok 100 100]
                ltac:(repeat constructor)) as H.
  cbn [states] in H. apply Forall_cons in H as [_ H]. apply Forall_cons in H as [[Hh Hj] _].
  split.
  - exact (Hh "A").
  - apply Hj. by left.
Defined.

End PoolHandles.

Section TimeoutAndClosure.
Import MatchService MatchServiceMore.

Ltac srv_simpl :=
  cbn [waiting_pool last_request_time pool_timeout_jobs admin_channel cron
       match_repo outbox set_waiting_pool set_last_request_time
       set_pool_timeout_jobs set_cron set_match_repo emit fst snd negb] in *.

Lemma timeout_user_fields s e u :
  let s' := _timeout_user s e u in
  waiting_pool s' = list_remove u (waiting_pool s) ∧
  pool_timeout_jobs s' = delete u (pool_timeout_jobs s) ∧
  cron s' = cron s ∧ match_repo s' = match_repo s ∧
  last_request_time s' = last_request_time s ∧ admin_channel s' = admin_channel s.
Proof.
  unfold _timeout_user.
  assert (Hrem : u ∉ waiting_pool s → list_remove u (waiting_pool s) = waiting_pool s).
  { intros Hin. induction (waiting_pool s) as [|z l IH]; [done|]. cbn [list_remove].
    rewrite decide_False by (intros ->; apply Hin; by left).
    rewrite IH; [done|]. intros ?. apply Hin. by right. }
  assert (Hdel : ∀ m : gmap string string, m !! u = None → delete u m = m)
    by (intros m Hm; by apply delete_id).
  destruct (decide (u ∈ waiting_pool s)) as [Hin|Hin].
  - destruct (dm_open_r e) as [dm|]; [destruct (dm_post_ok e)|]; srv_simpl;
      destruct (pool_timeout_jobs s !! u) eqn:Hh; srv_simpl;
      rewrite ?Hdel by done; done.
  - destruct (pool_timeout_jobs s !! u) eqn:Hh; srv_simpl;
      rewrite ?Hdel, ?Hrem by done; done.
Qed.

(** X18.  A timeout that fires for somebody who is not waiting (already
    matched, or expired before) sends nothing and leaves the pool as it is;
    a timeout for a waiting user takes that user out and leaves every other
    waiter in place; and a timeout that fires twice does the second time
    nothing at all. *)
Theorem timeout_expires_once (s : service) (e e' : timeout_env) (u : string)
    (Hnodup : NoDup (waiting_pool s)) :
  let s1 := _timeout_user s e u in
  (u ∉ waiting_pool s → waiting_pool s1 = waiting_pool s ∧ outbox s1 = outbox s) ∧
  (u ∉ waiting_pool s1) ∧
  (∀ v, v ≠ u → v ∈ waiting_pool s1 ↔ v ∈ waiting_pool s) ∧
  pool_timeout_jobs s1 !! u = None ∧
  _timeout_user s1 e' u = s1.
Proof.
  intros s1.
  pose proof (timeout_user_fields s e u) as (Hw & Hh & _). fold s1 in Hw, Hh.
  assert (Hout : u ∉ waiting_pool s1).
  { rewrite Hw. by apply not_elem_of_list_remove. }
  assert (Hnone : pool_timeout_jobs s1 !! u = None).
  { rewrite Hh. apply lookup_delete_eq. }
  split; [|split; [done|split; [|split; [done|]]]].
  - intros Hin. unfold s1, _timeout_user. rewrite decide_False by done.
    by destruct (pool_timeout_jobs s !! u).
  - intros v Hne. rewrite Hw. by apply elem_of_list_remove_ne.
  - unfold _timeout_user at 1. rewrite decide_False by done. by rewrite Hnone.
Qed.

Lemma timeout_expires_once_witness :
  let s := (request_coffee (init None) Sample.all_ok "A" "C1" 100 100).1 in
  let s1 := _timeout_user s Sample.dm_ok "A" in
  waiting_pool s = ["A"] ∧ ("A" ∉ waiting_pool s1) ∧
  _timeout_user s1 Sample.dm_ok "A" = s1.
Proof.
  pose proof (timeout_expires_once
                (request_coffee (init None) Sample.all_ok "A" "C1" 100 100).1
                Sample.dm_ok Sample.dm_ok "A" ltac:(by apply (bool_decide_unpack _)))
    as (_ & H1 & _ & _ & H2).
  split; [reflexivity|]. split; [exact H1|exact H2].
Defined.

(** What the try block of close_match does before the summary. *)
Lemma close_match_no_user_message s e ch mid msgs :
  get_history_r e = Some msgs →
  filter (λ m, is_user_message m = true) msgs = [] →
  ∀ r, close_match s (with_summary e r) ch mid = close_match s e ch mid.
Proof.
  intros Hh Hnone r. unfold close_match.
  cbn [with_summary get_history_r summary_r update_ok post_admin_ok post_closing_ok
       close_conversation_ok].
  rewrite Hh, Hnone. done.
Qed.

(** X19.  The language model decides whether a match gets closed.  When at
    least one message of the history is a user message and the summary call
    raises, close_match ends without any effect: the match keeps its status,
    nothing is reported or posted, and the conversation is not closed.  When
    the history holds no user message (bot messages only, or none), the
    language model is not consulted: the result is the same whatever it
    would have answered. *)
Theorem close_match_depends_on_summary (s : service) (e : close_env)
    (ch mid : string) (msgs : list history_msg)
    (Hhistory : get_history_r e = Some msgs) :
  ((∃ m, m ∈ msgs ∧ is_user_message m = true) →
     summary_r e = None → close_match s e ch mid = s) ∧
  ((∀ m, m ∈ msgs → is_user_message m = false) →
     ∀ r, close_match s (with_summary e r) ch mid = close_match s e ch mid).
Proof.
  split.
  - intros (m & Hin & Hm) Hsum. unfold close_match. rewrite Hhistory.
    destruct (filter (λ m, is_user_message m = true) msgs) as [|m0 l] eqn:Hf.
    + assert (Hmf : m ∈ filter (λ m, is_user_message m = true) msgs)
        by (by apply list_elem_of_filter).
      rewrite Hf in Hmf. by apply elem_of_nil in Hmf.
    + cbn [map]. by rewrite Hsum.
  - intros Hall. apply (close_match_no_user_message s e ch mid msgs); [done|].
    clear Hhistory. induction msgs as [|m l IH]; [done|].
    rewrite filter_cons, decide_False.
    + apply IH. intros m' Hm'. apply Hall. by right.
    + rewrite (Hall m) by (by left). done.
Qed.

Lemma close_match_depends_on_summary_witness :
  close_match Sample.coffee_service SampleClose.model_down "D1" "M1"
  = Sample.coffee_service.
Proof.
  refine (proj1 (close_match_depends_on_summary Sample.coffee_service
                   SampleClose.model_down "D1" "M1"
                   [SampleClose.hello_message] eq_refl) _ eq_refl).
  exists SampleClose.hello_message. split; [by left|reflexivity].
Defined.

(** X20.  close_match for a match id the repository does not hold, when
    the history and the summary are there and the other collaborators
    answer.  With an admin channel configured the run ends at the report:
    nothing is written, nothing is posted and the conversation stays open.
    Without an admin channel the same run posts the closing notice and
    closes the conversation. *)
Theorem close_match_unknown_id (s : service) (e : close_env) (ch mid : string)
    (msgs : list history_msg)
    (Hunknown : repo_get (match_repo s) mid = None)
    (Hhistory : get_history_r e = Some msgs)
    (Hsummary : is_Some (summary_r e))
    (Hupdate : update_ok e = true)
    (Hclosing : post_closing_ok e = true)
    (Hclose : close_conversation_ok e = true) :
  (∀ ac, admin_channel s = Some ac → ac ≠ EmptyString → close_match s e ch mid = s) ∧
  (admin_channel s = None →
     match_repo (close_match s e ch mid) = match_repo s ∧
     outbox (close_match s e ch mid)
     = outbox s ++ [post_message ch ClosingNotice; close_conversation ch]).
Proof.
  assert (Hrepo : ∀ sm, repo_update (match_repo s) mid sm = match_repo s).
  { intros sm. unfold repo_get in Hunknown. unfold repo_update.
    induction (match_repo s) as [|m l IH]; [done|].
    rewrite filter_cons in Hunknown. cbn [map].
    destruct (decide (match_id m = mid)); [done|]. by rewrite IH. }
  assert (Hs : set_match_repo s (match_repo s) = s) by (by destruct s).
  destruct Hsummary as [sm Hsm].
  assert (Hopt : ∃ sm', match map (λ m, "Kullanıcı: " +:+ default EmptyString (msg_text m))
                                (filter (λ m, is_user_message m = true) msgs) with
                        | [] => Some NoConversation
                        | _ :: _ => Generated <$> summary_r e
                        end = Some sm').
  { rewrite Hsm. destruct (map _ _); eauto. }
  destruct Hopt as [sm' Hopt].
  split.
  - intros ac Hac Hne. unfold close_match. rewrite Hhistory. cbv zeta.
    rewrite Hopt, Hupdate, Hrepo, Hs, Hac. rewrite decide_False by done.
    by rewrite Hunknown.
  - intros Hnone. unfold close_match. rewrite Hhistory. cbv zeta.
    rewrite Hopt, Hupdate, Hrepo, Hs, Hnone, Hclosing, Hclose. srv_simpl.
    by rewrite <- app_assoc.
Qed.

Lemma close_match_unknown_id_witness :
  close_match Sample.coffee_service Sample.quiet_close "D9" "M9" = Sample.coffee_service
  ∧ outbox (close_match SampleClose.coffee_service_no_admin Sample.quiet_close "D9" "M9")
    = [post_message "D9" ClosingNotice; close_conversation "D9"].
Proof.
  split.
  - exact (proj1 (close_match_unknown_id Sample.coffee_service Sample.quiet_close
                    "D9" "M9" [] eq_refl eq_refl (mk_is_Some _ _ eq_refl)
                    eq_refl eq_refl eq_refl)
             "ADMINCH" eq_refl ltac:(discriminate)).
  - exact (proj2 (proj2 (close_match_unknown_id SampleClose.coffee_service_no_admin
                    Sample.quiet_close "D9" "M9" [] eq_refl eq_refl
                    (mk_is_Some _ _ eq_refl) eq_refl eq_refl eq_refl) eq_refl)).
Defined.

End TimeoutAndClosure.

(** ** The counters of the statistics report
       (src/services/statistics_service.py) *)

Section StatisticsCounters.
Import Statistics.

Lemma rows_under_snoc f d c rows x :
  rows_under f d c (rows ++ [x])
  = rows_under f d c rows + (if decide (get x f d = c) then 1 else 0).
Proof.
  unfold rows_under. rewrite filter_app, length_app, filter_cons, filter_nil.
  destruct (decide (get x f d = c)); cbn [length]; lia.
Qed.

Lemma rows_under_nonneg f d c rows : 0 ≤ rows_under f d c rows.
Proof. unfold rows_under. lia. Qed.

Lemma count_by_snoc f d rows x :
  count_by f d (rows ++ [x]) = count_step f d (count_by f d rows) x.
Proof. unfold count_by. by rewrite foldl_snoc. Qed.

Lemma count_by_lookup f d rows c :
  count_by f d rows !! c
  = if decide (rows_under f d c rows = 0) then None else Some (rows_under f d c rows).
Proof.
  induction rows as [|x rows IH] using rev_ind; [done|].
  rewrite count_by_snoc, rows_under_snoc. unfold count_step. cbv zeta.
  pose proof (rows_under_nonneg f d c rows) as Hnn.
  destruct (decide (get x f d = c)) as [Heq|Hne].
  - rewrite Heq, lookup_insert_eq, IH.
    destruct (decide (rows_under f d c rows = 0)) as [Hz|Hz]; cbn [default from_option].
    + rewrite Hz. by rewrite decide_False by lia.
    + by rewrite decide_False by lia.
  - rewrite lookup_insert_ne by done. rewrite IH, Z.add_0_r. done.
Qed.

Lemma sum_values_insert dist key n :
  sum_values (<[key := n]> dist) = sum_values dist - default 0 (dist !! key) + n.
Proof.
  unfold sum_values.
  assert (Hcomm : ∀ (m : gmap value Z) (j1 j2 : value) (z1 z2 y : Z),
             j1 ≠ j2 → m !! j1 = Some z1 → m !! j2 = Some z2 →
             z1 + (z2 + y) = z2 + (z1 + y)) by (intros; lia).
  destruct (dist !! key) as [old|] eqn:Hk; cbn [default from_option]; unfold id.
  - rewrite (map_fold_delete_L _ _ key old dist) by (by eauto using Hcomm).
    rewrite <- (insert_delete_eq dist).
    rewrite map_fold_insert_L; [lia|by eauto using Hcomm|apply lookup_delete_eq].
  - rewrite map_fold_insert_L; [lia|by eauto using Hcomm|done].
Qed.

Lemma sum_values_count_by f d rows :
  sum_values (count_by f d rows) = Z.of_nat (length rows).
Proof.
  induction rows as [|x rows IH] using rev_ind; [done|].
  rewrite count_by_snoc. unfold count_step. cbv zeta.
  rewrite sum_values_insert, IH, length_app. cbn [length]. lia.
Qed.

(** X21.  The distributions of the report file every row exactly once.
    The cohort distribution of the users holds, for each cohort, the number
    of users whose row has that cohort (a missing column counts under
    "Belirtilmemiş", a NULL under None), has no entry for a cohort nobody
    has, and its counts add up to the total number of users; the same holds
    for the feedbacks and their categories with the default "general". *)
Theorem distributions_file_every_row (users feedbacks : list row) :
  let us := _get_user_statistics (Some users) in
  let fs := _get_feedback_statistics (Some feedbacks) in
  (∀ c, cohort_distribution us !! c
        = if decide (rows_under "cohort" UNSPECIFIED c users = 0) then None
          else Some (rows_under "cohort" UNSPECIFIED c users)) ∧
  sum_values (cohort_distribution us) = us_total us ∧
  (∀ c, category_distribution fs !! c
        = if decide (rows_under "category" (VStr "general") c feedbacks = 0) then None
          else Some (rows_under "category" (VStr "general") c feedbacks)) ∧
  sum_values (category_distribution fs) = fs_total fs.
Proof.
  cbn [_get_user_statistics _get_feedback_statistics cohort_distribution us_total
       category_distribution fs_total].
  split; [intros c; apply count_by_lookup|].
  split; [apply sum_values_count_by|].
  split; [intros c; apply count_by_lookup|apply sum_values_count_by].
Qed.

Lemma two_counters_bound (P Q : row → Prop) `{!∀ x, Decision (P x)}
    `{!∀ x, Decision (Q x)} (rows : list row) :
  (∀ x, P x → Q x → False) →
  (length (filter P rows) + length (filter Q rows) ≤ length rows)%nat ∧
  ((length (filter P rows) + length (filter Q rows))%nat = length rows
   ↔ Forall (λ x, P x ∨ Q x) rows).
Proof.
  intros Hdisj. induction rows as [|x rows [IHle IHeq]].
  - split; [done|]. split; [by constructor|done].
  - rewrite !filter_cons, Forall_cons.
    destruct (decide (P x)) as [HP|HP], (decide (Q x)) as [HQ|HQ];
      cbn [length]; try (by destruct (Hdisj x)).
    + split; [lia|]. split.
      * intros Heq. split; [by left|]. apply IHeq. lia.
      * intros [_ Hall]. apply IHeq in Hall. lia.
    + split; [lia|]. split.
      * intros Heq. split; [by right|]. apply IHeq. lia.
      * intros [_ Hall]. apply IHeq in Hall. lia.
    + split; [lia|]. split; [lia|]. intros [[?|?] _]; done.
Qed.

Lemma four_counters_bound (P1 P2 P3 P4 : row → Prop) `{!∀ x, Decision (P1 x)}
    `{!∀ x, Decision (P2 x)} `{!∀ x, Decision (P3 x)} `{!∀ x, Decision (P4 x)}
    (rows : list row) :
  (∀ x, P1 x → P2 x → False) → (∀ x, P1 x → P3 x → False) →
  (∀ x, P1 x → P4 x → False) → (∀ x, P2 x → P3 x → False) →
  (∀ x, P2 x → P4 x → False) → (∀ x, P3 x → P4 x → False) →
  (length (filter P1 rows) + length (filter P2 rows) + length (filter P3 rows)
   + length (filter P4 rows) ≤ length rows)%nat.
Proof.
  intros H12 H13 H14 H23 H24 H34. induction rows as [|x rows IH]; [done|].
  rewrite !filter_cons.
  destruct (decide (P1 x)), (decide (P2 x)), (decide (P3 x)), (decide (P4 x));
    cbn [length]; try lia;
    first [by destruct (H12 x)|by destruct (H13 x)|by destruct (H14 x)
          |by destruct (H23 x)|by destruct (H24 x)|by destruct (H34 x)].
Qed.

(** X22.  The status counters of the report never exceed their total, and
    they need not reach it.  Active and closed matches add up to the number
    of matches exactly when every match row has one of these two statuses;
    open and closed polls add up to the number of polls exactly when every
    is_closed is 0 or 1 (a missing column counts as 0, a NULL as neither);
    the four counters of the help requests stay within their total.  When
    a repository raises, all counters of its block are zero. *)
Theorem status_counters_within_total (matches_r help_r polls_r votes_r : option (list row)) :
  let ms := _get_match_statistics matches_r in
  let hs := _get_help_statistics help_r in
  let ps := _get_poll_statistics polls_r votes_r in
  ms_active ms + ms_closed ms ≤ ms_total ms ∧
  hs_open hs + hs_in_progress hs + hs_resolved hs + hs_closed hs ≤ hs_total hs ∧
  ps_open ps + ps_closed ps ≤ ps_total ps ∧
  (∀ rows, matches_r = Some rows →
     (ms_active ms + ms_closed ms = ms_total ms
      ↔ Forall (λ m, m !! "status" = Some (VStr "active")
                     ∨ m !! "status" = Some (VStr "closed")) rows)) ∧
  (∀ polls votes, polls_r = Some polls → votes_r = Some votes →
     ps_total_votes ps = Z.of_nat (length votes) ∧
     (ps_open ps + ps_closed ps = ps_total ps
      ↔ Forall (λ p, get p "is_closed" (VInt 0) = VInt 0
                     ∨ get p "is_closed" (VInt 0) = VInt 1) polls)) ∧
  (polls_r = None ∨ votes_r = None →
     ps = {| ps_total := 0; ps_open := 0; ps_closed := 0; ps_total_votes := 0 |}).
Proof.
  cbv zeta.
  assert (Hstatus : ∀ (m : row) (s : string),
             get m "status" VNone = VStr s ↔ m !! "status" = Some (VStr s)).
  { intros m s. unfold get. destruct (m !! "status") as [v|]; cbn [default from_option]; unfold id.
    - split; [by intros ->|by intros [= ->]].
    - split; discriminate. }
  assert (Hm : ∀ rows,
             (length (filter (λ x, get x "status" VNone = VStr "active") rows)
              + length (filter (λ x, get x "status" VNone = VStr "closed") rows)
              ≤ length rows)%nat ∧
             ((length (filter (λ x, get x "status" VNone = VStr "active") rows)
               + length (filter (λ x, get x "status" VNone = VStr "closed") rows))%nat
              = length rows
              ↔ Forall (λ x, get x "status" VNone = VStr "active"
                             ∨ get x "status" VNone = VStr "closed") rows)).
  { intros rows. apply two_counters_bound. intros x H1 H2. congruence. }
  assert (Hp : ∀ rows,
             (length (filter (λ x, get x "is_closed" (VInt 0) = VInt 0) rows)
              + length (filter (λ x, get x "is_closed" (VInt 0) = VInt 1) rows)
              ≤ length rows)%nat ∧
             ((length (filter (λ x, get x "is_closed" (VInt 0) = VInt 0) rows)
               + length (filter (λ x, get x "is_closed" (VInt 0) = VInt 1) rows))%nat
              = length rows
              ↔ Forall (λ x, get x "is_closed" (VInt 0) = VInt 0
                             ∨ get x "is_closed" (VInt 0) = VInt 1) rows)).
  { intros rows. apply two_counters_bound. intros x H1 H2. congruence. }
  split; [|split; [|split; [|split; [|split]]]].
  - destruct matches_r as [rows|]; cbn; [|lia].
    unfold count_eq. destruct (Hm rows) as [Hle _]. lia.
  - destruct help_r as [rows|]; cbn; [|lia]. unfold count_eq.
    pose proof (four_counters_bound
                  (λ x, get x "status" VNone = VStr "open")
                  (λ x, get x "status" VNone = VStr "in_progress")
                  (λ x, get x "status" VNone = VStr "resolved")
                  (λ x, get x "status" VNone = VStr "closed") rows) as Hh.
    cbn beta in Hh.
    assert (Hb := Hh ltac:(congruence) ltac:(congruence) ltac:(congruence)
                     ltac:(congruence) ltac:(congruence) ltac:(congruence)).
    lia.
  - destruct polls_r as [polls|], votes_r as [votes|]; cbn; try lia.
    unfold count_eq0. destruct (Hp polls) as [Hle _]. lia.
  - intros rows ->. cbn. unfold count_eq. destruct (Hm rows) as [_ Heq].
    rewrite <- Nat2Z.inj_add, Nat2Z.inj_iff, Heq.
    apply Forall_proper; [|done]. intros m. by rewrite !Hstatus.
  - intros polls votes -> ->. cbn. split; [done|]. unfold count_eq0.
    destruct (Hp polls) as [_ Heq].
    by rewrite <- Nat2Z.inj_add, Nat2Z.inj_iff, Heq.
  - intros [->| ->]; [done|]. by destruct polls_r.
Qed.

End StatisticsCounters.

(** ** The challenge counters
       (src/repositories/user_challenge_stats_repository.py) *)

Section ChallengeCounters.
Import ChallengeStats.

Lemma plus_zero_stats a : plus a zero_stats = a.
Proof. destruct a. unfold plus. cbn. f_equal; lia. Qed.

Lemma get_or_create_ok t e u :
  select_ok e = true → insert_ok e = true →
  (get_or_create t e u).1 !! u = Some (get_or_create t e u).2 ∧
  (get_or_create t e u).2 = default zero_stats (t !! u) ∧
  (∀ v, v ≠ u → (get_or_create t e u).1 !! v = t !! v).
Proof.
  intros Hs Hi. unfold get_or_create. rewrite Hs, Hi.
  destruct (t !! u) as [row|] eqn:Hrow; cbv beta iota;
    cbn [fst snd default from_option]; unfold id.
  - done.
  - rewrite lookup_insert_eq. split; [done|]. split; [done|].
    intros v Hv. by rewrite lookup_insert_ne.
Qed.

Lemma update_fields_one t u f row :
  t !! u = Some row →
  _update_fields t true u [f] !! u = Some (set_column row f) ∧
  (∀ v, v ≠ u → _update_fields t true u [f] !! v = t !! v).
Proof.
  intros Hrow. cbn [_update_fields foldl]. rewrite Hrow, lookup_insert_eq.
  split; [done|]. intros v Hv. by rewrite lookup_insert_ne.
Qed.

Lemma step_succeeds t o u :
  succeeds o →
  step t o !! u
  = if decide (op_user o = u)
    then Some (plus (default zero_stats (t !! u)) (asked u o))
    else t !! u.
Proof.
  intros (Hs & Hi & Hu).
  destruct (get_or_create_ok t (op_read o) (op_user o) Hs Hi) as (Hrow & Hst & Hother).
  unfold step, add_points, increment_total, increment_completed, asked.
  destruct (get_or_create t (op_read o) (op_user o)) as [t1 st].
  cbn [fst snd] in Hrow, Hst, Hother. rewrite Hu.
  destruct (decide (op_user o = u)) as [Heq|Hne].
  - rewrite <- Heq, <- Hst.
    destruct (op_method o);
      rewrite (proj1 (update_fields_one t1 (op_user o) _ st Hrow));
      destruct st; unfold set_column, plus; cbn; f_equal; f_equal; lia.
  - destruct (op_method o);
      rewrite (proj2 (update_fields_one t1 (op_user o) _ st Hrow)) by done;
      by apply Hother.
Qed.

Lemma run_succeeds t ops u :
  Forall succeeds ops →
  (Forall (λ o, op_user o ≠ u) ops → run t ops !! u = t !! u) ∧
  (Exists (λ o, op_user o = u) ops ∨ is_Some (t !! u) →
   run t ops !! u
   = Some (foldl (λ acc o, plus acc (asked u o)) (default zero_stats (t !! u)) ops)).
Proof.
  intros Hok. revert t. induction Hok as [|o ops Ho Hok IH]; intros t.
  - split; [done|]. intros [Hex|[row Hrow]]; [by apply Exists_nil in Hex|].
    cbn. by rewrite Hrow.
  - cbn [run foldl]. fold (run (step t o) ops).
    destruct (IH (step t o)) as [IHne IHsum].
    pose proof (step_succeeds t o u Ho) as Hstep.
    split.
    + intros Hall. apply Forall_cons in Hall as [Hne Hall].
      rewrite IHne by done. rewrite Hstep. by rewrite decide_False.
    + intros Hsome. destruct (decide (op_user o = u)) as [Heq|Hne].
      * rewrite IHsum by (right; rewrite Hstep; eauto). by rewrite Hstep.
      * assert (Hz : asked u o = zero_stats) by (unfold asked; by rewrite decide_False).
        rewrite Hz, plus_zero_stats.
        rewrite IHsum.
        -- by rewrite Hstep.
        -- rewrite Hstep. destruct Hsome as [Hex|Hsome]; [|by right].
           apply Exists_cons in Hex as [?|Hex]; [done|by left].
Qed.

(** X23.  The three counters of a user add up over any sequence of
    add_points, increment_total and increment_completed calls in which
    every database statement goes through: the user's row ends with each
    counter at its starting value (zero for a user without a row) plus what
    the calls for that user asked for, the calls for other users leave it
    untouched, and a user nobody calls for gets no row. *)
Theorem challenge_counters_add_up (t : gmap string stats) (ops : list op) (u : string)
    (Hok : Forall succeeds ops) :
  (Exists (λ o, op_user o = u) ops ∨ is_Some (t !! u) →
   run t ops !! u
   = Some (foldl (λ acc o, plus acc (asked u o)) (default zero_stats (t !! u)) ops)) ∧
  (Forall (λ o, op_user o ≠ u) ops → run t ops !! u = t !! u).
Proof. destruct (run_succeeds t ops u Hok). done. Qed.

Lemma challenge_counters_add_up_witness :
  run ∅ [call "U1" (AddPoints 10); call "U2" (AddPoints 7); call "U1" IncrementTotal;
         call "U1" (AddPoints 5); call "U1" IncrementCompleted] !! "U1"
  = Some {| total_challenges := 1; completed_challenges := 1; total_points := 15 |}.
Proof.
  refine (eq_trans
            (proj1 (challenge_counters_add_up ∅
                      [call "U1" (AddPoints 10); call "U2" (AddPoints 7);
                       call "U1" IncrementTotal; call "U1" (AddPoints 5);
                       call "U1" IncrementCompleted] "U1" _) _) _).
  - repeat (apply Forall_cons; split; [done|]). apply Forall_nil_2.
  - left. by apply Exists_cons_hd.
  - reflexivity.
Defined.

(** X24.  Every outcome of add_points.  No other user's row changes and no
    row is ever removed.  For a user with a row, a failed write leaves the
    points as they are; a write after a good read stores the old points
    plus the new ones; and a write after a failed read, which makes
    get_or_create answer with the zero record, stores the new points alone,
    so that the points collected before are lost.  For a user without a row
    the row is created when read and insert go through, and then holds the
    new points or, after a failed write, zero. *)
Theorem add_points_outcomes (t : gmap string stats) (e : read_env) (update_ok : bool)
    (u : string) (points : Z) :
  (∀ v, v ≠ u → add_points t e update_ok u points !! v = t !! v) ∧
  add_points t e update_ok u points !! u
  = match t !! u with
    | Some row =>
        Some {| total_challenges := total_challenges row;
                completed_challenges := completed_challenges row;
                total_points :=
                  if update_ok
                  then (if select_ok e then total_points row + points else points)
                  else total_points row |}
    | None =>
        if select_ok e && insert_ok e
        then Some {| total_challenges := 0; completed_challenges := 0;
                     total_points := if update_ok then points else 0 |}
        else None
    end.
Proof.
  unfold add_points, get_or_create.
  destruct (select_ok e), (insert_ok e), update_ok, (t !! u) as [row|] eqn:Hrow;
    cbn [_update_fields foldl set_column fst snd andb];
    rewrite ?lookup_insert_eq, ?Hrow; cbn [from_option];
    rewrite ?insert_insert_eq, ?lookup_insert_eq, ?Hrow;
    (split; [intros v Hv; rewrite ?lookup_insert_ne by done; done|]);
    try done; by destruct row.
Qed.

End ChallengeCounters.

(** ** The value of a vote button (src/handlers/poll_handler.py) *)

Section PollVoteFormat.
Import PollVote.

Context {W : Type}.
Variable cast_vote : W → string → string → Z → W * option vote_result.

Lemma split_length s : length (PyStr.split "_" s) = S (underscores s).
Proof.
  induction s as [|c s IH]; [done|]. cbn [PyStr.split underscores].
  destruct (decide (c = "_"%char)); cbn [length]; [by rewrite IH|].
  destruct (PyStr.split "_" s); cbn [length] in *; [done|lia].
Qed.

Lemma split_no_underscore s : underscores s = 0%nat → PyStr.split "_" s = [s].
Proof.
  induction s as [|c s IH]; [done|]. cbn [PyStr.split underscores].
  destruct (decide (c = "_"%char)); [done|]. intros Hs. by rewrite IH.
Qed.

Lemma split_field a b :
  underscores a = 0%nat →
  PyStr.split "_" (a +:+ String "_" b) = a :: PyStr.split "_" b.
Proof.
  induction a as [|c a IH]; cbn [underscores].
  - intros _. change (EmptyString +:+ String "_" b) with (String "_" b).
    cbn [PyStr.split]. by rewrite decide_True.
  - destruct (decide (c = "_"%char)); [done|]. intros Ha.
    change (String c a +:+ String "_" b) with (String c (a +:+ String "_" b)).
    cbn [PyStr.split]. rewrite decide_False by done. by rewrite IH.
Qed.

(** X25.  What handle_poll_vote makes of a button value.  A value that
    does not hold exactly two underscores is dropped: no vote is cast and
    nobody is told.  A value of three fields [a_p_i] is read as poll [p]
    and option [int(i)], whatever the first field is: when the third field
    is no integer the click is dropped as well, otherwise cast_vote is
    called once for [p], the clicking user and that option, and the user
    gets exactly one ephemeral message, also when cast_vote raises. *)
Theorem poll_vote_value_format (h : handler_state (W := W))
    (user_id value channel_id : string) :
  (underscores value ≠ 2%nat →
   handle_poll_vote cast_vote h user_id value channel_id = h) ∧
  (∀ a poll_id idx,
     value = a +:+ String "_" (poll_id +:+ String "_" idx) →
     underscores a = 0%nat → underscores poll_id = 0%nat → underscores idx = 0%nat →
     match PyStr.int idx with
     | None => handle_poll_vote cast_vote h user_id value channel_id = h
     | Some option_index =>
         let h' := handle_poll_vote cast_vote h user_id value channel_id in
         world h' = (cast_vote (world h) poll_id user_id option_index).1 ∧
         ∃ t, posted h' = posted h ++ [post_ephemeral channel_id user_id t] ∧
              t = match (cast_vote (world h) poll_id user_id option_index).2 with
                  | Some {| message := Some m |} => TxtResult m
                  | _ => TxtVoteFailed
                  end
     end).
Proof.
  split.
  - intros Hn. unfold handle_poll_vote. rewrite decide_True; [done|].
    rewrite split_length. lia.
  - intros a poll_id idx -> Ha Hp Hi. unfold handle_poll_vote.
    rewrite (split_field a) by done. rewrite (split_field poll_id) by done.
    rewrite (split_no_underscore idx) by done.
    rewrite decide_False by (cbn; lia). cbn [lookup list_lookup].
    destruct (PyStr.int idx) as [i|]; [|done]. cbv zeta.
    destruct (cast_vote (world h) poll_id user_id i) as [w' [[ok [m|]]|]];
      cbn [message world posted fst snd]; split; try done; eauto.
Qed.

End PollVoteFormat.
